(** * gstore-node: Entity/Model persistence engine

  A shallow embedding of the Model layer (sanitize, update, deleteAll,
  populate), of the entity key derivation and of the datastore
  serializer, together with the properties stated about them.

  Two generations of the Model live side by side in the repository: the
  JavaScript one (lib/model.js, the source part_003; [ModelJs], [UpdateJs])
  and the TypeScript one (src/model.ts, the source part_006; [ModelTs],
  [UpdateTs]).  Both are embedded, each from its own text; deleteAll and
  populate read the same in both and are embedded once.  The entity
  constructor's key derivation comes from lib/entity.js, the serializer
  from lib/serializer.js and its TypeScript twin.

  Beyond these: Model.key, Model.delete and Model.get of src/model.ts
  ([KeyTs], [DeleteTs], [GetTs]), the query helpers ([QueryHelpers]), the
  Schema of src/schema.ts ([SchemaTs]), the registry of models and the
  instance manager of lib/index.js ([Gstore], [GstoreInstances]), and the
  reading side of the serializer with entity.plain ([FromDatastore]). *)

From stdpp Require Import base option list strings gmap fin_maps sorting.
From Stdlib Require Import ZArith Lia Ascii.

Local Open Scope string_scope.
Local Open Scope list_scope.

Set Warnings "-register-all,-abstract-large-number,-clear-no-such-hyp".

(** ** JavaScript values

  A value is a primitive, an array, or an object.  An object carries its
  class (plain, or an instance of the datastore [Key] class, in which case
  the key it denotes), its own string-keyed properties, and the one
  symbol-keyed property the library uses, [ds.KEY].  Keys are opaque: the
  code only reaches them through the datastore client. *)

Section Values.
Context {Key : Type}.

Inductive value : Type :=
| VUndefined
| VNull
| VBool (b : bool)
| VNumber (z : Z)
| VString (s : string)
| VArray (items : list value)
| VObject (cls : option Key) (props : gmap string value) (dsKEY : option Key).

(** [is.object]: the value's [Object.prototype.toString] tag is
    "[object Object]". *)
Definition is_object (v : value) : bool :=
  match v with
  | VObject _ _ _ => true
  | _ => false
  end.

(** [ds.isKey]: an instance of the datastore Key class. *)
Definition isKey (v : value) : bool :=
  match v with
  | VObject (Some _) _ _ => true
  | _ => false
  end.

(** JavaScript truthiness, as used by [!key], [!data], [a || b]. *)
Definition truthy (v : value) : bool :=
  match v with
  | VUndefined | VNull => false
  | VBool b => b
  | VNumber z => negb (z =? 0)%Z
  | VString s => negb (String.eqb s "")
  | VArray _ | VObject _ _ _ => true
  end.

(** [v === 'null'] *)
Definition is_null_string (v : value) : bool :=
  match v with
  | VString s => String.eqb s "null"
  | _ => false
  end.

(** What every plain object inherits from [Object.prototype]: a lookup
    [o[name]] that finds no own property finds these, each a truthy value
    (a method, or the prototype itself under [__proto__]). *)
Definition inherited_names : list string :=
  ["constructor"; "__defineGetter__"; "__defineSetter__"; "hasOwnProperty";
   "__lookupGetter__"; "__lookupSetter__"; "isPrototypeOf"; "propertyIsEnumerable";
   "toString"; "valueOf"; "__proto__"; "toLocaleString"].

(** [name in {}] *)
Definition inherits (name : string) : bool := bool_decide (name ∈ inherited_names).

(** [Object.keys(o)] for the own string-keyed properties. *)
Definition object_keys (props : gmap string value) : list string :=
  (map_to_list props).*1.

(** [o[ds.KEY]] on a value that is neither null nor undefined: the key the
    datastore client attached to a record, if any. *)
Definition get_KEY (v : value) : option Key :=
  match v with
  | VObject _ _ dsKEY => dsKEY
  | _ => None
  end.

(** A plain object literal. *)
Definition plain (props : gmap string value) : value := VObject None props None.

(** What the embedded code throws or rejects with. *)
Inductive error : Type :=
| TypeError                                   (* raised by the JavaScript runtime *)
| Error (msg : string)                        (* new Error(msg) *)
| GstoreError (code : string)                 (* new GstoreError(code, ...) *)
| ValidationError (field : string)            (* reported by the schema validation *)
| StoreError (tag : nat)                      (* a failure of the datastore client *)
| StoreErrors (tags : list nat)               (* the same, delivered as an array *)
| ApiResponse (tag : nat)                     (* a store response, thrown as it is *)
| Thrown_undefined                            (* throw undefined *)
| CacheError (inner : error).                 (* cache failure after a successful write *)

Inductive result (A : Type) : Type :=
| Return (a : A)
| Throw (e : error).
End Values.

Arguments Return {A} a.
Arguments Throw {A} e.

Arguments value : clear implicits.

(** ** Schema *)

Section Schemas.
Context {Key : Type}.

(** A path definition: only the flags the embedded code reads.  [None]
    stands for a flag left undefined. *)
Record pathConfig := PathConfig {
  pc_type : option string;
  pc_write : option bool;
  pc_read : option bool;
}.

(** A Joi schema as the Model sees it: [validate(data)] gives an error
    flag and a value, and two of the Joi options are read. *)
Record joiSchema := JoiSchema {
  joi_validate : value Key → bool * gmap string (value Key);
  joi_allowUnknown : bool;
  joi_stripUnknown : bool;
}.

Record schemaOptions := SchemaOptions {
  explicitOnly : option bool;
  validateBeforeSave : bool;
  keyType : option string;
}.

Record schema := Schema {
  paths : gmap string pathConfig;
  options : schemaOptions;
  _joi : option joiSchema;
  refProps : option (gmap string bool);   (* schema.__meta.refProps *)
}.

(** [{}.hasOwnProperty.call(schema.paths, k)] *)
Definition schemaHasProperty (s : schema) (k : string) : bool :=
  bool_decide (is_Some (paths s !! k)).

(** [schemaHasProperty ? schema.paths[k].write !== false : true] *)
Definition isPropWritable (s : schema) (k : string) : bool :=
  match paths s !! k with
  | Some pc => match pc_write pc with Some false => false | _ => true end
  | None => true
  end.

(** The [options] argument of sanitize: [{ disabled: [...] }]. *)
Record sanitizeOptions := SanitizeOptions { disabled : list string }.

Definition default_sanitizeOptions : sanitizeOptions := SanitizeOptions [].

(** [options.disabled.includes('write')] *)
Definition isWriteDisabled (o : sanitizeOptions) : bool :=
  bool_decide ("write" ∈ disabled o).
End Schemas.

Arguments pathConfig : clear implicits.
Arguments joiSchema : clear implicits.
Arguments schema : clear implicits.

(** ** The JavaScript Model (lib/model.js) *)

Module ModelJs.
Section Sanitize.
Context {Key : Type}.
Abbreviation value := (value Key).
Abbreviation schema := (schema Key).

(** [schema.options.explicitOnly !== false], or [!joiOptions.allowUnknown]
    for a Joi schema. *)
Definition isSchemaExplicitOnly (s : schema) : bool :=
  match _joi s with
  | Some j => negb (joi_allowUnknown j)
  | None => match explicitOnly (options s) with Some false => false | _ => true end
  end.

(** The body of [Object.keys(data).forEach(k => ...)]. *)
Definition sanitize_key (s : schema) (o : sanitizeOptions)
    (sanitized : gmap string value) (k : string) : gmap string value :=
  if (isSchemaExplicitOnly s && negb (schemaHasProperty s k))
     || (negb (isPropWritable s k) && negb (isWriteDisabled o))
  then delete k sanitized
  else match sanitized !! k with
       | Some v => if is_null_string v then <[k := VNull]> sanitized else sanitized
       | None => sanitized
       end.

(** [sanitize(data, schema, options)]: null for anything that is not an
    object, otherwise a fresh plain object. *)
Definition sanitize (data : value) (s : schema) (o : sanitizeOptions) : value :=
  match data with
  | VObject _ props dsKEY =>
      match _joi s with
      | Some j =>
          VObject None (foldl (sanitize_key s o) (joi_validate j data).2 (object_keys props)) None
      | None =>
          VObject None (foldl (sanitize_key s o) props (object_keys props)) dsKEY
      end
  | _ => VNull
  end.

(** [Model.sanitize(data)]: the public entry point, default options. *)
Definition Model_sanitize (s : schema) (data : value) : value :=
  sanitize data s default_sanitizeOptions.

(** What one iteration of the loop does to the property it visits, read as
    a function of that property alone (used to state the loop's effect). *)
Definition sanitize_prop (s : schema) (o : sanitizeOptions) (k : string)
    (ov : option value) : option value :=
  if (isSchemaExplicitOnly s && negb (schemaHasProperty s k))
     || (negb (isPropWritable s k) && negb (isWriteDisabled o))
  then None
  else (λ v, if is_null_string v then VNull else v) <$> ov.
End Sanitize.
End ModelJs.

(** ** The TypeScript Model (src/model.ts) *)

Module ModelTs.
Section Sanitize.
Context {Key : Type}.
Abbreviation value := (value Key).
Abbreviation schema := (schema Key).

(** The own properties of a Key instance (namespace, kind, id or name,
    parent), as the datastore client builds them. *)
Variable key_props : Key → gmap string value.

(** The Key instance for a key. *)
Definition key_value (k : Key) : value := VObject (Some k) (key_props k) None.

(** [joiOptions.stripUnknown] for a Joi schema, otherwise
    [schema.options.explicitOnly === true]. *)
Definition isSchemaExplicitOnly (s : schema) : bool :=
  match _joi s with
  | Some j => joi_stripUnknown j
  | None => match explicitOnly (options s) with Some true => true | _ => false end
  end.

(** [hasSchemaRefProps && schema.__meta.refProps[k]]; [refProps] is an
    object literal, so the lookup also finds what every object inherits. *)
Definition isRefProp (s : schema) (k : string) : bool :=
  match refProps s with
  | Some refs => default (inherits k) (refs !! k)
  | None => false
  end.

(** The body of [Object.keys(data).forEach(k => ...)]; [propValue] is
    [sanitized[k]], undefined when the property is missing. *)
Definition sanitize_key (s : schema) (o : sanitizeOptions)
    (sanitized : gmap string value) (k : string) : gmap string value :=
  let propValue := default VUndefined (sanitized !! k) in
  if (isSchemaExplicitOnly s && negb (schemaHasProperty s k))
     || (negb (isPropWritable s k) && negb (isWriteDisabled o))
  then delete k sanitized
  else if is_null_string propValue then <[k := VNull]> sanitized
  else if isRefProp s k && negb (isKey propValue) then
    (* replace a populated entity by its entity key *)
    match get_KEY propValue with
    | Some key => <[k := key_value key]> sanitized
    | None => sanitized
    end
  else sanitized.

(** The copy the loop works on: the Joi value when the schema is a Joi
    schema and validation passed, otherwise a spread of [data]. *)
Definition sanitize_init (s : schema) (data : value) (props : gmap string value)
    (dsKEY : option Key) : gmap string value * option Key :=
  match _joi s with
  | Some j =>
      let '(error, v) := joi_validate j data in
      if error then (props, dsKEY) else (v, None)
  | None => (props, dsKEY)
  end.

(** [Model.sanitize(data, options)].  The key is read off [data] before the
    object test, which raises a TypeError on null and undefined. *)
Definition sanitize (s : schema) (data : value) (o : sanitizeOptions) : result value :=
  match data with
  | VUndefined | VNull => Throw TypeError
  | VObject _ props dsKEY =>
      let key := get_KEY data in
      let '(sanitized0, sym0) := sanitize_init s data props dsKEY in
      let sanitized := foldl (sanitize_key s o) sanitized0 (object_keys props) in
      Return (VObject None sanitized (if key is Some _ then key else sym0))
  | _ => Return VNull
  end.

(** What one iteration of the loop does to the property it visits. *)
Definition sanitize_prop (s : schema) (o : sanitizeOptions) (k : string)
    (ov : option value) : option value :=
  if (isSchemaExplicitOnly s && negb (schemaHasProperty s k))
     || (negb (isPropWritable s k) && negb (isWriteDisabled o))
  then None
  else (λ v, if is_null_string v then VNull
             else if isRefProp s k && negb (isKey v) then
               match get_KEY v with Some key => key_value key | None => v end
             else v) <$> ov.
End Sanitize.
End ModelTs.

(** ** Vocabulary of the statements about sanitize *)

Section SanitizeSpec.
Context {Key : Type}.

(** [out] is an explicit-only sanitization of [props] for schema [s] under
    the options [o]: every key left belongs to the schema's paths and was a
    key of [props], no value left is the string 'null', and a kept field
    that held 'null' now holds null; and the fields of [props] under a
    schema path that is writable, or under any schema path while the write
    protection is disabled, are all kept, those that held 'null' holding
    null. *)
Definition explicitly_sanitized (s : schema Key) (o : sanitizeOptions)
    (props out : gmap string (value Key)) : Prop :=
  (∀ k, is_Some (out !! k) → is_Some (paths s !! k) ∧ is_Some (props !! k)) ∧
  (∀ k v, out !! k = Some v → is_null_string v = false) ∧
  (∀ k, props !! k = Some (VString "null") → is_Some (out !! k) → out !! k = Some VNull) ∧
  (∀ k, is_Some (props !! k) → is_Some (paths s !! k) →
        isPropWritable s k = true ∨ isWriteDisabled o = true →
        is_Some (out !! k)) ∧
  (∀ k, props !! k = Some (VString "null") → is_Some (paths s !! k) →
        isPropWritable s k = true ∨ isWriteDisabled o = true →
        out !! k = Some VNull).
End SanitizeSpec.

(** ** Sample data used to exercise the statements *)

Module Samples.
(** Keys named by a string, with no own properties shown. *)
Definition no_props : string → gmap string (value string) := λ _, ∅.

Definition writable : pathConfig := PathConfig (Some "string") None None.
Definition readonly : pathConfig := PathConfig (Some "string") (Some false) None.

(** [new Schema({ name: {type: String}, state: {type: String, write: false} })] *)
Definition user_schema : schema string :=
  Schema (<["name" := writable]> (<["state" := readonly]> ∅))
         (SchemaOptions (Some true) true None) None None.

(** [{ name: 'null', state: 'x', admin: true }] *)
Definition user_record : value string :=
  plain (<["name" := VString "null"]> (<["state" := VString "x"]> (<["admin" := VBool true]> ∅))).

(** A Joi schema whose [state] field has a default and is not writable:
    [{ state: { joi: Joi.string().default('requested'), write: false } }]. *)
Definition joi_with_default : joiSchema string :=
  JoiSchema (λ data,
      match data with
      | VObject _ props _ =>
          (false, match props !! "state" with
                  | Some _ => props
                  | None => <["state" := VString "requested"]> props
                  end)
      | _ => (true, ∅)
      end) false true.

Definition joi_user_schema : schema string :=
  Schema (<["state" := readonly]> ∅) (SchemaOptions None true None)
         (Some joi_with_default) None.
End Samples.

(** ** Entities and the datastore serializer (serializer.js, the
    TypeScript one alike) *)

Section Serializer.
Context {Key : Type}.
Abbreviation value := (value Key).

(** An entity instance, as far as the serializer and the Model read it:
    its key, the string-keyed properties of [entityData], and the index
    exclusions, a plain object from property name to excluded paths, as
    the serializers read it. *)
Record entity := Entity {
  entityKey : Key;
  entityData : gmap string value;
  excludeFromIndexes : gmap string (list string);
  excludeLargeProperties : bool;     (* entity.schema.options.excludeLargeProperties *)
}.

Record datastoreFormat := DatastoreFormat {
  df_key : Key;
  df_data : gmap string value;
  df_excludeLargeProperties : option bool;
  df_excludeFromIndexes : option (list string);
  df_method : option string;
}.

(** [typeof value !== 'undefined'] *)
Definition is_defined (v : value) : bool :=
  match v with VUndefined => false | _ => true end.

(** [value !== null] *)
Definition is_not_null (v : value) : bool :=
  match v with VNull => false | _ => true end.

(** [Object.entries(entity.entityData).reduce((acc, [key, value]) => ..., {})]:
    the assignment [acc[key] = value] creates no property under the name
    [__proto__]. *)
Definition wire_data (entityData : gmap string value) : gmap string value :=
  foldl (λ acc kv,
           if is_defined kv.2 && negb (String.eqb kv.1 "__proto__")
           then <[kv.1 := kv.2]> acc else acc)
        ∅ (map_to_list entityData).

(** [entity.excludeFromIndexes[key]] when it is not undefined: the array
    under an own key, or what every plain object inherits under the name,
    which is no array ([None]). *)
Definition exclusion_of (exclusions : gmap string (list string)) (key : string)
    : option (option (list string)) :=
  match exclusions !! key with
  | Some arr => Some (Some arr)
  | None => if inherits key then Some None else None
  end.

(** [(acc, arr) => [...acc, ...arr]]: the spread throws on what is not
    iterable. *)
Definition spread_into (acc : result (list string)) (found : option (list string))
    : result (list string) :=
  match acc, found with
  | Return acc, Some arr => Return (acc ++ arr)%list
  | Return _, None => Throw TypeError
  | Throw e, _ => Throw e
  end.

(** [getExcludeFromIndexes]: the entries of [data] that are not null, what
    [entity.excludeFromIndexes] holds for their names where it is not
    undefined, spread into one array. *)
Definition getExcludeFromIndexes (data : gmap string value)
    (exclusions : gmap string (list string)) : result (list string) :=
  foldl spread_into (Return [])
    (omap (λ kv : string * value, exclusion_of exclusions kv.1)
       (filter (λ kv : string * value, is_not_null kv.2 = true) (map_to_list data))).

(** serializer.js, [toDatastore(entity, options)] *)
Definition toDatastore_js (e : entity) (method : option string) : result datastoreFormat :=
  let data := wire_data (entityData e) in
  match getExcludeFromIndexes data (excludeFromIndexes e) with
  | Throw err => Throw err
  | Return excluded =>
      Return {| df_key := entityKey e;
                df_data := data;
                df_excludeLargeProperties := None;
                df_excludeFromIndexes :=
                  if (0 <? length excluded)%nat then Some excluded else None;
                df_method := method |}
  end.

(** The TypeScript serializer, which also passes the schema's
    excludeLargeProperties option on. *)
Definition toDatastore_ts (e : entity) (method : option string) : result datastoreFormat :=
  let data := wire_data (entityData e) in
  match getExcludeFromIndexes data (excludeFromIndexes e) with
  | Throw err => Throw err
  | Return excluded =>
      Return {| df_key := entityKey e;
                df_data := data;
                df_excludeLargeProperties := Some (excludeLargeProperties e);
                df_excludeFromIndexes :=
                  if (0 <? length excluded)%nat then Some excluded else None;
                df_method := method |}
  end.
End Serializer.

Arguments entity : clear implicits.
Arguments datastoreFormat : clear implicits.

(** *** Vocabulary and sample data for the serializer *)

Section SerializerSpec.
Context {Key : Type}.

(** The entity holds, under a name every object inherits, a value that is
    neither undefined nor null, and lists no exclusions of its own for
    that name. *)
Definition holds_inherited_name (e : entity Key) (k : string) : Prop :=
  inherits k = true ∧ k ≠ "__proto__" ∧ excludeFromIndexes e !! k = None ∧
  ∃ v, entityData e !! k = Some v ∧ v ≠ VUndefined ∧ v ≠ VNull.
End SerializerSpec.

Module SerializerSamples.
(** An entity whose data is [{ constructor: 'x' }], as a schema that is not
    explicit-only lets through; no property is excluded from indexes. *)
Definition named_constructor : entity string :=
  Entity "User/1" {[ "constructor" := VString "x" ]} ∅ false.
End SerializerSamples.

(** ** Entity keys (entity.js: createKey, parseId) *)

Module EntityKey.

(** One element of a key path: a kind or a name (a string), an integer id
    given as a number, or the store's integer form of a string, [ds.int(s)]. *)
Inductive pathElement : Type :=
| PString (s : string)
| PNumber (z : Z)
| PInt (s : string).

(** What [ds.key] is called with: a path and, when given, a namespace. *)
Record dsKey := DsKey {
  key_namespace : option string;
  key_path : list pathElement;
}.

(** The [id] argument of the constructor. *)
Inductive idArg : Type :=
| IdAbsent                (* undefined or null *)
| IdString (s : string)
| IdNumber (z : Z)
| IdOther.                (* any other value, an object say *)

(** [if (id)] *)
Definition id_truthy (id : idArg) : bool :=
  match id with
  | IdAbsent => false
  | IdString s => negb (String.eqb s "")
  | IdNumber z => negb (z =? 0)%Z
  | IdOther => true
  end.

Definition is_digit (a : ascii) : bool :=
  let n := Ascii.nat_of_ascii a in (48 <=? n)%nat && (n <=? 57)%nat.

Fixpoint all_digits (s : string) : bool :=
  match s with
  | EmptyString => true
  | String a rest => is_digit a && all_digits rest
  end.

(** A string that looks like an integer: decimal digits, at least one, and
    no more than 308 of them (so that it denotes a finite Number; every
    64-bit id is of this form). *)
Definition integer_like (s : string) : bool :=
  negb (String.eqb s "") && all_digits s && (String.length s <=? 308)%nat.

Section WithIsFinite.
(** The JavaScript global [isFinite], applied to a string. *)
Variable isFinite : string → bool.

(** [parseId(self, id)], with [options = self.schema.options]. *)
Definition parseId (options : option schemaOptions) (id : idArg) : result pathElement :=
  match id with
  | IdString s =>
      match options with
      | Some o =>
          if bool_decide (keyType o = Some "name") then Return (PString s)
          else if bool_decide (keyType o = Some "id") then Return (PInt s)
          else if isFinite s then Return (PInt s) else Return (PString s)
      | None => Throw TypeError
      end
  | IdNumber z => Return (PNumber z)
  | _ => Throw (Error "id must be a string or a number")
  end.

(** [namespace ? ... : ...] *)
Definition namespace_given (namespace : option string) : option string :=
  match namespace with
  | Some ns => if String.eqb ns "" then None else Some ns
  | None => None
  end.

(** [createKey(self, id, ancestors, namespace)]; [ancestors] is [Some] when
    an array was passed. *)
Definition createKey (entityKind : string) (options : option schemaOptions)
    (id : idArg) (ancestors : option (list pathElement)) (namespace : option string)
    : result dsKey :=
  let finish path := Return (DsKey (namespace_given namespace) path) in
  if id_truthy id then
    match parseId options id with
    | Return id' =>
        finish (match ancestors with
                | Some anc => (anc ++ [PString entityKind; id'])%list
                | None => [PString entityKind; id']
                end)
    | Throw e => Throw e
    end
  else
    finish (match ancestors with
            | Some anc => (anc ++ [PString entityKind])%list
            | None => [PString entityKind]
            end).

(** The key an entity gets from its constructor: the explicit key when one
    is passed, otherwise the derived one. *)
Definition constructor_entityKey (entityKind : string) (options : option schemaOptions)
    (id : idArg) (ancestors : option (list pathElement)) (namespace : option string)
    (key : option dsKey) : result dsKey :=
  match key with
  | Some k => Return k
  | None => createKey entityKind options id ancestors namespace
  end.
End WithIsFinite.

(** [idFromKey]: the trailing element of the key's path. *)
Definition trailing_identifier (k : dsKey) : option pathElement := last (key_path k).
End EntityKey.

(** ** Promises

    Asynchronous code is embedded by explicit state passing: a promise is a
    computation over a world [W] (the store, the log of calls made so far)
    that settles either way.  [then2 p f g] is [p.then(f, g)]. *)

Section Promises.
Context {W : Type}.

Definition promise (A : Type) : Type := W → result A * W.

Definition resolve {A} (a : A) : promise A := λ w, (Return a, w).
Definition reject {A} (e : error) : promise A := λ w, (Throw e, w).

Definition then2 {A B} (p : promise A) (onFulfilled : A → promise B)
    (onRejected : error → promise B) : promise B :=
  λ w, match p w with
       | (Return a, w') => onFulfilled a w'
       | (Throw e, w') => onRejected e w'
       end.

(** [p.then(f)] and [p.catch(g)] *)
Definition then_ {A B} (p : promise A) (f : A → promise B) : promise B := then2 p f reject.
Definition catch {A} (p : promise A) (g : error → promise A) : promise A := then2 p resolve g.
End Promises.

(** ** Model.update *)

Section UpdateWorld.
Context {Key : Type}.
Abbreviation value := (value Key).

(** A transaction object: who it is, and its [constructor.name]. *)
Record txObject := TxObject { tx_id : nat; tx_constructor : string }.

(** The calls that reach a collaborator during an update. *)
Inductive event : Type :=
| EvTransaction (t : txObject)                      (* ds.transaction() *)
| EvRun (t : txObject)                              (* transaction.run() *)
| EvGet (t : txObject) (key : Key)                  (* transaction.get(key) *)
| EvTxSave (t : txObject) (key : option Key) (data : gmap string value)
                                                    (* transaction.save(entity) *)
| EvDsSave (key : option Key) (data : gmap string value)   (* ds.save(entity) *)
| EvCommit (t : txObject)                           (* transaction.commit() *)
| EvRollback (t : txObject)                         (* transaction.rollback() *)
| EvExecPostHooks (t : txObject)                    (* transaction.execPostHooks() *)
| EvLoaderClear (key : Key)                         (* options.dataloader.clear(key) *)
| EvClearCache (key : option Key).                  (* Model.clearCache(key) *)

(** [gstore.cache.config], as far as [__hasCache] reads it. *)
Record cacheConfig := CacheConfig {
  cache_global_off : bool;      (* config.global === false *)
  cache_ttl_keys_off : bool;    (* config.ttl.keys === -1 *)
}.

(** The collaborators of one update, as a test double: what each call
    answers.  A fetched record is its properties and its [ds.KEY]. *)
Record env := Env {
  ds_transaction : txObject;
  tx_run : result unit;
  tx_get : Key → result (option (gmap string value * option Key));
  buildEntityData : gmap string value → gmap string value;
                                             (* the constructor's data, defaults added *)
  entity_validate : gmap string value → option error;
  ds_save : result unit;
  tx_commit : result unit;
  tx_rollback : result nat;
  tx_execPostHooks : result unit;
  gstore_cache : option cacheConfig;
  cache_clear : result unit;
}.

(** The [options] of update. *)
Record updateOptions := UpdateOptions {
  opt_replace : bool;               (* options.replace === true *)
  opt_dataloader : bool;            (* a dataloader was passed *)
  opt_cache : option bool;          (* options.cache *)
}.

(** The entity instance an update answers with. *)
Record updated := Updated {
  up_key : option Key;
  up_data : gmap string value;
  up_hook_error : option error;     (* entity[gstore.ERR_HOOKS] *)
}.

Definition call {A} (ev : event) (answer : result A) : promise (W := list event) A :=
  λ log, (answer, log ++ [ev]).

(** [Model.__hasCache(options)] *)
Definition hasCache (E : env) (opt_cache : option bool) : bool :=
  match gstore_cache E with
  | None => false
  | Some c =>
      match opt_cache with
      | Some b => b
      | None => negb (cache_global_off c) && negb (cache_ttl_keys_off c)
      end
  end.

(** [extend(false, entity, data)]: the defined properties of [data] laid
    over those of [entity]. *)
Definition extend_shallow (entity : gmap string value) (data : value) : gmap string value :=
  match data with
  | VObject _ props _ => filter (λ kv, is_defined kv.2 = true) props ∪ entity
  | _ => entity
  end.

(** [transaction.constructor.name !== 'Transaction'] *)
Definition not_a_Transaction (t : txObject) : bool :=
  negb (String.eqb (tx_constructor t) "Transaction").

Definition wrong_transaction : error := Error "Transaction needs to be a gcloud Transaction".
Definition not_found : error := GstoreError "ERR_ENTITY_NOT_FOUND".

(** [onSuccess] of save, outside a transaction: clear the kind's cache. *)
Definition save_onSuccess (E : env) (u : updated) : promise (W := list event) updated :=
  if hasCache E None then
    then2 (call (EvClearCache None) (cache_clear E))
          (λ _, resolve u) (λ err, reject (CacheError err))
  else resolve u.

(** [entity.save(transaction)] for the entity built from [data] and [key]:
    validation first, then the write, on the transaction when there is one. *)
Definition entity_save (E : env) (key : option Key) (data : gmap string value)
    (transaction : option txObject) : promise (W := list event) updated :=
  let u := Updated key data None in
  match entity_validate E data with
  | Some err => reject err
  | None =>
      match transaction with
      | None => then_ (call (EvDsSave key data) (ds_save E)) (λ _, save_onSuccess E u)
      | Some t =>
          if not_a_Transaction t then reject wrong_transaction
          else then_ (call (EvTxSave t key data) (Return ())) (λ _, resolve u)
      end
  end.

(** [onTransactionSuccess] *)
Definition onTransactionSuccess (E : env) (o : updateOptions) (key : Key)
    (entityUpdated : updated) : promise (W := list event) updated :=
  if hasCache E (opt_cache o) then
    then2 (call (EvClearCache (Some key)) (cache_clear E))
          (λ _, resolve entityUpdated) (λ err, reject (CacheError err))
  else resolve entityUpdated.

(** [options.dataloader.clear(key)] when a dataloader was passed. *)
Definition clear_dataloader (o : updateOptions) (key : Key) : promise (W := list event) unit :=
  if opt_dataloader o then call (EvLoaderClear key) (Return ()) else resolve ().
End UpdateWorld.

Arguments event : clear implicits.
Arguments env : clear implicits.
Arguments updated : clear implicits.

(** *** lib/model.js *)

Module UpdateJs.
Section Update.
Context {Key : Type}.
Abbreviation value := (value Key).
Abbreviation promise := (promise (W := list (event Key))).
Variable E : env Key.

(** What [getEntity] hands to [saveEntity]: the merged record, or, since
    its [catch] answers the error instead of throwing it again, an error
    object. *)
Inductive getData : Type :=
| GotEntity (key : option Key) (data : gmap string value)
| GotError (err : error).

(** [onTransactionError(transactionError)]: throw the response, or its
    first element when it is an array. *)
Definition onTransactionError {A} (transactionError : error) : promise A :=
  match transactionError with
  | StoreErrors (tag :: _) => reject (StoreError tag)
  | StoreErrors [] => reject Thrown_undefined
  | e => reject e
  end.

Definition getEntity (transaction : txObject) (key : Key) (data : value) : promise getData :=
  catch
    (then_ (call (EvGet transaction key) (tx_get E key))
       (λ entity,
          match entity with
          | None => reject not_found
          | Some (props, dsKEY) => resolve (GotEntity dsKEY (extend_shallow props data))
          end))
    (λ err, resolve (GotError err)).

(** [saveEntity(getData)]: an error object has neither [key] nor [data],
    so the entity is built from nothing. *)
Definition saveEntity (transaction : option txObject) (g : getData) : promise (updated Key) :=
  match g with
  | GotEntity entityKey entityData =>
      entity_save E entityKey (buildEntityData E entityData) transaction
  | GotError _ => entity_save E None (buildEntityData E ∅) transaction
  end.

Definition onEntityUpdated (o : updateOptions) (key : Key) (transaction : option txObject)
    (entity : updated Key) : promise (updated Key) :=
  then_ (clear_dataloader o key)
    (λ _, match transaction with
          | Some t => then_ (call (EvCommit t) (tx_commit E))
                            (λ _, onTransactionSuccess E o key entity)
          | None => onTransactionSuccess E o key entity
          end).

Definition onUpdateError (transaction : option txObject) (err : error) : promise (updated Key) :=
  match transaction with
  | Some t => then_ (call (EvRollback t) (tx_rollback E))
                    (λ response, onTransactionError (ApiResponse response))
  | None => reject err      (* onTransactionError([err]) throws err *)
  end.

Definition getAndUpdate (o : updateOptions) (key : Key) (data : value)
    (transaction : txObject) : promise (updated Key) :=
  then2 (then_ (getEntity transaction key data) (saveEntity (Some transaction)))
        (onEntityUpdated o key (Some transaction))
        (onUpdateError (Some transaction)).

(** [Model.update(id, data, ancestors, namespace, transaction, options)],
    with [key] the key that [this.key(id, ancestors, namespace)] derives and
    [transaction] absent when undefined or null. *)
Definition update (key : Key) (data : value) (transaction : option txObject)
    (o : updateOptions) : promise (updated Key) :=
  if opt_replace o then
    then2 (saveEntity transaction
             (GotEntity (Some key) (match data with VObject _ props _ => props | _ => ∅ end)))
          (onEntityUpdated o key transaction)
          (onUpdateError transaction)
  else
    match transaction with
    | None =>
        let t := ds_transaction E in
        catch (then_ (then_ (call (EvTransaction t) (Return ())) (λ _, call (EvRun t) (tx_run E)))
                     (λ _, getAndUpdate o key data t))
              onTransactionError
    | Some t =>
        if not_a_Transaction t then reject wrong_transaction
        else catch (getAndUpdate o key data t) onTransactionError
    end.
End Update.
End UpdateJs.

(** *** src/model.ts *)

Module UpdateTs.
Section Update.
Context {Key : Type}.
Abbreviation value := (value Key).
Abbreviation promise := (promise (W := list (event Key))).
Variable E : env Key.

Definition getEntity (transaction : txObject) (key : Key) (data : value)
    : promise (option Key * gmap string value) :=
  then_ (call (EvGet transaction key) (tx_get E key))
    (λ entity,
       match entity with
       | None => reject not_found
       | Some (props, dsKEY) => resolve (dsKEY, extend_shallow props data)
       end).

Definition saveEntity (transaction : option txObject)
    (g : option Key * gmap string value) : promise (updated Key) :=
  entity_save E g.1 (buildEntityData E g.2) transaction.

(** [internalTransaction] tells whether update opened the transaction. *)
Definition onEntityUpdated (o : updateOptions) (key : Key) (internalTransaction : bool)
    (transaction : option txObject) (entity : updated Key) : promise (updated Key) :=
  then_ (clear_dataloader o key)
    (λ _, match internalTransaction, transaction with
          | true, Some t =>
              then_ (then_ (call (EvCommit t) (tx_commit E))
                           (λ _, then2 (call (EvExecPostHooks t) (tx_execPostHooks E))
                                       (λ _, resolve entity)
                                       (λ err, resolve (Updated (up_key entity) (up_data entity)
                                                                (Some err)))))
                    (onTransactionSuccess E o key)
          | _, _ => onTransactionSuccess E o key entity
          end).

Definition onUpdateError (internalTransaction : bool) (transaction : option txObject)
    (err : error) : promise (updated Key) :=
  let error := match err with
               | StoreErrors (tag :: _) => StoreError tag
               | StoreErrors [] => Thrown_undefined
               | e => e
               end in
  match internalTransaction, transaction with
  | true, Some t => then_ (call (EvRollback t) (tx_rollback E)) (λ _, reject error)
  | _, _ => reject error
  end.

Definition getAndUpdate (o : updateOptions) (key : Key) (data : value)
    (internalTransaction : bool) (transaction : txObject) : promise (updated Key) :=
  then_ (then_ (getEntity transaction key data) (saveEntity (Some transaction)))
        (onEntityUpdated o key internalTransaction (Some transaction)).

Definition update (key : Key) (data : value) (transaction : option txObject)
    (o : updateOptions) : promise (updated Key) :=
  if opt_replace o then
    catch (then_ (saveEntity transaction
                    (Some key, match data with VObject _ props _ => props | _ => ∅ end))
                 (onEntityUpdated o key false transaction))
          (onUpdateError false transaction)
  else
    match transaction with
    | None =>
        let t := ds_transaction E in
        catch (then_ (then_ (call (EvTransaction t) (Return ())) (λ _, call (EvRun t) (tx_run E)))
                     (λ _, getAndUpdate o key data true t))
              (onUpdateError true (Some t))
    | Some t =>
        if not_a_Transaction t then reject wrong_transaction
        else getAndUpdate o key data false t
    end.
End Update.
End UpdateTs.

(** *** Vocabulary and sample collaborators for update *)

Section UpdateSpec.
Context {Key : Type}.

(** The event commits or rolls back a transaction. *)
Definition terminates_transaction (ev : event Key) : option txObject :=
  match ev with
  | EvCommit t | EvRollback t => Some t
  | _ => None
  end.

(** The event is a write: a save on a transaction or on the store. *)
Definition is_save (ev : event Key) : bool :=
  match ev with
  | EvTxSave _ _ _ | EvDsSave _ _ => true
  | _ => false
  end.
End UpdateSpec.

Module UpdateSamples.
(** The caller's transaction, and the one [ds.transaction()] gives. *)
Definition user_tx : txObject := TxObject 7 "Transaction".
Definition internal_tx : txObject := TxObject 0 "Transaction".

Definition john : gmap string (value string) := {[ "name" := VString "John" ]}.
Definition email : value string := plain {[ "email" := VString "a@b.com" ]}.

(** A store that holds [john] under every key, with a schema that accepts
    anything and adds no defaults. *)
Definition store_with_record : env string :=
  Env internal_tx (Return ()) (λ k, Return (Some (john, Some k))) id (λ _, None)
      (Return ()) (Return ()) (Return 0%nat) (Return ()) None (Return ()).

(** The same store, with a schema that rejects the entity on save. *)
Definition store_with_record_invalid : env string :=
  Env internal_tx (Return ()) (λ k, Return (Some (john, Some k))) id
      (λ _, Some (ValidationError "email"))
      (Return ()) (Return ()) (Return 0%nat) (Return ()) None (Return ()).

(** A store that holds nothing. *)
Definition empty_store : env string :=
  Env internal_tx (Return ()) (λ _, Return None) id (λ _, None)
      (Return ()) (Return ()) (Return 0%nat) (Return ()) None (Return ()).

Definition no_options : updateOptions := UpdateOptions false false None.
End UpdateSamples.

(** ** Model.deleteAll

    The store is embedded as the list of the keys the kind holds (in the
    queried scope); [ds.delete] removes the keys it is given, and the store
    and the cache answer every call.  Hooks on delete, when there are any,
    let the call through. *)

Section DeleteAll.
Context {Key : Type} `{EqDecision Key}.

Definition maxEntitiesPerBatch : nat := 500.
Definition timeoutBetweenBatches : nat := 500.
Definition limitDataPerQuery : nat := 100000.

Inductive deleteEvent : Type :=
| DQuery (limit : nat) (cache : option bool)      (* query.limit(limit); query.run({ cache }) *)
| DsDelete (keys : list Key)                      (* ds.delete(key or keys) *)
| DClearCache (keys : list Key) (clearQueries : bool)   (* Model.clearCache(keys, clearQueries) *)
| DTimeout (ms : nat).                            (* setTimeout(resolve, ms) *)

Record world := World {
  w_store : list Key;
  w_log : list deleteEvent;
}.

Definition log_event (ev : deleteEvent) (w : world) : world :=
  World (w_store w) (w_log w ++ [ev]).

(** The Model under deletion: is the key cache on, and does the Model have
    pre hooks on delete ([__pres.delete])? *)
Record deleteModel := DeleteModel {
  dm_hasCache : bool;
  dm_hasPreDelete : bool;
}.

Variable M : deleteModel.

(** [createQueryWithLimit().run(options)]: the keys of the kind, at most
    [limitDataPerQuery] of them. *)
Definition run_query (cache : option bool) (w : world) : list Key * world :=
  (take limitDataPerQuery (w_store w), log_event (DQuery limitDataPerQuery cache) w).

(** [Model.delete(null, null, null, null, keys, { clearQueries })] outside a
    transaction: the store's delete, then the cache. *)
Definition Model_delete (keys : list Key) (clearQueries : bool) (w : world) : world :=
  let w1 := log_event (DsDelete keys)
              (World (filter (λ k, k ∉ keys) (w_store w)) (w_log w)) in
  if dm_hasCache M then log_event (DClearCache keys clearQueries) w1 else w1.

(** [Math.ceil(n / d)] *)
Definition ceil_div (n d : nat) : nat :=
  n / d + (if Nat.eqb (n mod d) 0 then 0 else 1).

(** [deleteEntities(batch)] followed by [onEntitiesDeleted], up to the
    point where the query is run again.  [todo] bounds the batches left;
    it starts at [totalBatches]. *)
Fixpoint deleteEntities (todo : nat) (entities : list Key) (totalBatches currentBatch : nat)
    (w : world) : world :=
  let indexStart := currentBatch * maxEntitiesPerBatch in
  let entitiesToDelete := take maxEntitiesPerBatch (drop indexStart entities) in
  let w1 :=
    if dm_hasPreDelete M
    then foldl (λ w entity, Model_delete [entity] true w) w entitiesToDelete
    else Model_delete entitiesToDelete (Nat.eqb currentBatch 0) w in
  let currentBatch := currentBatch + 1 in
  if Nat.ltb currentBatch totalBatches then
    match todo with
    | S todo => deleteEntities todo entities totalBatches currentBatch
                  (log_event (DTimeout timeoutBetweenBatches) w1)
    | O => w1
    end
  else w1.

Inductive deleteAllResult : Type :=
| Success (message : string).

(** [onEntities(data)]; each unit of [fuel] pays for one more query. *)
Fixpoint onEntities (fuel : nat) (entityKind : string) (entities : list Key) (w : world)
    : option (deleteAllResult * world) :=
  match entities with
  | [] => Some (Success ("All " +:+ entityKind +:+ " deleted successfully."), w)
  | _ =>
      match fuel with
      | O => None
      | S fuel =>
          let totalBatches := ceil_div (length entities) maxEntitiesPerBatch in
          let w1 := deleteEntities totalBatches entities totalBatches 0 w in
          let '(entities, w2) := run_query None w1 in
          onEntities fuel entityKind entities w2
      end
  end.

Definition deleteAll (fuel : nat) (entityKind : string) (w : world)
    : option (deleteAllResult * world) :=
  let '(entities, w1) := run_query (Some false) w in
  onEntities fuel entityKind entities w1.

(** The keys of the batch at index [i]. *)
Definition batch_at (entities : list Key) (i : nat) : list Key :=
  take maxEntitiesPerBatch (drop (i * maxEntitiesPerBatch) entities).

(** The sizes of the batches handed to [ds.delete], in order. *)
Definition delete_batch_sizes (log : list deleteEvent) : list nat :=
  omap (λ ev, match ev with DsDelete keys => Some (length keys) | _ => None end) log.
End DeleteAll.

Arguments deleteEvent : clear implicits.
Arguments world : clear implicits.

(** ** Reading and writing at a dotted path (lodash get and set)

    Segments are field names: bracket syntax and array indices are not
    embedded, and arrays, like primitives, are leaves (a write below an
    array leaves it as it is).  Properties inherited from a prototype are
    not seen, and a property whose own name contains a dot is not looked up
    under that name. *)

Section Paths.
Context {Key : Type}.
Abbreviation value := (value Key).

(** The segments of a dotted path; never empty. *)
Fixpoint split_path (path : string) : list string :=
  match path with
  | EmptyString => [EmptyString]
  | String c rest =>
      if Ascii.eqb c "."%char then EmptyString :: split_path rest
      else match split_path rest with
           | segment :: segments => String c segment :: segments
           | [] => [String c EmptyString]
           end
  end.

(** lodash [isObject], within the embedded values. *)
Definition is_container (v : value) : bool :=
  match v with
  | VObject _ _ _ | VArray _ => true
  | _ => false
  end.

(** [get(object, path)] *)
Fixpoint get_path (v : value) (segments : list string) : value :=
  match segments with
  | [] => v
  | k :: rest =>
      match v with
      | VObject _ props _ =>
          match props !! k with
          | Some child => get_path child rest
          | None => VUndefined
          end
      | _ => VUndefined
      end
  end.

(** [set(object, path, x)]: intermediate values that are not objects are
    replaced by fresh objects. *)
Fixpoint set_path (v : value) (segments : list string) (x : value) : value :=
  match segments with
  | [] => v
  | k :: rest =>
      match v with
      | VObject cls props dsKEY =>
          match rest with
          | [] => VObject cls (<[k := x]> props) dsKEY
          | _ =>
              let child := match props !! k with
                           | Some c => if is_container c then c else plain ∅
                           | None => plain ∅
                           end in
              VObject cls (<[k := set_path child rest x]> props) dsKEY
          end
      | _ => v
      end
  end.

(** Does the chain of own properties named by the path exist? *)
Fixpoint path_present (v : value) (segments : list string) : bool :=
  match segments with
  | [] => true
  | k :: rest =>
      match v with
      | VObject _ props _ =>
          match props !! k with
          | Some child => path_present child rest
          | None => false
          end
      | _ => false
      end
  end.
End Paths.

(** ** Model.populate

    The entities handed to populate are all Model instances or all plain
    records.  Reads go through the transaction when one is given and through
    the per-call loader otherwise; the read-through key cache is off, as it
    is unless gstore is configured with one. *)

Section Populate.
Context {Key : Type} `{EqDecision Key}.
Abbreviation value := (value Key).

(** [keyToString] of the cache adapter. *)
Variable keyToString : Key → string.
(** [key.name || key.id] *)
Variable key_ident : Key → value.
(** [new EmbeddedModel(data, ...).plain()] for the model registered under
    the key's kind; it throws when there is none. *)
Variable embedded_plain : Key → gmap string value → result (gmap string value).
(** The backing store: the record under a key, if any. *)
Variable store : Key → option (gmap string value).
(** What a record inherits under a name every object inherits: a method of
    [Object.prototype], or the prototype itself under [__proto__]. *)
Variable inherited_member : string → value.

Record populateRef := PopulateRef {
  ref_path : string;
  ref_select : list string;
}.

(** The store calls a populate makes. *)
Inductive fetchEvent : Type :=
| LoaderGet (keys : list Key)                     (* ds.get(keys), from the loader's batch *)
| TransactionGet (t : txObject) (keys : list Key). (* transaction.get(keys) *)

(** The world of a populate call: the entity data of the roots (mutated in
    place), the loader's cache and the store calls so far. *)
Record populateWorld := PopulateWorld {
  roots : list value;
  loader_cache : gmap string (option (gmap string value));
  fetch_log : list fetchEvent;
}.

Record populateMeta := PopulateMeta {
  keysToFetch : list Key;
  mapKeyToPropAndSelect : gmap string populateRef;
}.

(** [getPopulateMetaForEntity(entity, entityRefs)], run on the entity data:
    a missing value is set to null in place, a value that is not a key
    throws, a key is queued. *)
Fixpoint getPopulateMetaForEntity (entityData : value) (entityRefs : list populateRef)
    (m : populateMeta) : value * result populateMeta :=
  match entityRefs with
  | [] => (entityData, Return m)
  | ref :: rest =>
      let path := split_path (ref_path ref) in
      let key := get_path entityData path in
      if negb (truthy key) then
        getPopulateMetaForEntity (set_path entityData path VNull) rest m
      else
        match key with
        | VObject (Some k) _ _ =>
            getPopulateMetaForEntity entityData rest
              (PopulateMeta (keysToFetch m ++ [k])
                            (<[keyToString k := ref]> (mapKeyToPropAndSelect m)))
        | _ => (entityData,
                Throw (Error ("[gstore] " +:+ ref_path ref +:+
                              " is not a Datastore Key. Reference entity can't be fetched.")))
        end
  end.

(** [entities.map(entity => getPopulateMetaForEntity(entity, entityRefs))];
    a throw leaves the entities after it untouched. *)
Fixpoint collect_meta (entities : list value) (entityRefs : list populateRef)
    : list value * result (list populateMeta) :=
  match entities with
  | [] => ([], Return [])
  | entity :: rest =>
      match getPopulateMetaForEntity entity entityRefs (PopulateMeta [] ∅) with
      | (entity', Throw e) => (entity' :: rest, Throw e)
      | (entity', Return m) =>
          match collect_meta rest entityRefs with
          | (rest', Throw e) => (entity' :: rest', Throw e)
          | (rest', Return ms) => (entity' :: rest', Return (m :: ms))
          end
      end
  end.

(** Modelled from the spec: the per-call batched loader, "a
    load-and-cache-per-key map keyed by stringified key" that fetches all
    the keys queued at a level in one deduplicating load.  [loader_queue]
    is the batch: the keys requested whose string is neither cached nor
    already queued. *)
Fixpoint loader_queue (known : gset string) (keys : list Key) : list Key :=
  match keys with
  | [] => []
  | k :: rest =>
      if decide (keyToString k ∈ known) then loader_queue known rest
      else k :: loader_queue ({[keyToString k]} ∪ known) rest
  end.

(** Modelled from the spec: one level's [loadMany] calls, answered
    together from the cache once the batch is fetched: each requester gets
    a result for each of its keys, null when the store has no record. *)
Definition loader_loadMany (requests : list (list Key))
    (cache : gmap string (option (gmap string value)))
    : list (list (option (gmap string value))) *
      gmap string (option (gmap string value)) * list Key :=
  let queue := loader_queue (dom cache) (concat requests) in
  let cache' := foldl (λ c k, <[keyToString k := store k]> c) cache queue in
  ((λ keys : list Key, (λ k, default None (cache' !! keyToString k)) <$> keys) <$> requests,
   cache', queue).

(** [transaction.get(keys)]: the store answers with the records it finds. *)
Definition transaction_get (keys : list Key) : list (option (gmap string value)) :=
  Some <$> omap store keys.

(** [keysToFetch.length ? this.fetchEntityByKey(keysToFetch, ...) :
    Promise.resolve(null)] *)
Definition response_for (keys : list Key) (answer : list (option (gmap string value)))
    : option (list (option (gmap string value))) :=
  match keys with
  | [] => None
  | _ => Some answer
  end.

(** The entity data while the fetched records are merged into it.  For an
    entity instance the code writes on a shallow copy and assigns it to the
    entity only after a record (not a null) was merged: [working] is the
    copy, [current] what the entity holds, [assigned] whether they are one
    object by now, and [detached] the top-level properties of the copy that
    no longer share their value with the entity's. *)
Record mergeState := MergeState {
  working : value;
  current : value;
  detached : gset string;
  assigned : bool;
}.

Definition top_level (v : value) (k : string) : value := get_path v [k].

(** [set(entityData, path, x)] on the copy, with what the entity sees of it. *)
Definition merge_set (st : mergeState) (path : list string) (x : value) : mergeState :=
  if assigned st then
    MergeState (set_path (working st) path x) (current st) (detached st) true
  else
    match path with
    | [] => st
    | [k] => MergeState (set_path (working st) path x) (current st) ({[k]} ∪ detached st) false
    | k :: _ =>
        if is_container (top_level (working st) k) then
          MergeState (set_path (working st) path x)
                     (if decide (k ∈ detached st) then current st
                      else set_path (current st) path x)
                     (detached st) false
        else
          MergeState (set_path (working st) path x) (current st) ({[k]} ∪ detached st) false
    end.

(** [entity.entityData = entityData] *)
Definition merge_assign (isEntityClass : bool) (st : mergeState) : mergeState :=
  if isEntityClass then MergeState (working st) (current st) (detached st) true else st.

Definition merge_result (st : mergeState) : value :=
  if assigned st then working st else current st.

(** [data[field] || null]: the record's own value when it is truthy, what
    every object inherits under the name when the record has no property of
    its own there, null otherwise. *)
Definition field_or_null (data : gmap string value) (field : string) : value :=
  match data !! field with
  | Some v => if truthy v then v else VNull
  | None => if inherits field then inherited_member field else VNull
  end.

(** The projection of a fetched record: the selected fields when a
    selection other than '*' is asked for, the plain entity otherwise. *)
Definition project (select : list string) (data plain_json : gmap string value)
    : gmap string value :=
  if negb (bool_decide (select = [])) && negb (bool_decide ("*" ∈ select)) then
    foldl (λ acc field, <[field := field_or_null data field]> acc) ∅ select
  else plain_json.

(** [response.forEach(mergeRefEntitiesToEntityData)], from index [i] on. *)
Fixpoint merge_responses (isEntityClass : bool) (m : populateMeta)
    (response : list (option (gmap string value))) (i : nat) (st : mergeState)
    : mergeState * result unit :=
  match response with
  | [] => (st, Return ())
  | data :: rest =>
      match keysToFetch m !! i with
      | None => (st, Throw TypeError)
      | Some key =>
          match mapKeyToPropAndSelect m !! keyToString key with
          | None => (st, Throw TypeError)
          | Some ref =>
              let path := split_path (ref_path ref) in
              match data with
              | None => merge_responses isEntityClass m rest (S i) (merge_set st path VNull)
              | Some record =>
                  match embedded_plain key record with
                  | Throw e => (st, Throw e)
                  | Return plain_json =>
                      let json := project (ref_select ref) record plain_json in
                      let st := merge_set st path (plain (<["id" := key_ident key]> json)) in
                      merge_responses isEntityClass m rest (S i) (merge_assign isEntityClass st)
                  end
              end
          end
      end
  end.

(** [onKeysFetched(response, meta)] for one entity. *)
Definition onKeysFetched (isEntityClass : bool) (entityData : value) (m : populateMeta)
    (response : option (list (option (gmap string value)))) : value * result unit :=
  match response with
  | None => (entityData, Return ())
  | Some items =>
      let st := MergeState entityData entityData ∅ (negb isEntityClass) in
      let '(st', r) := merge_responses isEntityClass m items 0 st in
      (merge_result st', r)
  end.

(** [result.forEach((res, i) => onKeysFetched(res, meta[i]))] *)
Fixpoint merge_all (isEntityClass : bool) (entities : list value) (metas : list populateMeta)
    (responses : list (option (list (option (gmap string value))))) : list value * result unit :=
  match entities, metas, responses with
  | entity :: entities, m :: metas, response :: responses =>
      match onKeysFetched isEntityClass entity m response with
      | (entity', Throw e) => (entity' :: entities, Throw e)
      | (entity', Return _) =>
          let '(rest, r) := merge_all isEntityClass entities metas responses in
          (entity' :: rest, r)
      end
  | _, _, _ => (entities, Return ())
  end.

(** The [options] of populate that the fetch depends on. *)
Record populateOptions := PopulateOptions {
  p_transaction : option txObject;
  p_isEntityClass : bool;        (* the entities are Model instances *)
}.

(** [fetchRefsEntitiesRefsAtLevel(entityRefs)] *)
Definition fetchRefsEntitiesRefsAtLevel (o : populateOptions) (entityRefs : list populateRef)
    : promise (W := populateWorld) unit :=
  λ w,
    match collect_meta (roots w) entityRefs with
    | (entities, Throw e) => (Throw e, PopulateWorld entities (loader_cache w) (fetch_log w))
    | (entities, Return metas) =>
        let requests := keysToFetch <$> metas in
        match p_transaction o with
        | Some t =>
            if not_a_Transaction t && bool_decide (Exists (λ keys, keys ≠ []) requests) then
              (Throw wrong_transaction, PopulateWorld entities (loader_cache w) (fetch_log w))
            else
              let responses := (λ keys, response_for keys (transaction_get keys)) <$> requests in
              let events := TransactionGet t <$> filter (λ keys, keys ≠ []) requests in
              let '(entities', r) := merge_all (p_isEntityClass o) entities metas responses in
              (r, PopulateWorld entities' (loader_cache w) (fetch_log w ++ events))
        | None =>
            let '(answers, cache', queue) := loader_loadMany requests (loader_cache w) in
            let responses := zip_with response_for requests answers in
            let log' := match queue with
                        | [] => fetch_log w
                        | _ => fetch_log w ++ [LoaderGet queue]
                        end in
            let '(entities', r) := merge_all (p_isEntityClass o) entities metas responses in
            (r, PopulateWorld entities' cache' log')
        end
    end.

(** [Model.populate(refs, options)(entities)]: the levels in series. *)
Fixpoint populate (o : populateOptions) (refs : list (list populateRef))
    : promise (W := populateWorld) unit :=
  match refs with
  | [] => resolve ()
  | entityRefs :: rest =>
      then_ (fetchRefsEntitiesRefsAtLevel o entityRefs) (λ _, populate o rest)
  end.

End Populate.

Arguments populateWorld : clear implicits.
Arguments fetchEvent : clear implicits.

(** *** Vocabulary and sample data for populate *)

Section PopulateSpec.
Context {Key : Type} `{EqDecision Key}.

(** The field holds no key: it is absent, undefined or null. *)
Definition no_key (v : option (value Key)) : Prop :=
  v = None ∨ v = Some VUndefined ∨ v = Some VNull.

(** The key a value is, when it is a Key instance. *)
Definition held_key (v : value Key) : option Key :=
  match v with
  | VObject (Some k) _ _ => Some k
  | _ => None
  end.


End PopulateSpec.

Module PopulateSamples.
(** Keys named by their string. *)
Definition paris : string := "Address/1".
Definition key_object (k : string) : value string := VObject (Some k) ∅ None.

(** A store holding one address. *)
Definition one_address (k : string) : option (gmap string (value string)) :=
  if String.eqb k paris then Some {[ "city" := VString "Paris" ]} else None.

Definition as_is (k : string) (data : gmap string (value string))
    : result (gmap string (value string)) := Return data.

(** A stand-in for the methods a record inherits. *)
Definition a_method (name : string) : value string := VObject None ∅ None.

(** Two users whose address is the same key, and a user with none. *)
Definition user1 : value string :=
  plain (<["name" := VString "Ann"]> {[ "address" := key_object paris ]}).
Definition homeless : value string := plain {[ "name" := VString "Cid" ]}.


Definition address_ref : populateRef := PopulateRef "address" ["*"].
Definition addressBook_ref : populateRef := PopulateRef "address.addressBook" ["*"].

Definition with_loader : populateOptions := PopulateOptions None false.

Definition run (o : populateOptions) (refs : list (list populateRef))
    (entities : list (value string)) : result unit * populateWorld string :=
  populate (λ k, k) VString as_is one_address a_method o refs (PopulateWorld entities ∅ []).
End PopulateSamples.

(** *** Vocabulary of the statements about the loader path *)

Section PopulateVocabulary.
Context {Key : Type} `{EqDecision Key}.
Variable keyToString : Key → string.
Variable key_ident : Key → value Key.
Variable embedded_plain : Key → gmap string (value Key) → result (gmap string (value Key)).
Variable store : Key → option (gmap string (value Key)).
Variable inherited_member : string → value Key.



End PopulateVocabulary.


(** *** Vocabulary of the statements about a level of populate *)

Section PopulateLevels.
Context {Key : Type} `{EqDecision Key}.
Variable keyToString : Key → string.
Variable key_ident : Key → value Key.
Variable embedded_plain : Key → gmap string (value Key) → result (gmap string (value Key)).
Variable store : Key → option (gmap string (value Key)).
Variable inherited_member : string → value Key.








End PopulateLevels.


(** *** Vocabulary of the statements about deleteAll *)

Section DeleteAllVocabulary.
Context {Key : Type}.

(** No call to [ds.delete] logged so far carried more keys than a batch
    may hold. *)
Definition batches_bounded (w : world Key) : Prop :=
  Forall (λ n, (n ≤ maxEntitiesPerBatch)%nat) (delete_batch_sizes (w_log w)).
End DeleteAllVocabulary.


(** *** Vocabulary of the statements about update *)

Section UpdateVocabulary.
Context {Key : Type}.

(** The event opens a transaction or reads from the store. *)
Definition reads_or_opens (ev : event Key) : bool :=
  match ev with
  | EvTransaction _ | EvRun _ | EvGet _ _ => true
  | _ => false
  end.

(** What a write carries: the key and the data of the entity saved. *)
Definition saved (ev : event Key) : option (option Key * gmap string (value Key)) :=
  match ev with
  | EvTxSave _ key data | EvDsSave key data => Some (key, data)
  | _ => None
  end.

(** How a transaction was ended. *)
Inductive ending : Type :=
| Committed (t : txObject)
| RolledBack (t : txObject).

Definition transaction_ending (ev : event Key) : option ending :=
  match ev with
  | EvCommit t => Some (Committed t)
  | EvRollback t => Some (RolledBack t)
  | _ => None
  end.
End UpdateVocabulary.


(** *** Vocabulary shared by the further properties *)

Section ValuesVocabulary.
Context {Key : Type}.

(** The own string-keyed properties of a value; none for a primitive. *)
Definition own_properties (v : value Key) : gmap string (value Key) :=
  match v with
  | VObject _ props _ => props
  | _ => ∅
  end.

(** What a fulfilled call answered, if it was fulfilled. *)
Definition returned {A} (r : result A) : option A :=
  match r with
  | Return a => Some a
  | Throw _ => None
  end.
End ValuesVocabulary.


(** ** Model.key, Model.delete and Model.get (src/model.ts) *)

Module KeyTs.

(** The [ids] argument of [Model.key]. *)
Inductive idsArg : Type :=
| IdsAbsent                                             (* undefined or null *)
| IdsOne (id : EntityKey.pathElement)                   (* one id, a string or a number *)
| IdsArray (ids : list (option EntityKey.pathElement)). (* an array; [None] is a null or
                                                           undefined element *)

(** What [Model.key] answers: one key, an array of keys, or undefined. *)
Inductive keys : Type :=
| NoKey
| OneKey (k : EntityKey.dsKey)
| ManyKeys (ks : list EntityKey.dsKey).

(** [arrify(ids)], for [ids] neither undefined nor null. *)
Definition arrify_ids (ids : idsArg) : list (option EntityKey.pathElement) :=
  match ids with
  | IdsAbsent => []
  | IdsOne id => [Some id]
  | IdsArray l => l
  end.

Section Key.
Variable entityKind : string.
(** [ancestors], when it is an array; [namespace], when it is neither
    undefined nor null (the empty string is passed on). *)
Variable ancestors : option (list EntityKey.pathElement).
Variable namespace : option string.

Definition getPath (id : option EntityKey.pathElement) : list EntityKey.pathElement :=
  let path := EntityKey.PString entityKind :: match id with Some i => [i] | None => [] end in
  match ancestors with
  | Some anc => anc ++ path
  | None => path
  end.

Definition getKey (id : option EntityKey.pathElement) : EntityKey.dsKey :=
  EntityKey.DsKey namespace (getPath id).

(** [Model.key(ids, ancestors, namespace)] *)
Definition key (ids : idsArg) : keys :=
  match ids with
  | IdsAbsent => OneKey (getKey None)
  | _ =>
      let ids := arrify_ids ids in
      let isMultiple := Nat.ltb 1 (length ids) in
      let keys := getKey <$> ids in
      if isMultiple then ManyKeys keys
      else match keys with
           | k :: _ => OneKey k
           | [] => NoKey
           end
  end.
End Key.
End KeyTs.

Module DeleteTs.
Section Delete.
Context {Key : Type}.

(** The calls that reach a collaborator during a delete; [key] is what was
    passed on, one key or an array. *)
Inductive deleteCall : Type :=
| CallHooksTransaction (t : txObject)         (* this.hooksTransaction(transaction, posts) *)
| CallTxDelete (t : txObject) (key : Key)     (* transaction.delete(key) *)
| CallDsDelete (key : Key)                    (* ds.delete(key) *)
| CallLoaderClear (key : Key)                 (* options.dataloader.clear(key) *)
| CallClearCache (key : Key) (clearQueries : option bool).
                                              (* Model.clearCache(key, options.clearQueries) *)

(** The first element of what [ds.delete] resolves with. *)
Record commitResponse := CommitResponse {
  indexUpdates : option Z;
}.

(** The collaborators, as a test double. *)
Record deleteEnv := DeleteEnv {
  ds_delete : result (option (list commitResponse));   (* [None]: a falsy answer *)
  del_gstore_cache : option cacheConfig;
  del_cache_clear : result unit;
}.

Record deleteOptions := DeleteOptions {
  del_dataloader : bool;              (* a dataloader was passed *)
  del_clearQueries : option bool;
  del_cache : option bool;
}.

(** What delete resolves with outside a transaction. *)
Record deleteResponse := DeleteResponse {
  resp_key : Key;
  resp_indexUpdates : option Z;
  resp_success : option bool;
}.

Variable E : deleteEnv.

Definition dcall {A} (c : deleteCall) (answer : result A) : promise (W := list deleteCall) A :=
  λ log, (answer, log ++ [c]).

(** [Model.__hasCache(options)] *)
Definition hasCache (opt_cache : option bool) : bool :=
  match del_gstore_cache E with
  | None => false
  | Some c =>
      match opt_cache with
      | Some b => b
      | None => negb (cache_global_off c) && negb (cache_ttl_keys_off c)
      end
  end.

(** [onDelete(results)] *)
Definition onDelete (key : Key) (o : deleteOptions) (results : option (list commitResponse))
    : promise (W := list deleteCall) deleteResponse :=
  let finish (updates : option Z) :=
    let response :=
      DeleteResponse key updates ((λ n, Z.ltb 0 n) <$> updates) in
    then_ (if del_dataloader o then dcall (CallLoaderClear key) (Return ()) else resolve ())
      (λ _, if hasCache (del_cache o)
            then then2 (dcall (CallClearCache key (del_clearQueries o)) (del_cache_clear E))
                       (λ _, resolve response)
                       (λ err, reject (CacheError err))
            else resolve response) in
  match results with
  | None => finish None
  | Some [] => reject TypeError            (* response is undefined *)
  | Some (response :: _) => finish (indexUpdates response)
  end.

(** [Model.delete(id, ancestors, namespace, transaction, key, options)],
    with [key] the key passed or, without one, derived from the id. *)
Definition delete (key : Key) (transaction : option txObject) (o : deleteOptions)
    : promise (W := list deleteCall) (option deleteResponse) :=
  match transaction with
  | Some t =>
      if not_a_Transaction t then reject wrong_transaction
      else then_ (dcall (CallHooksTransaction t) (Return ()))
                 (λ _, then_ (dcall (CallTxDelete t key) (Return ())) (λ _, resolve None))
  | None =>
      then_ (then_ (dcall (CallDsDelete key) (ds_delete E)) (onDelete key o))
            (λ response, resolve (Some response))
  end.
End Delete.
End DeleteTs.

Arguments DeleteTs.deleteCall : clear implicits.
Arguments DeleteTs.deleteResponse : clear implicits.
Module GetTs.
Section Get.
Abbreviation Key := EntityKey.dsKey.
Abbreviation value := (value Key).

(** A fetched record: its properties and its [ds.KEY]. *)
Definition record : Type := gmap string value * option Key.

(** The store calls a get makes, each with the keys it passes. *)
Inductive getCall : Type :=
| CallTxGet (t : txObject) (keys : list Key)      (* transaction.get(keys) *)
| CallLoadMany (keys : list Key)                  (* dataloader.loadMany(keys) *)
| CallDsGet (keys : list Key)                     (* ds.get(keys) *)
| CallCacheRead (keys : KeyTs.keys).              (* gstore.cache.keys.read(key, options, handler) *)

(** The collaborators, as a test double: each answer is what the call
    resolves with once arrified, an absent entry being undefined or null. *)
Record getEnv := GetEnv {
  transaction_get : list Key → result (list (option record));
  dataloader_loadMany : list Key → result (list (option record));
  ds_get : list Key → result (list (option record));
  cache_read : KeyTs.keys → result (list (option record));
  get_gstore_cache : option cacheConfig;
  errorOnEntityNotFound : bool;              (* gstore.config.errorOnEntityNotFound *)
}.

Record getOptions := GetOptions {
  preserveOrder : bool;
  get_dataloader : option string;     (* the dataloader's constructor.name, when one is passed *)
  get_cache : option bool;
}.

(** The entity instance made from a fetched record. *)
Record fetchedEntity := FetchedEntity {
  fe_key : Key;
  fe_data : gmap string value;
}.

(** What get resolves with. *)
Inductive getResult : Type :=
| GotNull                                            (* null *)
| GotOne (entity : option (option fetchedEntity))    (* entity[0]: undefined, null, or an entity *)
| GotMany (entities : list (option fetchedEntity)).

Variable E : getEnv.
Variable entityKind : string.
Variable schema_options : option schemaOptions.
Variable isFinite : string → bool.
(** The entity constructor's [buildEntityData]. *)
Variable buildEntityData : gmap string value → gmap string value.
(** [id.indexOf(entity.entityKey.id)], as a function of the entity. *)
Variable position : fetchedEntity → Z.

Definition gcall {A} (c : getCall) (answer : result A) : promise (W := list getCall) A :=
  λ log, (answer, log ++ [c]).

(** [Model.__hasCache(options)] *)
Definition hasCache (opt_cache : option bool) : bool :=
  match get_gstore_cache E with
  | None => false
  | Some c =>
      match opt_cache with
      | Some b => b
      | None => negb (cache_global_off c) && negb (cache_ttl_keys_off c)
      end
  end.

(** [arrify(_keys)] *)
Definition arrify_keys (key : KeyTs.keys) : list Key :=
  match key with
  | KeyTs.NoKey => []
  | KeyTs.OneKey k => [k]
  | KeyTs.ManyKeys ks => ks
  end.

(** The [handler] of fetchEntityByKey: the transaction first, then the
    dataloader, then the store. *)
Definition handler (transaction : option txObject) (dataloader : option string)
    (key : KeyTs.keys) : promise (W := list getCall) (list (option record)) :=
  let keys := arrify_keys key in
  match transaction with
  | Some t =>
      if not_a_Transaction t then reject wrong_transaction
      else gcall (CallTxGet t keys) (transaction_get E keys)
  | None =>
      match dataloader with
      | Some name =>
          if negb (String.eqb name "DataLoader") then reject (GstoreError "ERR_GENERIC")
          else gcall (CallLoadMany keys) (dataloader_loadMany E keys)
      | None => gcall (CallDsGet keys) (ds_get E keys)
      end
  end.

(** [Model.fetchEntityByKey(key, transaction, dataloader, options)]; with the
    cache on, the read goes to the cache, which is handed the handler for
    what it misses (its answer is that of the test double). *)
Definition fetchEntityByKey (key : KeyTs.keys) (transaction : option txObject)
    (dataloader : option string) (opt_cache : option bool)
    : promise (W := list getCall) (list (option record)) :=
  if hasCache opt_cache then
    let key := match key with KeyTs.ManyKeys [k] => KeyTs.OneKey k | _ => key end in
    gcall (CallCacheRead key) (cache_read E key)
  else handler transaction dataloader key.

(** [this.__model(data, null, null, null, data[ds.KEY])] *)
Definition model_of (data : record) : result fetchedEntity :=
  match EntityKey.constructor_entityKey isFinite entityKind schema_options
          EntityKey.IdAbsent None None data.2 with
  | Return k => Return (FetchedEntity k (buildEntityData data.1))
  | Throw e => Throw e
  end.

(** [entityData.map(data => ...)]: null for a missing record. *)
Fixpoint to_entities (entityData : list (option record))
    : result (list (option fetchedEntity)) :=
  match entityData with
  | [] => Return []
  | None :: rest =>
      match to_entities rest with
      | Return l => Return (None :: l)
      | Throw e => Throw e
      end
  | Some data :: rest =>
      match model_of data with
      | Throw e => Throw e
      | Return entity =>
          match to_entities rest with
          | Return l => Return (Some entity :: l)
          | Throw e => Throw e
          end
      end
  end.

(** [entity.sort((a, b) => position(a) - position(b))]: the sort is
    stable, so that entities at the same position keep their order. *)
Fixpoint insert_sorted (x : fetchedEntity) (l : list fetchedEntity) : list fetchedEntity :=
  match l with
  | [] => [x]
  | y :: rest =>
      if (position y <? position x)%Z then y :: insert_sorted x rest
      else x :: l
  end.

Definition sort_by_position (l : list fetchedEntity) : list fetchedEntity :=
  foldr insert_sorted [] l.

(** [onEntity(entityDataFetched)]; [ids] is [arrify(id)] and [isArray]
    tells whether [id] was an array. *)
Definition onEntity (ids : list (option EntityKey.pathElement)) (isArray : bool)
    (o : getOptions) (entityData : list (option record))
    : promise (W := list getCall) getResult :=
  if Nat.eqb (length ids) 1 &&
     match entityData with
     | [] | None :: _ => true
     | Some _ :: _ => false
     end
  then
    if errorOnEntityNotFound E then
      match ids with
      | Some _ :: _ => reject (GstoreError "ERR_ENTITY_NOT_FOUND")
      | _ => reject TypeError           (* ids[0].toString() on null *)
      end
    else resolve GotNull
  else
    match to_entities entityData with
    | Throw e => reject e
    | Return entity =>
        let entity :=
          if isArray && preserveOrder o && forallb (λ e, bool_decide (is_Some e)) entity
          then Some <$> sort_by_position (omap id entity)
          else entity in
        resolve (if isArray then GotMany entity else GotOne (head entity))
    end.

(** [Model.get(id, ancestors, namespace, transaction, options)], before any
    populate is chained to it. *)
Definition get (id : KeyTs.idsArg) (ancestors : option (list EntityKey.pathElement))
    (namespace : option string) (transaction : option txObject) (o : getOptions)
    : promise (W := list getCall) getResult :=
  let ids := KeyTs.arrify_ids id in
  let key := KeyTs.key entityKind ancestors namespace (KeyTs.IdsArray ids) in
  let isArray := match id with KeyTs.IdsArray _ => true | _ => false end in
  then_ (fetchEntityByKey key transaction (get_dataloader o) (get_cache o))
        (onEntity ids isArray o).
End Get.
End GetTs.
(** *** Vocabulary of the statements about get *)

Section GetVocabulary.
Variable entityKind : string.
Variable buildEntityData : gmap string (value EntityKey.dsKey) → gmap string (value EntityKey.dsKey).

(** The entity instance of a fetched record: under the record's key, or,
    for a record that came without one, under the incomplete key of the
    kind. *)
Definition entity_of (data : GetTs.record) : GetTs.fetchedEntity :=
  GetTs.FetchedEntity (default (EntityKey.DsKey None [EntityKey.PString entityKind]) data.2)
                      (buildEntityData data.1).
End GetVocabulary.
Module GetSamples.
(** A store answering every read with nothing, gstore configured to
    report entities that are not found. *)
Definition empty_store : GetTs.getEnv :=
  GetTs.GetEnv (λ _, Return []) (λ _, Return []) (λ _, Return []) (λ _, Return []) None true.

Definition user_key (id : Z) : EntityKey.dsKey :=
  EntityKey.DsKey None [EntityKey.PString "User"; EntityKey.PNumber id].

(** A store answering every read with the users 2 and 1, in this order. *)
Definition two_users : list GetTs.record :=
  [({[ "name" := VString "Bob" ]}, Some (user_key 2));
   ({[ "name" := VString "Ann" ]}, Some (user_key 1))].

Definition store_of_two : GetTs.getEnv :=
  GetTs.GetEnv (λ _, Return (Some <$> two_users)) (λ _, Return (Some <$> two_users))
               (λ _, Return (Some <$> two_users)) (λ _, Return (Some <$> two_users)) None true.

(** [[1, 2].indexOf(entity.entityKey.id)] *)
Definition position_in_1_2 (entity : GetTs.fetchedEntity) : Z :=
  match last (EntityKey.key_path (GetTs.fe_key entity)) with
  | Some (EntityKey.PNumber 1) => 0
  | Some (EntityKey.PNumber 2) => 1
  | _ => -1
  end.

Definition options (preserveOrder : bool) : GetTs.getOptions :=
  GetTs.GetOptions preserveOrder None None.
End GetSamples.


(** ** Query helpers (src/helpers/queryhelpers.ts) *)

Module QueryHelpers.
Section Build.
Context {Key : Type}.
Abbreviation value := (value Key).

(** One element of a filter: a value, or a function to be called for the
    value (its answer is what is kept of it). *)
Inductive filterArg : Type :=
| FValue (v : value)
| FFunction (returns : value).

(** The [filters] option. *)
Inductive filtersArg : Type :=
| FiltersAbsent                                   (* undefined, or any falsy value *)
| FiltersNotArray                                 (* a truthy value that is not an array *)
| FiltersFlat (property : string) (rest : list filterArg)
                                                  (* one filter, given as it is: its first
                                                     element is not an array *)
| FiltersNested (filters : list (list filterArg)).  (* an array of filters, or the empty array *)

(** One [order] setting; [descending] is [None] when the object has no such
    property. *)
Record orderSetting := OrderSetting {
  property : string;
  descending : option bool;
}.

(** The [order] option: absent, one setting, or an array of them. *)
Inductive orderArg : Type :=
| OrderAbsent
| OrderOne (o : orderSetting)
| OrderMany (os : list orderSetting).

Record queryListOptions := QueryListOptions {
  qo_limit : value;
  qo_offset : value;
  qo_order : orderArg;
  qo_select : value;
  qo_ancestors : option (list EntityKey.pathElement);   (* [None]: absent *)
  qo_namespace : option string;
  qo_filters : filtersArg;
  qo_start : value;
}.

(** The calls made on the query object. *)
Inductive queryCall : Type :=
| QLimit (n : value)
| QOffset (n : value)
| QOrder (property : string) (descending : bool)
| QSelect (fields : value)
| QHasAncestor (key : EntityKey.dsKey)
| QFilter (args : list filterArg)
| QStart (cursor : value).

(** The query object: its [constructor.name] and the calls it received. *)
Record queryObject := QueryObject {
  q_constructor : string;
  q_calls : list queryCall;
}.

Definition qcall (c : queryCall) : promise (W := list queryCall) unit :=
  λ calls, (Return (), calls ++ [c]).

Definition when (b : bool) (p : promise (W := list queryCall) unit)
    : promise (W := list queryCall) unit :=
  if b then p else resolve ().

(** [arrify(options.order)] *)
Definition arrify_order (o : orderArg) : list orderSetting :=
  match o with
  | OrderAbsent => []
  | OrderOne s => [s]
  | OrderMany l => l
  end.

Fixpoint for_each {A} (f : A → promise (W := list queryCall) unit) (l : list A)
    : promise (W := list queryCall) unit :=
  match l with
  | [] => resolve ()
  | x :: rest => then_ (f x) (λ _, for_each f rest)
  end.

(** The body of [options.filters.forEach(filter => ...)]: the last element
    is called when it is a function, and the filter is applied. *)
Definition apply_filter (filter : list filterArg) : promise (W := list queryCall) unit :=
  let value := match last filter with
               | Some (FFunction returns) => FValue returns
               | Some v => v
               | None => FValue VUndefined
               end in
  qcall (QFilter (removelast filter ++ [value])).

(** [!ds || ds.constructor.name !== 'Datastore'], [ds] given by its
    [constructor.name] when there is one *)
Definition no_Datastore (ds : option string) : bool :=
  match ds with
  | Some name => negb (String.eqb name "Datastore")
  | None => true
  end.

(** The options applied one after the other to the query. *)
Definition apply_options (o : queryListOptions) (ds : option string)
    : promise (W := list queryCall) unit :=
  then_ (when (truthy (qo_limit o)) (qcall (QLimit (qo_limit o)))) (λ _,
  then_ (when (truthy (qo_offset o)) (qcall (QOffset (qo_offset o)))) (λ _,
  then_ (match qo_order o with
         | OrderAbsent => resolve ()
         | order => for_each (λ order, qcall (QOrder (property order)
                                                     (default false (descending order))))
                             (arrify_order order)
         end) (λ _,
  then_ (when (truthy (qo_select o)) (qcall (QSelect (qo_select o)))) (λ _,
  then_ (match qo_ancestors o with
         | None => resolve ()
         | Some ancestors =>
             if no_Datastore ds then reject (Error "Datastore instance not passed")
             else qcall (QHasAncestor
                           (EntityKey.DsKey (EntityKey.namespace_given (qo_namespace o))
                                            ancestors))
         end) (λ _,
  then_ (match qo_filters o with
         | FiltersAbsent => resolve ()
         | FiltersNotArray => reject (Error "Wrong format for filters option")
         | filters =>
             let filters := match filters with
                            | FiltersFlat property rest => [FValue (VString property) :: rest]
                            | FiltersNested [] => [[]]
                            | FiltersNested l => l
                            | _ => []
                            end in
             when (Nat.ltb 1 (length (default [] (head filters))))
                  (for_each apply_filter filters)
         end) (λ _,
  when (truthy (qo_start o)) (qcall (QStart (qo_start o))))))))).

(** [buildQueryFromOptions(query, options, ds)]: the outcome, and the query
    object as the call leaves it.  [options] is [None] for anything that is
    not an object.  (A filter given flat is also wrapped in place, in the
    options object; nothing reads it again.) *)
Definition buildQueryFromOptions (query : option queryObject)
    (options : option queryListOptions) (ds : option string)
    : result unit * option queryObject :=
  match query with
  | None => (Throw (Error "Query not passed"), None)
  | Some q =>
      if negb (String.eqb (q_constructor q) "Query")
      then (Throw (Error "Query not passed"), Some q)
      else match options with
           | None => (Return (), Some q)
           | Some o =>
               let '(r, calls) := apply_options o ds (q_calls q) in
               (r, Some (QueryObject (q_constructor q) calls))
           end
  end.

(** The place of a call in the order in which the options are read. *)
Definition rank (c : queryCall) : nat :=
  match c with
  | QLimit _ => 0
  | QOffset _ => 1
  | QOrder _ _ => 2
  | QSelect _ => 3
  | QHasAncestor _ => 4
  | QFilter _ => 5
  | QStart _ => 6
  end.
End Build.

End QueryHelpers.

Arguments QueryHelpers.queryCall : clear implicits.
Arguments QueryHelpers.queryObject : clear implicits.
Arguments QueryHelpers.queryListOptions : clear implicits.
Arguments QueryHelpers.filterArg : clear implicits.
Arguments QueryHelpers.filtersArg : clear implicits.
(** *** Vocabulary of the statements about the query helpers *)

Section QueryHelpersVocabulary.
Context {Key : Type}.

(** The computation only adds calls, all of rank between [lo] and [hi], in
    the order of their ranks. *)
Definition ranked (lo hi : nat)
    (p : promise (W := list (QueryHelpers.queryCall Key)) unit) : Prop :=
  ∀ w, ∃ added, (p w).2 = w ++ added ∧
                Forall (λ c, lo ≤ QueryHelpers.rank c ≤ hi)%nat added ∧
                StronglySorted le (QueryHelpers.rank <$> added).

(** The arguments of the calls to [query.filter], in order. *)
Definition filter_calls (calls : list (QueryHelpers.queryCall Key))
    : list (list (QueryHelpers.filterArg Key)) :=
  omap (λ c, match c with QueryHelpers.QFilter args => Some args | _ => None end) calls.

(** A filter as it reaches the query: its last element is a value, the
    answer of the function when a function was given. *)
Definition evaluated (filter : list (QueryHelpers.filterArg Key))
    : list (QueryHelpers.filterArg Key) :=
  removelast filter ++
  [match last filter with
   | Some (QueryHelpers.FFunction returns) => QueryHelpers.FValue returns
   | Some v => v
   | None => QueryHelpers.FValue VUndefined
   end].

(** The options with everything from [ancestors] on left out. *)
Definition up_to_select (o : QueryHelpers.queryListOptions Key)
    : QueryHelpers.queryListOptions Key :=
  QueryHelpers.QueryListOptions (QueryHelpers.qo_limit o) (QueryHelpers.qo_offset o)
    (QueryHelpers.qo_order o) (QueryHelpers.qo_select o) None (QueryHelpers.qo_namespace o)
    QueryHelpers.FiltersAbsent VUndefined.
End QueryHelpersVocabulary.

Section QueryHelpersRuns.
Context {Key : Type}.

(** The calls a fresh query has received after buildQueryFromOptions. *)
Definition calls_on_fresh_query (o : QueryHelpers.queryListOptions Key) (ds : option string)
    : list (QueryHelpers.queryCall Key) :=
  match (QueryHelpers.buildQueryFromOptions (Some (QueryHelpers.QueryObject "Query" []))
           (Some o) ds).2 with
  | Some q => QueryHelpers.q_calls q
  | None => []
  end.
End QueryHelpersRuns.

Module QuerySamples.
(** [{ limit: 10, order: { property: 'name' }, ancestors: ['Company', 5],
       filters: ['age', '>', () => 18] }] *)
Definition adults : QueryHelpers.queryListOptions string :=
  QueryHelpers.QueryListOptions (VNumber 10) VUndefined
    (QueryHelpers.OrderOne (QueryHelpers.OrderSetting "name" None)) VUndefined
    (Some [EntityKey.PString "Company"; EntityKey.PNumber 5]) None
    (QueryHelpers.FiltersFlat "age" [QueryHelpers.FValue (VString ">");
                                     QueryHelpers.FFunction (VNumber 18)])
    VUndefined.
End QuerySamples.


(** ** Schema (src/schema.ts) *)

Module SchemaTs.

(** [RESERVED_PROPERTY_NAMES] *)
Definition RESERVED_PROPERTY_NAMES : list string :=
  ["_events"; "_eventsCount"; "_lazySetupHooks"; "_maxListeners"; "_posts"; "_pres";
   "className"; "constructor"; "delete"; "domain"; "ds"; "emit"; "entityData"; "entityKey";
   "errors"; "excludeFromIndexes"; "get"; "getEntityDataWithVirtuals"; "gstore"; "hook";
   "init"; "isModified"; "isNew"; "listeners"; "model"; "modelName"; "on"; "once"; "plain";
   "post"; "pre"; "removeListener"; "removePost"; "removePre"; "save"; "schema"; "set";
   "toObject"; "update"; "validate"].

(** [IS_QUERY_METHOD] *)
Definition IS_QUERY_METHOD : list string := ["update"; "delete"; "findOne"].

(** What every object literal inherits from [Object.prototype]: a lookup
    [table[name]] finds these too, each a truthy value. *)
Definition object_prototype_names : list string := inherited_names.

(** [RESERVED_PROPERTY_NAMES[name]], as a condition *)
Definition is_reserved (name : string) : bool :=
  bool_decide (name ∈ RESERVED_PROPERTY_NAMES) || bool_decide (name ∈ object_prototype_names).

(** [IS_QUERY_METHOD[method]], as a condition *)
Definition is_query_method (method : string) : bool :=
  bool_decide (method ∈ IS_QUERY_METHOD) || bool_decide (method ∈ object_prototype_names).

Section Options.
Context {Key : Type}.

(** The [options] of a Joi configuration object, as given. *)
Record joiOptionsArg := JoiOptionsArg {
  given_allowUnknown : option bool;
  given_stripUnknown : option bool;
}.

(** The [joi] option, as given. *)
Inductive joiArg : Type :=
| JoiOff                                       (* undefined, false, or another falsy value *)
| JoiOn                                        (* true, or a truthy value that is not an object *)
| JoiConfig (options : option joiOptionsArg).  (* a configuration object *)

(** The options passed to the constructor; [None] is a property left
    undefined. *)
Record providedOptions := ProvidedOptions {
  given_validateBeforeSave : option bool;
  given_explicitOnly : option bool;
  given_keyType : option string;
  given_joi : joiArg;
}.

(** [Schema.initSchemaOptions(provided)]: the options of the schema and,
    when Joi is on, the two Joi options [allowUnknown] and [stripUnknown]. *)
Definition initSchemaOptions (provided : option providedOptions)
    : schemaOptions * option (bool * bool) :=
  let explicitOnly := default true (provided ≫= given_explicitOnly) in
  let validateBeforeSave := default true (provided ≫= given_validateBeforeSave) in
  let options := SchemaOptions (Some explicitOnly) validateBeforeSave
                               (provided ≫= given_keyType) in
  let joiOptionsDefault := negb explicitOnly in             (* explicitOnly !== true *)
  let joi :=
    match provided with
    | None => None
    | Some p =>
        match given_joi p with
        | JoiOff => None
        | JoiOn => Some (joiOptionsDefault, None)
        | JoiConfig None => Some (joiOptionsDefault, None)
        | JoiConfig (Some o) =>
            Some (default joiOptionsDefault (given_allowUnknown o), given_stripUnknown o)
        end
    end in
  (options,
   (λ '(allowUnknown, stripUnknown), (allowUnknown, default (negb allowUnknown) stripUnknown))
     <$> joi).

(** What Joi makes of the path definitions: the schema's [validate]. *)
Variable joi_validate_of : list (string * pathConfig) → value Key → bool * gmap string (value Key).

(** The loop of the constructor over [Object.entries(properties)]. *)
Fixpoint add_paths (properties : list (string * pathConfig)) (paths : gmap string pathConfig)
    : result (gmap string pathConfig) :=
  match properties with
  | [] => Return paths
  | (key, definition) :: rest =>
      if is_reserved key
      then Throw (Error (key +:+ " is reserved and can not be used as a schema pathname"))
      else add_paths rest (<[key := definition]> paths)
  end.

(** [new Schema(properties, options)], as the Model reads it. *)
Definition new_Schema (properties : list (string * pathConfig))
    (provided : option providedOptions) : result (schema Key) :=
  let '(options, joi) := initSchemaOptions provided in
  match add_paths properties ∅ with
  | Throw e => Throw e
  | Return paths =>
      Return (Schema paths options
                ((λ '(allowUnknown, stripUnknown),
                    JoiSchema (joi_validate_of properties) allowUnknown stripUnknown) <$> joi)
                None)
  end.
End Options.

Section Paths.
(** A path definition, an object. *)
Context {D : Type}.

(** What [schema.path(...)] answers. *)
Inductive pathAnswer : Type :=
| PathSchema                      (* the schema itself, after a definition was set *)
| PathDefinition (d : D)          (* the definition of the path *)
| PathInherited (name : string)   (* what the paths object inherits under that name *)
| PathUndefined.

(** [schema.path(propName, definition)] on the paths of the schema. *)
Definition path (paths : gmap string D) (propName : string) (definition : option D)
    : result pathAnswer * gmap string D :=
  match definition with
  | None =>
      (Return (match paths !! propName with
               | Some d => PathDefinition d
               | None =>
                   if bool_decide (propName ∈ object_prototype_names)
                   then PathInherited propName
                   else PathUndefined
               end), paths)
  | Some d =>
      if is_reserved propName
      then (Throw (Error (propName +:+ " is reserved and can not be used as a schema pathname")),
            paths)
      else (Return PathSchema, <[propName := d]> paths)
  end.
End Paths.

Section Hooks.
(** A middleware function. *)
Context {H : Type}.

Record hooks := Hooks {
  pres : list H;
  post : list H;
}.

(** One of the two objects of [schema.__callQueue]: the methods that have
    hooks, in the order in which they got their first one. *)
Definition queue : Type := list (string * hooks).

Record callQueue := CallQueue {
  cq_model : queue;
  cq_entity : queue;
}.

(** [queue[method]], for a method that has hooks. *)
Fixpoint queue_lookup (q : queue) (method : string) : option hooks :=
  match q with
  | [] => None
  | (m, h) :: rest => if String.eqb m method then Some h else queue_lookup rest method
  end.

(** The hooks of [method] changed by [f], the method being given an empty
    entry first when it has none. *)
Fixpoint queue_alter (f : hooks → hooks) (q : queue) (method : string) : queue :=
  match q with
  | [] => [(method, f (Hooks [] []))]
  | (m, h) :: rest =>
      if String.eqb m method then (m, f h) :: rest
      else (m, h) :: queue_alter f rest method
  end.

(** The body shared by [pre] and [post]: the entry of the method is created
    when the queue has none of its own, and the function is pushed on one of
    its two arrays; the answer is the new length of that array.  An
    assignment to ['__proto__'] creates no property: the entry is lost. *)
Definition push (side : hooks → list H) (f : H → hooks → hooks) (q : queue)
    (method : string) (fn : H) : nat * queue :=
  if String.eqb method "__proto__" then (1, q)
  else (S (length (side (default (Hooks [] []) (queue_lookup q method)))),
        queue_alter (f fn) q method).

Definition on_queue (q : callQueue) (method : string) (step : queue → nat * queue)
    : nat * callQueue :=
  if is_query_method method
  then let '(n, model) := step (cq_model q) in (n, CallQueue model (cq_entity q))
  else let '(n, entity) := step (cq_entity q) in (n, CallQueue (cq_model q) entity).

(** [schema.pre(method, fn)] *)
Definition pre (q : callQueue) (method : string) (fn : H) : nat * callQueue :=
  on_queue q method
    (λ queue, push pres (λ fn h, Hooks (pres h ++ [fn]) (post h)) queue method fn).

(** [schema.post(method, fn)] *)
Definition post_ (q : callQueue) (method : string) (fn : H) : nat * callQueue :=
  on_queue q method
    (λ queue, push post (λ fn h, Hooks (pres h) (post h ++ [fn])) queue method fn).

(** A call to [Model.pre(method, fn)] or [Model.post(method, fn)] of the
    hooks library. *)
Inductive registration : Type :=
| RegisterPre (method : string) (fn : H)
| RegisterPost (method : string) (fn : H).

(** [Model.registerHooksFromSchema()] (src/model.ts): the registrations it
    makes, method by method, the pre hooks of a method before its post
    hooks. *)
Definition registerHooksFromSchema (q : callQueue) : list registration :=
  concat ((λ '(method, h), (RegisterPre method <$> pres h) ++ (RegisterPost method <$> post h))
            <$> cq_model q).
End Hooks.
End SchemaTs.

Arguments SchemaTs.providedOptions : clear implicits.
Arguments SchemaTs.pathAnswer : clear implicits.
Arguments SchemaTs.hooks : clear implicits.
Arguments SchemaTs.queue : clear implicits.
Arguments SchemaTs.callQueue : clear implicits.
Arguments SchemaTs.registration : clear implicits.
(** *** Vocabulary of the statements about Schema *)

Section SchemaVocabulary.
Context {H : Type}.

(** The entry of a method that has no hooks yet. *)
Definition empty_hooks : SchemaTs.hooks H := SchemaTs.Hooks [] [].

(** A call to [schema.pre] or [schema.post]. *)
Inductive declaration : Type :=
| DeclarePre (method : string) (fn : H)
| DeclarePost (method : string) (fn : H).

(** The queues after one more declaration, and after a list of them. *)
Definition declare (q : SchemaTs.callQueue H) (d : declaration) : SchemaTs.callQueue H :=
  match d with
  | DeclarePre method fn => (SchemaTs.pre q method fn).2
  | DeclarePost method fn => (SchemaTs.post_ q method fn).2
  end.

Definition declare_all (ds : list declaration) : SchemaTs.callQueue H :=
  foldl declare (SchemaTs.CallQueue [] []) ds.

(** The pre hooks, and the post hooks, declared for a method, in order. *)
Definition declared_pre (method : string) (ds : list declaration) : list H :=
  omap (λ d, match d with
             | DeclarePre m fn => if String.eqb m method then Some fn else None
             | DeclarePost _ _ => None
             end) ds.

Definition declared_post (method : string) (ds : list declaration) : list H :=
  omap (λ d, match d with
             | DeclarePost m fn => if String.eqb m method then Some fn else None
             | DeclarePre _ _ => None
             end) ds.

(** The pre hooks, and the post hooks, registered for a method, in order. *)
Definition registered_pre (method : string) (rs : list (SchemaTs.registration H)) : list H :=
  omap (λ r, match r with
             | SchemaTs.RegisterPre m fn => if String.eqb m method then Some fn else None
             | SchemaTs.RegisterPost _ _ => None
             end) rs.

Definition registered_post (method : string) (rs : list (SchemaTs.registration H)) : list H :=
  omap (λ r, match r with
             | SchemaTs.RegisterPost m fn => if String.eqb m method then Some fn else None
             | SchemaTs.RegisterPre _ _ => None
             end) rs.
End SchemaVocabulary.

Arguments declaration : clear implicits.


(** ** The gstore instance (lib/index.js) *)

Module Gstore.

(** A Schema instance: which one it is, and its [instanceOfSchema] flag. *)
Record schemaRef := SchemaRef {
  schema_id : nat;
  instanceOfSchema : bool;
}.

(** A compiled Model class: which one it is, its kind and its schema. *)
Record modelClass := ModelClass {
  model_id : nat;
  model_kind : string;
  model_schema : schemaRef;
}.

Section Model.
(** The properties of a schema given as an object literal. *)
Context {P : Type}.

(** The [schema] argument of [gstore.model]. *)
Inductive schemaArg : Type :=
| SchemaAbsent                      (* undefined, null *)
| SchemaPlain (properties : P)      (* an object that is not a Schema *)
| SchemaInstance (s : schemaRef).

(** [new Schema(schema)]: it throws, or gives an instance with this
    [instanceOfSchema] flag. *)
Variable Schema_constructor : schemaArg → result bool.
(** What [Model.compile] throws for a schema, if anything. *)
Variable compile_error : schemaRef → option error.

(** [gstore.models], [gstore.modelSchemas], and a supply of identities for
    the objects created. *)
Record registry := Registry {
  models : gmap string modelClass;
  modelSchemas : gmap string schemaRef;
  next_id : nat;
}.

(** What [table[name]] finds in one of the two tables. *)
Inductive found (A : Type) : Type :=
| Own (a : A)                  (* a property of the table *)
| Inherited                    (* what every object inherits under that name *)
| NotFound.

Definition find {A} (table : gmap string A) (name : string) : found A :=
  match table !! name with
  | Some a => Own _ a
  | None =>
      if bool_decide (name ∈ SchemaTs.object_prototype_names) then Inherited _
      else NotFound _
  end.

(** What [gstore.model] answers. *)
Inductive modelAnswer : Type :=
| AModel (m : modelClass)
| AInherited (name : string).       (* what [this.models] inherits under the name *)

(** [Model.compile(entityKind, schema, this)]: a new class. *)
Definition compile (entityKind : string) (schema : option schemaRef) (id : nat)
    : result modelClass :=
  match schema with
  | None => Throw TypeError           (* schema.__meta on undefined *)
  | Some s =>
      match compile_error s with
      | Some e => Throw e
      | None => Return (ModelClass id entityKind s)
      end
  end.

(** [if (is.object(schema) && !schema.instanceOfSchema) schema = new
    Schema(schema)]: the schema as the rest of the call sees it. *)
Definition convert (g : registry) (schema : schemaArg) : result (option schemaRef * registry) :=
  let construct :=
    match Schema_constructor schema with
    | Throw e => Throw e
    | Return flag =>
        Return (Some (SchemaRef (next_id g) flag),
                Registry (models g) (modelSchemas g) (S (next_id g)))
    end in
  match schema with
  | SchemaAbsent => Return (None, g)
  | SchemaInstance s => if instanceOfSchema s then Return (Some s, g) else construct
  | SchemaPlain _ => construct
  end.

(** [if (!this.modelSchemas[entityKind]) ...]: the schema is remembered, or
    missed. *)
Definition remember (g : registry) (entityKind : string) (schema : option schemaRef)
    : result registry :=
  match find (modelSchemas g) entityKind with
  | NotFound _ =>
      match schema with
      | Some s => Return (Registry (models g) (<[entityKind := s]> (modelSchemas g)) (next_id g))
      | None => Throw (Error ("Schema " +:+ entityKind +:+ " missing"))
      end
  | _ => Return g
  end.

(** The model already registered for the kind, when there is one and the
    cache is not bypassed: it is answered, unless another Schema instance
    is passed for it. *)
Definition registered (g : registry) (entityKind : string) (schema : option schemaRef)
    (cache : option bool) : option (result modelAnswer) :=
  let override := Throw (Error ("Trying to override " +:+ entityKind +:+ " Model Schema")) in
  if bool_decide (cache = Some false) then None
  else match find (models g) entityKind with
       | Own _ m =>
           Some (match schema with
                 | Some s =>
                     if instanceOfSchema s &&
                        negb (Nat.eqb (schema_id s) (schema_id (model_schema m)))
                     then override
                     else Return (AModel m)
                 | None => Return (AModel m)
                 end)
       | Inherited _ =>
           Some (match schema with
                 | Some s =>
                     if instanceOfSchema s then override else Return (AInherited entityKind)
                 | None => Return (AInherited entityKind)
                 end)
       | NotFound _ => None
       end.

(** The model compiled anew, and registered unless the cache is bypassed. *)
Definition compiled (g : registry) (entityKind : string) (schema : option schemaRef)
    (cache : option bool) : result modelAnswer * registry :=
  match compile entityKind schema (next_id g) with
  | Throw e => (Throw e, g)
  | Return m =>
      (Return (AModel m),
       Registry (if bool_decide (cache = Some false) then models g
                 else <[entityKind := m]> (models g))
                (modelSchemas g) (S (next_id g)))
  end.

(** [gstore.model(entityKind, schema, options)]; [cache] is [options.cache]
    when it is a boolean. *)
Definition model (g : registry) (entityKind : string) (schema : schemaArg)
    (cache : option bool) : result modelAnswer * registry :=
  match convert g schema with
  | Throw e => (Throw e, g)
  | Return (schema, g) =>
      match remember g entityKind schema with
      | Throw e => (Throw e, g)
      | Return g =>
          match registered g entityKind schema cache with
          | Some answer => (answer, g)
          | None => compiled g entityKind schema cache
          end
      end
  end.
End Model.
End Gstore.

Arguments Gstore.schemaArg : clear implicits.
Arguments Gstore.registry : clear implicits.

Module GstoreInstances.
Section Instances.
(** The settings of the cache. *)
Context {C : Type}.

(** A gstore instance: which one it is, and its [config]. *)
Record gstore := GstoreInstance {
  gstore_id : nat;
  config_cache : option C;
  config_errorOnEntityNotFound : bool;
}.

(** The [config] argument; [None] is a property the object does not have. *)
Inductive configArg : Type :=
| ConfigAbsent                   (* undefined: the default [{}] applies *)
| ConfigNotAnObject              (* null, or any value that is not an object *)
| ConfigObject (namespace : option string) (cache : option C)
               (errorOnEntityNotFound : option bool).

(** [gstoreInstances], and a supply of identities. *)
Record instances := Instances {
  by_namespace : gmap string gstore;
  next_instance : nat;
}.

Definition gstoreDefaultNamespace : string := "com.github.gstore-node".

(** [new Gstore(config)]: the defaults are [cache: undefined] and
    [errorOnEntityNotFound: true]. *)
Definition new_Gstore (id : nat) (cache : option C) (errorOnEntityNotFound : option bool)
    : gstore :=
  GstoreInstance id cache (default true errorOnEntityNotFound).

(** [instanceManager(config)], the export of the package. *)
Definition instanceManager (st : instances) (config : configArg) : result gstore * instances :=
  match config with
  | ConfigNotAnObject => (Throw (Error "Wrong config format for gstore"), st)
  | _ =>
      let '(namespace, cache, errorOnEntityNotFound) :=
        match config with
        | ConfigObject namespace cache e => (namespace, cache, e)
        | _ => (None, None, None)
        end in
      let _namespace := default gstoreDefaultNamespace (EntityKey.namespace_given namespace) in
      match by_namespace st !! _namespace with
      | Some g => (Return g, st)
      | None =>
          let g := new_Gstore (next_instance st) cache errorOnEntityNotFound in
          (Return g,
           Instances (if String.eqb _namespace "__proto__" then by_namespace st
                      else <[_namespace := g]> (by_namespace st))
                     (S (next_instance st)))
      end
  end.

(** [instanceManager.clear()] *)
Definition clear (st : instances) : instances := Instances ∅ (next_instance st).
End Instances.
End GstoreInstances.

Arguments GstoreInstances.gstore : clear implicits.
Arguments GstoreInstances.configArg : clear implicits.
Arguments GstoreInstances.instances : clear implicits.


(** ** Reading records: fromDatastore and entity.plain (lib/entity.js,
    src/helpers/queryhelpers.ts)

    The conversion prunes, in place, the objects nested in the record it is
    given, so a call that returns answers what it returns together with the
    record as it is afterwards; a call that throws leaves the record pruned
    as far as it got, which is not described.  Where the code reaches
    something the values above do not describe (an element or a method of an
    array, a method of a primitive or of an object, a property of a Date),
    the answer is [None]. *)

Module FromDatastore.
Section FromDatastore.
Context {Key E : Type}.
Abbreviation value := (value Key).

(** A path definition, as far as the conversion reads it.  [None] stands
    for a type that is not a string, a [read] that is not a boolean, an
    [excludeFromRead] that is not an array. *)
Record pathDefinition := PathDefinition {
  pd_type : option string;
  pd_read : option bool;
  pd_excludeFromRead : option (list string);
}.

(** The own properties of a Key instance, as the datastore client builds
    them. *)
Variable key_props : Key → gmap string value.
(** [key.path[key.path.length - 1]] *)
Variable idFromKey : Key → value.
(** [new Date(value / 1000)] for the number [value]. *)
Variable new_Date : Z → value.
(** [this.__model(entity, null, null, null, key)] *)
Variable __model : value → option Key → result E.
(** [entity.getEntityDataWithVirtuals()], from [this.entityData]. *)
Variable getEntityDataWithVirtuals : value → result value.

Variable paths : gmap string pathDefinition.

(** [if (v !== undefined && segment in v) delete v[segment]]: [in] throws
    on what is not an object. *)
Definition exclude_last (segment : string) (v : value) : option (result value) :=
  match v with
  | VUndefined => Some (Return v)
  | VNull | VBool _ | VNumber _ | VString _ => Some (Throw TypeError)
  | VArray _ => None
  | VObject cls props dsKEY => Some (Return (VObject cls (delete segment props) dsKEY))
  end.

(** The walk along the segments but the last, [v = v[segments.shift()]]
    while [v] is not undefined, and the deletion of the last one; the
    value, pruned. *)
Fixpoint exclude_segments (segments : list string) (v : value) : option (result value) :=
  match segments with
  | [] => exclude_last "undefined" v
  | segment :: rest =>
      match rest with
      | [] => exclude_last segment v
      | _ =>
          match v with
          | VUndefined => Some (Return v)
          | VNull => Some (Throw TypeError)
          | VObject cls props dsKEY =>
              match props !! segment with
              | Some child =>
                  match exclude_segments rest child with
                  | Some (Return child') =>
                      Some (Return (VObject cls (<[segment := child']> props) dsKEY))
                  | other => other
                  end
              | None =>
                  match cls with
                  | None =>
                      if bool_decide (segment ∈ SchemaTs.object_prototype_names) then None
                      else Some (Return v)
                  | Some _ => None
                  end
              end
          | _ => None
          end
      end
  end.

(** The body of [excludeFromRead.forEach(prop => ...)]. *)
Definition exclude (v : value) (prop : string) : option (result value) :=
  exclude_segments (split_path prop) v.

(** [excludeFromRead.forEach(...)]: the value, pruned. *)
Fixpoint exclude_all (props : list string) (v : value) : option (result value) :=
  match props with
  | [] => Some (Return v)
  | prop :: rest =>
      match exclude v prop with
      | Some (Return v') => exclude_all rest v'
      | other => other
      end
  end.

(** [options.readAll || !hasOwnProperty(schema.paths, k) ||
    schema.paths[k].read !== false] *)
Definition is_read (readAll : bool) (definition : option pathDefinition) : bool :=
  readAll ||
  match definition with
  | Some d => negb (bool_decide (pd_read d = Some false))
  | None => true
  end.

(** [type === 'datetime' && is.number(value)]: the Date that replaces the
    number. *)
Definition as_date (d : pathDefinition) (v : value) : option value :=
  match v with
  | VNumber z => if bool_decide (pd_type d = Some "datetime") then Some (new_Date z) else None
  | _ => None
  end.

(** The array [excludeFromRead] to go through, when there is one and
    [readAll] is off. *)
Definition to_exclude (readAll : bool) (d : pathDefinition) : list string :=
  if readAll then [] else default [] (pd_excludeFromRead d).

(** One turn of [Object.keys(entity).forEach(k => ...)]: what [data[k]]
    is set to, if it is set, and [entity[k]] as it is afterwards. *)
Definition convert_property (readAll : bool) (definition : option pathDefinition) (v : value)
    : option (result (option value * value)) :=
  if is_read readAll definition then
    match definition with
    | None => Some (Return (Some v, v))
    | Some d =>
        match as_date d v, to_exclude readAll d with
        | Some date, [] => Some (Return (Some date, v))
        | Some date, _ :: _ => None
        | None, props =>
            match exclude_all props v with
            | Some (Return v') => Some (Return (Some v', v'))
            | Some (Throw e) => Some (Throw e)
            | None => None
            end
        end
    end
  else Some (Return (None, v)).

(** [data[k] = value]: under the name [__proto__] it sets no property. *)
Definition assign (k : string) (v : value) (data : gmap string value) : gmap string value :=
  if String.eqb k "__proto__" then data else <[k := v]> data.

(** [Object.keys(entity).forEach(k => ...)], on [data] and the properties
    of the record. *)
Fixpoint each_property (readAll : bool) (entries : list (string * value))
    (data record : gmap string value) : option (result (gmap string value * gmap string value)) :=
  match entries with
  | [] => Some (Return (data, record))
  | (k, v) :: rest =>
      match convert_property readAll (paths !! k) v with
      | Some (Return (shown, kept)) =>
          each_property readAll rest
            (match shown with Some x => assign k x data | None => data end)
            (<[k := kept]> record)
      | Some (Throw e) => Some (Throw e)
      | None => None
      end
  end.

(** [convertToJson()] *)
Definition convertToJson (entity : value) (readAll showKey : bool)
    : option (result (value * value)) :=
  match entity with
  | VObject cls props (Some entityKey) =>
      match each_property readAll (map_to_list props)
                          (<["id" := idFromKey entityKey]> ∅) props with
      | Some (Return (data, record)) =>
          Some (Return (VObject None
                          (if showKey
                           then <["__key" := ModelTs.key_value key_props entityKey]> data
                           else delete "__key" data)
                          (Some entityKey),
                        VObject cls record (Some entityKey)))
      | Some (Throw e) => Some (Throw e)
      | None => None
      end
  | _ => Some (Throw TypeError)       (* key.path, on an undefined key *)
  end.

(** [convertToEntity()] *)
Definition convertToEntity (entity : value) : result E :=
  match entity with
  | VUndefined | VNull => Throw TypeError
  | _ => __model entity (get_KEY entity)
  end.

(** What [fromDatastore] answers. *)
Inductive converted : Type :=
| Json (data : value)
| AnEntity (e : E).

(** [fromDatastore(entity, options)]; [readAll] and [showKey] as the
    conditions see them. *)
Definition fromDatastore (entity : value) (format : option string) (readAll showKey : bool)
    : option (result (converted * value)) :=
  if bool_decide (format = Some "ENTITY") then
    Some (match convertToEntity entity with
          | Return e => Return (AnEntity e, entity)
          | Throw e => Throw e
          end)
  else
    match convertToJson entity readAll showKey with
    | Some (Return (data, entity')) => Some (Return (Json data, entity'))
    | Some (Throw e) => Some (Throw e)
    | None => None
    end.

(** The [options] argument of [entity.plain]. *)
Inductive plainOptions : Type :=
| PlainAbsent                                   (* undefined *)
| PlainNotAnObject                              (* null, or not an object *)
| PlainOptions (readAll virtuals showKey : bool).   (* as [!!] sees them *)

(** [entity.plain(options)], from [this.entityData]: what it answers, and
    [this.entityData] afterwards. *)
Definition plain (entityData : value) (options : plainOptions)
    : option (result (converted * value)) :=
  match options with
  | PlainNotAnObject => Some (Throw (Error "Options must be an Object"))
  | _ =>
      let '(readAll, virtuals, showKey) :=
        match options with
        | PlainOptions readAll virtuals showKey => (readAll, virtuals, showKey)
        | _ => (false, false, false)
        end in
      let with_virtuals :=
        if virtuals then getEntityDataWithVirtuals entityData else Return entityData in
      match with_virtuals with
      | Throw e => Some (Throw e)
      | Return entityData => fromDatastore entityData None readAll showKey
      end
  end.
End FromDatastore.
End FromDatastore.

Arguments FromDatastore.converted : clear implicits.

(** *** Vocabulary of the statements about fromDatastore *)

Section FromDatastoreVocabulary.
Context {Key : Type}.

(** What a property is shown as when nothing is excluded from it: the Date
    for a number under a datetime path, the value itself otherwise. *)
Definition shown_as (new_Date : Z → value Key)
    (definition : option FromDatastore.pathDefinition) (v : value Key) : value Key :=
  match definition with
  | Some d => default v (FromDatastore.as_date new_Date d v)
  | None => v
  end.
End FromDatastoreVocabulary.


(** * Properties *)

(** ** Sanitize *)

Section SanitizeFacts.
Context {Key : Type}.
Abbreviation value := (value Key).
Abbreviation schema := (schema Key).

(** A loop over distinct keys in which each iteration only touches its own
    key amounts to one pointwise update per listed key. *)
Lemma foldl_partial_alter_lookup (g : string → option value → option value)
    (ks : list string) (m : gmap string value) (k : string) :
  NoDup ks →
  foldl (λ acc j, partial_alter (g j) j acc) m ks !! k
  = if decide (k ∈ ks) then g k (m !! k) else m !! k.
Proof.
  revert m. induction ks as [|a ks IH]; intros m Hnd.
  - reflexivity.
  - apply NoDup_cons in Hnd as [Ha Hnd]. simpl. rewrite IH by done.
    destruct (decide (k = a)) as [->|Hne].
    + rewrite lookup_partial_alter_eq.
      rewrite (decide_False (P := a ∈ ks)) by done.
      by rewrite (decide_True (P := a ∈ a :: ks)) by apply list_elem_of_here.
    + rewrite lookup_partial_alter_ne by done.
      destruct (decide (k ∈ ks)) as [Hin|Hin].
      * by rewrite decide_True by (by apply list_elem_of_further).
      * rewrite decide_False; [done|].
        intros [?|?]%elem_of_cons; done.
Qed.

Lemma foldl_ext_step {A B} (f g : A → B → A) (l : list B) (a : A) :
  (∀ x y, f x y = g x y) → foldl f a l = foldl g a l.
Proof. intros E. revert a. induction l as [|b l IH]; intros a; simpl; [done|]. by rewrite E, IH. Qed.

Lemma NoDup_object_keys (props : gmap string value) : NoDup (object_keys props).
Proof. apply NoDup_fst_map_to_list. Qed.

Lemma elem_of_object_keys (props : gmap string value) (k : string) :
  k ∈ object_keys props ↔ is_Some (props !! k).
Proof.
  unfold object_keys. rewrite list_elem_of_fmap. split.
  - intros [[k' v] [-> Hin]]. apply elem_of_map_to_list in Hin. eauto.
  - intros [v Hv]. exists (k, v). split; [done|]. by apply elem_of_map_to_list.
Qed.

(** The loop over the keys of [data], run on [data]'s own properties,
    applies the per-property function everywhere. *)
Lemma sanitize_loop_lookup (step : gmap string value → string → gmap string value)
    (g : string → option value → option value) (props : gmap string value) (k : string) :
  (∀ m j, step m j = partial_alter (g j) j m) →
  (∀ j, g j None = None) →
  foldl step props (object_keys props) !! k = g k (props !! k).
Proof.
  intros Hstep Hnone.
  rewrite (foldl_ext_step step (λ acc j, partial_alter (g j) j acc)) by done.
  rewrite foldl_partial_alter_lookup by apply NoDup_object_keys.
  case_decide as Hin; [done|].
  rewrite elem_of_object_keys in Hin.
  destruct (props !! k) eqn:E; [by destruct Hin; eauto | by rewrite Hnone].
Qed.

Lemma js_sanitize_key_alter (s : schema) (o : sanitizeOptions) m j :
  ModelJs.sanitize_key s o m j = partial_alter (ModelJs.sanitize_prop s o j) j m.
Proof.
  unfold ModelJs.sanitize_key, ModelJs.sanitize_prop.
  apply map_eq; intros i.
  destruct (decide (i = j)) as [->|Hne].
  - rewrite lookup_partial_alter_eq. case_match.
    + by rewrite lookup_delete_eq.
    + destruct (m !! j) as [v|] eqn:E; simpl; [|by rewrite E].
      destruct (is_null_string v); [by rewrite lookup_insert_eq | done].
  - rewrite lookup_partial_alter_ne by done. case_match.
    + by rewrite lookup_delete_ne.
    + destruct (m !! j) as [v|]; [|done].
      destruct (is_null_string v); [by rewrite lookup_insert_ne | done].
Qed.

Lemma js_sanitize_prop_None (s : schema) o j : ModelJs.sanitize_prop s o j None = None.
Proof. unfold ModelJs.sanitize_prop. by case_match. Qed.

Lemma js_sanitize_lookup (s : schema) o props k :
  foldl (ModelJs.sanitize_key s o) props (object_keys props) !! k
  = ModelJs.sanitize_prop s o k (props !! k).
Proof.
  apply sanitize_loop_lookup; [apply js_sanitize_key_alter | apply js_sanitize_prop_None].
Qed.

Section Ts.
Variable key_props : Key → gmap string value.

Lemma ts_sanitize_key_alter (s : schema) (o : sanitizeOptions) m j :
  ModelTs.sanitize_key key_props s o m j
  = partial_alter (ModelTs.sanitize_prop key_props s o j) j m.
Proof.
  unfold ModelTs.sanitize_key, ModelTs.sanitize_prop.
  apply map_eq; intros i.
  destruct (decide (i = j)) as [->|Hne].
  - rewrite lookup_partial_alter_eq. case_match.
    + by rewrite lookup_delete_eq.
    + destruct (m !! j) as [v|] eqn:E; simpl.
      * destruct (is_null_string v); [by rewrite lookup_insert_eq|].
        destruct (ModelTs.isRefProp s j && negb (isKey v)); [|done].
        destruct (get_KEY v); [by rewrite lookup_insert_eq | done].
      * destruct (ModelTs.isRefProp s j); simpl; by rewrite ?E.
  - rewrite lookup_partial_alter_ne by done. case_match.
    + by rewrite lookup_delete_ne.
    + repeat case_match; by rewrite ?lookup_insert_ne.
Qed.

Lemma ts_sanitize_prop_None (s : schema) o j :
  ModelTs.sanitize_prop key_props s o j None = None.
Proof. unfold ModelTs.sanitize_prop. by case_match. Qed.

Lemma ts_sanitize_lookup (s : schema) o props k :
  foldl (ModelTs.sanitize_key key_props s o) props (object_keys props) !! k
  = ModelTs.sanitize_prop key_props s o k (props !! k).
Proof.
  apply sanitize_loop_lookup; [apply ts_sanitize_key_alter | apply ts_sanitize_prop_None].
Qed.
End Ts.
End SanitizeFacts.

Section SanitizeClaims.
Context {Key : Type}.
Abbreviation value := (value Key).
Abbreviation schema := (schema Key).
Variable key_props : Key → gmap string value.

(** In explicit-only mode a property stays exactly when it is under a
    schema path that is writable or whose write protection is disabled. *)
Lemma explicit_only_kept (s : schema) (o : sanitizeOptions) (k : string) :
  (negb (schemaHasProperty s k) || (negb (isPropWritable s k) && negb (isWriteDisabled o)))
  = false ↔
  is_Some (paths s !! k) ∧ (isPropWritable s k = true ∨ isWriteDisabled o = true).
Proof.
  unfold schemaHasProperty. case_bool_decide as Hpath; cbn [negb orb].
  - destruct (isPropWritable s k), (isWriteDisabled o); cbn; naive_solver.
  - naive_solver.
Qed.

Lemma js_explicitly_sanitized (s : schema) o props :
  ModelJs.isSchemaExplicitOnly s = true →
  explicitly_sanitized s o props (foldl (ModelJs.sanitize_key s o) props (object_keys props)).
Proof.
  intros Hex.
  assert (Hlookup : ∀ k,
            foldl (ModelJs.sanitize_key s o) props (object_keys props) !! k
            = if negb (schemaHasProperty s k)
                 || (negb (isPropWritable s k) && negb (isWriteDisabled o))
              then None
              else (λ v, if is_null_string v then VNull else v) <$> props !! k).
  { intros k. rewrite js_sanitize_lookup. unfold ModelJs.sanitize_prop. by rewrite Hex. }
  split_and!.
  - intros k. rewrite Hlookup. case_match eqn:Hkept; [by intros [? [=]]|].
    apply explicit_only_kept in Hkept as [Hpath _]. intros Hout. split; [done|].
    by apply fmap_is_Some in Hout.
  - intros k v. rewrite Hlookup. case_match; [done|].
    destruct (props !! k) as [w|]; [|done]. simpl.
    intros [= <-]. by destruct (is_null_string w) eqn:E.
  - intros k Hk. rewrite Hlookup, Hk. case_match; [by intros [? [=]] | done].
  - intros k Hk Hpath Hwrite. rewrite Hlookup.
    rewrite (proj2 (explicit_only_kept s o k)) by done. by apply fmap_is_Some.
  - intros k Hk Hpath Hwrite. rewrite Hlookup, Hk.
    by rewrite (proj2 (explicit_only_kept s o k)) by done.
Qed.

Lemma ts_explicitly_sanitized (s : schema) o props :
  ModelTs.isSchemaExplicitOnly s = true →
  explicitly_sanitized s o props
    (foldl (ModelTs.sanitize_key key_props s o) props (object_keys props)).
Proof.
  intros Hex.
  assert (Hlookup : ∀ k,
            foldl (ModelTs.sanitize_key key_props s o) props (object_keys props) !! k
            = if negb (schemaHasProperty s k)
                 || (negb (isPropWritable s k) && negb (isWriteDisabled o))
              then None
              else (λ v, if is_null_string v then VNull
                         else if ModelTs.isRefProp s k && negb (isKey v) then
                           match get_KEY v with
                           | Some key => ModelTs.key_value key_props key
                           | None => v
                           end
                         else v) <$> props !! k).
  { intros k. rewrite ts_sanitize_lookup. unfold ModelTs.sanitize_prop. by rewrite Hex. }
  split_and!.
  - intros k. rewrite Hlookup. case_match eqn:Hkept; [by intros [? [=]]|].
    apply explicit_only_kept in Hkept as [Hpath _]. intros Hout. split; [done|].
    by apply fmap_is_Some in Hout.
  - intros k v. rewrite Hlookup. case_match; [done|].
    destruct (props !! k) as [w|]; [|done]. simpl.
    intros [= <-]. destruct (is_null_string w) eqn:E; [done|].
    destruct (ModelTs.isRefProp s k && negb (isKey w)); [|done].
    by destruct (get_KEY w).
  - intros k Hk. rewrite Hlookup, Hk. case_match; [by intros [? [=]] | done].
  - intros k Hk Hpath Hwrite. rewrite Hlookup.
    rewrite (proj2 (explicit_only_kept s o k)) by done. by apply fmap_is_Some.
  - intros k Hk Hpath Hwrite. rewrite Hlookup, Hk.
    by rewrite (proj2 (explicit_only_kept s o k)) by done.
Qed.

(** C7: with a non-Joi schema whose explicitOnly option is true, every key
    that sanitize leaves in an object record is one of the schema's declared
    paths, so that fields the schema does not know are always stripped; a
    field of the record under a schema path that is writable (or under any
    schema path, when the write protection is disabled) is kept; and such a
    field that holds the string 'null' comes out as null, no field coming
    out as the string 'null'; in the JavaScript and in the TypeScript Model
    alike. *)
Theorem sanitize_explicitOnly_keeps_schema_paths (s : schema) (o : sanitizeOptions)
    (cls : option Key) (props : gmap string value) (dsKEY : option Key) :
  _joi s = None →
  explicitOnly (options s) = Some true →
  ∃ js ts : gmap string value,
    ModelJs.sanitize (VObject cls props dsKEY) s o = VObject None js dsKEY ∧
    ModelTs.sanitize key_props s (VObject cls props dsKEY) o = Return (VObject None ts dsKEY) ∧
    explicitly_sanitized s o props js ∧
    explicitly_sanitized s o props ts.
Proof.
  intros Hjoi Hex.
  eexists _, _. unfold ModelJs.sanitize, ModelTs.sanitize, ModelTs.sanitize_init.
  rewrite Hjoi. simpl. split_and!.
  - reflexivity.
  - by destruct dsKEY.
  - apply js_explicitly_sanitized. unfold ModelJs.isSchemaExplicitOnly. by rewrite Hjoi, Hex.
  - apply ts_explicitly_sanitized. unfold ModelTs.isSchemaExplicitOnly. by rewrite Hjoi, Hex.
Qed.
End SanitizeClaims.

Lemma sanitize_explicitOnly_keeps_schema_paths_witness :
  _joi Samples.user_schema = None ∧
  explicitOnly (options Samples.user_schema) = Some true ∧
  ∃ js ts : gmap string (value string),
    ModelJs.sanitize Samples.user_record Samples.user_schema default_sanitizeOptions
      = VObject None js None ∧
    ModelTs.sanitize Samples.no_props Samples.user_schema Samples.user_record
      default_sanitizeOptions = Return (VObject None ts None) ∧
    explicitly_sanitized Samples.user_schema default_sanitizeOptions
      (<["name" := VString "null"]> (<["state" := VString "x"]> (<["admin" := VBool true]> ∅))) js ∧
    explicitly_sanitized Samples.user_schema default_sanitizeOptions
      (<["name" := VString "null"]> (<["state" := VString "x"]> (<["admin" := VBool true]> ∅))) ts.
Proof.
  split; [reflexivity|]. split; [reflexivity|].
  apply (sanitize_explicitOnly_keeps_schema_paths Samples.no_props Samples.user_schema
           default_sanitizeOptions None _ None); reflexivity.
Defined.

Section SanitizeIdempotence.
Context {Key : Type}.
Abbreviation value := (value Key).
Abbreviation schema := (schema Key).
Variable key_props : Key → gmap string value.

Lemma js_sanitize_prop_idemp (s : schema) o k ov :
  ModelJs.sanitize_prop s o k (ModelJs.sanitize_prop s o k ov) = ModelJs.sanitize_prop s o k ov.
Proof.
  unfold ModelJs.sanitize_prop. case_match; [done|].
  destruct ov as [v|]; [|done]. simpl. f_equal.
  by destruct (is_null_string v) eqn:E; [|rewrite E].
Qed.

Lemma ts_sanitize_prop_idemp (s : schema) o k ov :
  ModelTs.sanitize_prop key_props s o k (ModelTs.sanitize_prop key_props s o k ov)
  = ModelTs.sanitize_prop key_props s o k ov.
Proof.
  unfold ModelTs.sanitize_prop. case_match; [done|].
  destruct ov as [v|]; [|done]. simpl. f_equal.
  destruct (is_null_string v) eqn:E; simpl.
  { by destruct (ModelTs.isRefProp s k). }
  destruct (ModelTs.isRefProp s k) eqn:R; simpl; [|by rewrite E].
  destruct (isKey v) eqn:K; simpl; [by rewrite E, K|].
  destruct (get_KEY v) as [key|] eqn:G; simpl; [done|].
  by rewrite E, K, G.
Qed.

(** C8 (as amended): for a schema that is not a Joi schema, and fixed
    options, sanitizing the output of sanitize changes nothing; in the
    JavaScript Model for every input, in the TypeScript Model for every
    object record. *)
Theorem sanitize_idempotent_without_joi (s : schema) (o : sanitizeOptions) :
  _joi s = None →
  (∀ data : value,
     ModelJs.sanitize (ModelJs.sanitize data s o) s o = ModelJs.sanitize data s o) ∧
  (∀ cls props dsKEY, ∃ once : value,
     ModelTs.sanitize key_props s (VObject cls props dsKEY) o = Return once ∧
     ModelTs.sanitize key_props s once o = Return once).
Proof.
  intros Hjoi. split.
  - intros data. unfold ModelJs.sanitize. rewrite Hjoi.
    destruct data as [| | | | | |cls props dsKEY]; try done.
    f_equal. apply map_eq; intros k.
    by rewrite !js_sanitize_lookup, js_sanitize_prop_idemp.
  - intros cls props dsKEY. eexists. split.
    + unfold ModelTs.sanitize, ModelTs.sanitize_init. rewrite Hjoi. simpl. reflexivity.
    + unfold ModelTs.sanitize, ModelTs.sanitize_init. rewrite Hjoi. simpl.
      f_equal. f_equal.
      * apply map_eq; intros k.
        by rewrite !ts_sanitize_lookup, ts_sanitize_prop_idemp.
      * by destruct dsKEY.
Qed.
End SanitizeIdempotence.

Lemma sanitize_idempotent_without_joi_witness :
  _joi Samples.user_schema = None ∧
  ModelJs.sanitize
    (ModelJs.sanitize Samples.user_record Samples.user_schema default_sanitizeOptions)
    Samples.user_schema default_sanitizeOptions
  = ModelJs.sanitize Samples.user_record Samples.user_schema default_sanitizeOptions.
Proof.
  split; [reflexivity|].
  apply (sanitize_idempotent_without_joi Samples.no_props Samples.user_schema
           default_sanitizeOptions); reflexivity.
Defined.

(** C8 as stated fails for a Joi schema: with a field that has a Joi default
    and is not writable, the first pass lets the default through (the loop
    only visits the keys of the input) and the second pass strips it. *)
Lemma sanitize_not_idempotent_with_joi :
  ModelJs.sanitize
    (ModelJs.sanitize (plain ∅) Samples.joi_user_schema default_sanitizeOptions)
    Samples.joi_user_schema default_sanitizeOptions
  ≠ ModelJs.sanitize (plain ∅) Samples.joi_user_schema default_sanitizeOptions.
Proof. vm_compute. discriminate. Qed.

(** The same input separates the two passes of the TypeScript Model. *)
Lemma ts_sanitize_not_idempotent_with_joi :
  ModelTs.sanitize Samples.no_props Samples.joi_user_schema (plain ∅) default_sanitizeOptions
    = Return (plain (<["state" := VString "requested"]> ∅)) ∧
  ModelTs.sanitize Samples.no_props Samples.joi_user_schema
      (plain (<["state" := VString "requested"]> ∅)) default_sanitizeOptions
    = Return (plain ∅).
Proof. split; vm_compute; reflexivity. Qed.

Section SanitizeNonObjects.
Context {Key : Type}.
Abbreviation value := (value Key).
Abbreviation schema := (schema Key).
Variable key_props : Key → gmap string value.

(** The JavaScript Model answers null for whatever is not an object. *)
Lemma js_sanitize_non_object (s : schema) (data : value) :
  is_object data = false → ModelJs.Model_sanitize s data = VNull.
Proof. by destruct data. Qed.

(** The TypeScript Model does so for strings, numbers, booleans and arrays. *)
Lemma ts_sanitize_non_object (s : schema) (o : sanitizeOptions) (data : value) :
  is_object data = false → data ≠ VNull → data ≠ VUndefined →
  ModelTs.sanitize key_props s data o = Return VNull.
Proof. by destruct data. Qed.

(** C9: in the TypeScript Model, sanitize reads [data[ds.KEY]] before it
    tests whether [data] is an object, so null and undefined raise a
    TypeError instead of giving null. *)
Theorem ts_sanitize_null_throws (s : schema) (o : sanitizeOptions) :
  ModelTs.sanitize key_props s VNull o = Throw TypeError ∧
  ModelTs.sanitize key_props s VUndefined o = Throw TypeError.
Proof. split; reflexivity. Qed.
End SanitizeNonObjects.

(** ** Serializer *)

Section SerializerFacts.
Context {Key : Type}.
Abbreviation value := (value Key).

Lemma wire_fold_lookup (l : list (string * value)) (acc : gmap string value) (k : string) :
  NoDup l.*1 →
  foldl (λ acc kv,
           if is_defined kv.2 && negb (String.eqb kv.1 "__proto__")
           then <[kv.1 := kv.2]> acc else acc) acc l !! k
  = match (list_to_map l : gmap string value) !! k with
    | Some v => if is_defined v && negb (String.eqb k "__proto__") then Some v else acc !! k
    | None => acc !! k
    end.
Proof.
  revert acc. induction l as [|[k0 v0] l IH]; intros acc Hnd; [done|].
  simpl in Hnd. apply NoDup_cons in Hnd as [Hk0 Hnd]. simpl. rewrite IH by done.
  destruct (decide (k = k0)) as [->|Hne].
  - rewrite lookup_insert_eq.
    rewrite (not_elem_of_list_to_map_1 _ _ Hk0).
    destruct (is_defined v0 && negb (String.eqb k0 "__proto__"));
      [by rewrite lookup_insert_eq | done].
  - rewrite lookup_insert_ne by done.
    destruct (is_defined v0 && negb (String.eqb k0 "__proto__"));
      [by rewrite lookup_insert_ne | done].
Qed.

(** The wire data is the entity data without its undefined entries, and
    without an entry named __proto__. *)
Lemma wire_data_lookup (entityData : gmap string value) (k : string) :
  wire_data entityData !! k
  = match entityData !! k with
    | Some v => if is_defined v && negb (String.eqb k "__proto__") then Some v else None
    | None => None
    end.
Proof.
  unfold wire_data. rewrite wire_fold_lookup by apply NoDup_fst_map_to_list.
  by rewrite list_to_map_to_list, lookup_empty.
Qed.

Lemma wire_data_Some (entityData : gmap string value) (k : string) (v : value) :
  wire_data entityData !! k = Some v ↔
  entityData !! k = Some v ∧ v ≠ VUndefined ∧ k ≠ "__proto__".
Proof.
  rewrite wire_data_lookup. destruct (entityData !! k) as [w|]; [|by split; [|intros [??]]].
  destruct (String.eqb_spec k "__proto__") as [->|Hne].
  - rewrite andb_false_r. split; [done|]. by intros (_ & _ & ?).
  - rewrite andb_true_r.
    destruct w; simpl;
      (split; [intros [= <-]; by split_and! | intros ([= <-] & ? & _); first [done | congruence]]).
Qed.

Lemma spread_Throw (founds : list (option (list string))) (e : error) :
  foldl spread_into (Throw e) founds = Throw e.
Proof. by induction founds. Qed.

(** The spreads give the arrays found, one after the other, unless one of
    the things found is no array. *)
Lemma spread_all (founds : list (option (list string))) (acc : list string) :
  foldl spread_into (Return acc) founds
  = if bool_decide (None ∈ founds) then Throw TypeError
    else Return (acc ++ concat (omap id founds)).
Proof.
  revert acc. induction founds as [|[arr|] founds IH]; intros acc; cbn [foldl spread_into].
  - rewrite bool_decide_eq_false_2 by apply not_elem_of_nil. cbn. by rewrite app_nil_r.
  - rewrite IH. destruct (decide (None ∈ founds)) as [Hin|Hin].
    + rewrite (bool_decide_eq_true_2 _ Hin). by rewrite bool_decide_eq_true_2 by (by right).
    + rewrite (bool_decide_eq_false_2 _ Hin).
      rewrite bool_decide_eq_false_2 by (by intros [?|?]%elem_of_cons).
      cbn. by rewrite app_assoc.
  - rewrite spread_Throw. by rewrite bool_decide_eq_true_2 by left.
Qed.

Lemma found_for_the_data (data : gmap string value) (exclusions : gmap string (list string))
    (found : option (list string)) :
  found ∈ omap (λ kv : string * value, exclusion_of exclusions kv.1)
            (filter (λ kv : string * value, is_not_null kv.2 = true) (map_to_list data)) ↔
  ∃ k v, data !! k = Some v ∧ v ≠ VNull ∧ exclusion_of exclusions k = Some found.
Proof.
  rewrite list_elem_of_omap. split.
  - intros ([k v] & Hkv & Hex). apply list_elem_of_filter in Hkv as [Hnn Hkv].
    apply elem_of_map_to_list in Hkv. exists k, v. simpl in *. split_and!; try done. by intros ->.
  - intros (k & v & Hk & Hv & Hex). exists (k, v). split; [|done].
    apply list_elem_of_filter. split; [by destruct v | by apply elem_of_map_to_list].
Qed.

(** getExcludeFromIndexes throws as soon as the data holds a value that is
    not null under a name that every object inherits and that
    [excludeFromIndexes] does not list. *)
Lemma getExcludeFromIndexes_throws (data : gmap string value)
    (exclusions : gmap string (list string)) (k : string) (v : value) :
  data !! k = Some v → v ≠ VNull → exclusions !! k = None → inherits k = true →
  getExcludeFromIndexes data exclusions = Throw TypeError.
Proof.
  intros Hk Hv Hex Hin. unfold getExcludeFromIndexes. rewrite spread_all.
  rewrite bool_decide_eq_true_2; [done|]. apply found_for_the_data.
  exists k, v. split_and!; try done. unfold exclusion_of. by rewrite Hex, Hin.
Qed.

(** Otherwise it returns, and a path is excluded from indexes exactly when
    it is listed for a field of the data whose value is not null. *)
Lemma getExcludeFromIndexes_returns (data : gmap string value)
    (exclusions : gmap string (list string)) :
  (∀ k v, data !! k = Some v → v ≠ VNull → inherits k = true → is_Some (exclusions !! k)) →
  ∃ excluded,
    getExcludeFromIndexes data exclusions = Return excluded ∧
    ∀ path, path ∈ excluded ↔
            ∃ k v arr, data !! k = Some v ∧ v ≠ VNull ∧ exclusions !! k = Some arr ∧ path ∈ arr.
Proof.
  intros Hown. unfold getExcludeFromIndexes. rewrite spread_all.
  rewrite bool_decide_eq_false_2.
  2:{ rewrite found_for_the_data. intros (k & v & Hk & Hv & Hex).
      unfold exclusion_of in Hex. destruct (exclusions !! k) as [arr|] eqn:Harr; [done|].
      destruct (inherits k) eqn:Hin; [|done].
      destruct (Hown k v Hk Hv Hin) as [arr Habs]. congruence. }
  eexists. split; [reflexivity|]. intros path. cbn [app].
  rewrite list_elem_of_In, in_concat. split.
  - intros (arr & Harr & Hpath). rewrite <- list_elem_of_In in Harr.
    rewrite <- list_elem_of_In in Hpath.
    apply list_elem_of_omap in Harr as (found & Hfound & Hid). cbn in Hid. subst found.
    apply found_for_the_data in Hfound as (k & v & Hk & Hv & Hex).
    exists k, v, arr. split_and!; try done. unfold exclusion_of in Hex.
    destruct (exclusions !! k); [congruence|]. by destruct (inherits k).
  - intros (k & v & arr & Hk & Hv & Hex & Hpath). exists arr.
    rewrite <- !list_elem_of_In. split; [|done].
    apply list_elem_of_omap. exists (Some arr). split; [|done].
    apply found_for_the_data. exists k, v. split_and!; try done.
    unfold exclusion_of. by rewrite Hex.
Qed.

(** Both serializers throw a TypeError, and hand nothing to the store, for
    every entity that holds a value under a name every object inherits. *)
Lemma toDatastore_throws_on_inherited_name (e : entity Key) (method : option string)
    (k : string) :
  holds_inherited_name e k →
  toDatastore_js e method = Throw TypeError ∧ toDatastore_ts e method = Throw TypeError.
Proof.
  intros (Hin & Hproto & Hex & v & Hk & Hdef & Hnull).
  assert (Hthrows : getExcludeFromIndexes (wire_data (entityData e)) (excludeFromIndexes e)
                    = Throw TypeError).
  { apply (getExcludeFromIndexes_throws _ _ k v); try done. by apply wire_data_Some. }
  unfold toDatastore_js, toDatastore_ts. cbv zeta. by rewrite Hthrows.
Qed.

(** For every other entity both serializers return, with the same data and
    the same list: the data holds exactly the entries of entityData whose
    value is not undefined, each with its value (null included), an entry
    named __proto__ apart; and a path enters the excludeFromIndexes list
    only through a field whose value is neither undefined nor null. *)
Lemma toDatastore_keeps_what_is_defined (e : entity Key) (method : option string) :
  (∀ k, ¬ holds_inherited_name e k) →
  ∃ js ts,
    toDatastore_js e method = Return js ∧ toDatastore_ts e method = Return ts ∧
    df_data ts = df_data js ∧
    df_excludeFromIndexes ts = df_excludeFromIndexes js ∧
    (∀ k v, df_data js !! k = Some v ↔
            entityData e !! k = Some v ∧ v ≠ VUndefined ∧ k ≠ "__proto__") ∧
    (∀ excluded path, df_excludeFromIndexes js = Some excluded →
       (path ∈ excluded ↔
        ∃ k v arr, entityData e !! k = Some v ∧ v ≠ VUndefined ∧ v ≠ VNull ∧
                   k ≠ "__proto__" ∧ excludeFromIndexes e !! k = Some arr ∧ path ∈ arr)).
Proof.
  intros Hnone.
  destruct (getExcludeFromIndexes_returns (wire_data (entityData e)) (excludeFromIndexes e))
    as (excluded & Hreturns & Hexcluded).
  { intros k v Hk Hv Hin. apply wire_data_Some in Hk as (Hk & Hdef & Hproto).
    destruct (excludeFromIndexes e !! k) as [arr|] eqn:Hex; [by eexists|].
    destruct (Hnone k). split_and!; try done. by exists v. }
  unfold toDatastore_js, toDatastore_ts. cbv zeta. rewrite Hreturns.
  eexists _, _. split_and!; try reflexivity; cbn [df_data df_excludeFromIndexes].
  - intros k v. apply wire_data_Some.
  - intros excluded' path Hsome. destruct (0 <? _)%nat; [|done]. injection Hsome as <-.
    rewrite Hexcluded. split.
    + intros (k & v & arr & Hk & ? & ? & ?). apply wire_data_Some in Hk as (? & ? & ?).
      by exists k, v, arr.
    + intros (k & v & arr & Hk & ? & ? & ? & ? & ?). exists k, v, arr.
      split_and!; try done. by apply wire_data_Some.
Qed.
End SerializerFacts.

(** C10: the serializers do not keep every entry that is not undefined.
    For an entity whose data is [{ constructor: 'x' }] both look up
    [entity.excludeFromIndexes['constructor']], find the constructor that
    every object inherits where they expect an array or undefined, and
    throw a TypeError when they spread it: no wire record is produced. *)
Theorem toDatastore_named_constructor_throws :
  entityData SerializerSamples.named_constructor !! "constructor" = Some (VString "x") ∧
  toDatastore_js SerializerSamples.named_constructor None = Throw TypeError ∧
  toDatastore_ts SerializerSamples.named_constructor None = Throw TypeError.
Proof.
  split; [reflexivity|].
  apply (toDatastore_throws_on_inherited_name _ None "constructor").
  split_and!; [reflexivity | discriminate | reflexivity |].
  exists (VString "x"). split_and!; [reflexivity | discriminate | discriminate].
Qed.

(** ** Entity keys *)

Section EntityKeyFacts.
Import EntityKey.
Variable isFinite : string → bool.

Lemma integer_like_truthy (s : string) : integer_like s = true → id_truthy (IdString s) = true.
Proof. unfold integer_like. simpl. by intros [[? _]%andb_prop _]%andb_prop. Qed.

(** C6: an integer-like string id given to the entity constructor (no
    explicit key) ends the derived key's path as the store's integer form of
    that string when the schema sets no keyType, and as the unchanged string
    when the schema sets keyType to "name"; whatever the ancestors and the
    namespace. *)
Theorem constructor_key_of_integer_like_id (entityKind s : string) (o : schemaOptions)
    (ancestors : option (list pathElement)) (namespace : option string) :
  (∀ d, integer_like d = true → isFinite d = true) →
  integer_like s = true →
  (keyType o = None →
     ∃ k, constructor_entityKey isFinite entityKind (Some o) (IdString s) ancestors namespace None
            = Return k ∧ trailing_identifier k = Some (PInt s)) ∧
  (keyType o = Some "name" →
     ∃ k, constructor_entityKey isFinite entityKind (Some o) (IdString s) ancestors namespace None
            = Return k ∧ trailing_identifier k = Some (PString s)).
Proof.
  intros Hfin Hs. pose proof (integer_like_truthy s Hs) as Ht.
  unfold constructor_entityKey, createKey. rewrite Ht. unfold parseId.
  split; intros ->; simpl.
  - rewrite (Hfin s Hs). eexists. split; [reflexivity|].
    unfold trailing_identifier. simpl. destruct ancestors; [|done].
    by rewrite last_app_cons.
  - eexists. split; [reflexivity|].
    unfold trailing_identifier. simpl. destruct ancestors; [|done].
    by rewrite last_app_cons.
Qed.
End EntityKeyFacts.

Lemma constructor_key_of_integer_like_id_witness :
  (∀ d, EntityKey.integer_like d = true → EntityKey.integer_like d = true) ∧
  EntityKey.integer_like "123" = true ∧
  keyType (SchemaOptions (Some true) true None) = None ∧
  ∃ k, EntityKey.constructor_entityKey EntityKey.integer_like "User"
         (Some (SchemaOptions (Some true) true None)) (EntityKey.IdString "123") None None None
       = Return k ∧ EntityKey.trailing_identifier k = Some (EntityKey.PInt "123").
Proof.
  split; [done|]. split; [reflexivity|]. split; [reflexivity|].
  apply (constructor_key_of_integer_like_id EntityKey.integer_like "User" "123"
           (SchemaOptions (Some true) true None) None None); [done | reflexivity | reflexivity].
Defined.

(** ** Model.update *)

Section UpdateFacts.
Context {Key : Type}.
Abbreviation value := (value Key).

(** In the TypeScript Model a transaction supplied by the caller is neither
    committed nor rolled back, whatever the collaborators answer; commit and
    rollback only ever reach the transaction update opened itself. *)
Lemma ts_update_terminates_only_internal (E : env Key) (key : Key) (data : value)
    (transaction : option txObject) (o : updateOptions) :
  Forall (λ ev, ∀ t, terminates_transaction ev = Some t →
                     transaction = None ∧ t = ds_transaction E)
         (UpdateTs.update E key data transaction o []).2.
Proof.
  unfold UpdateTs.update, UpdateTs.getAndUpdate, UpdateTs.getEntity, UpdateTs.saveEntity,
    UpdateTs.onEntityUpdated, UpdateTs.onUpdateError, entity_save, save_onSuccess,
    onTransactionSuccess, clear_dataloader, catch, then_, then2, call, resolve, reject.
  repeat (case_match; simplify_eq/=);
    repeat (first [apply Forall_nil_2 | apply Forall_cons_2; [by intros ? [=] || (intros ? [= <-]; done)|]]).
Qed.
End UpdateFacts.

Section UpdateNotFound.
Context {Key : Type}.
Abbreviation value := (value Key).

(** In the TypeScript Model, an update (without replace) of a key the store
    has no record for writes nothing, and rejects with the not-found error
    once the transaction has started and, when update opened it, rolled
    back. *)
Lemma ts_update_not_found (E : env Key) (key : Key) (data : value)
    (transaction : option txObject) (o : updateOptions) :
  opt_replace o = false →
  tx_get E key = Return None →
  Forall (λ ev, is_save ev = false) (UpdateTs.update E key data transaction o []).2 ∧
  (tx_run E = Return () → (∃ response, tx_rollback E = Return response) →
   match transaction with Some t => not_a_Transaction t = false | None => True end →
   (UpdateTs.update E key data transaction o []).1 = Throw not_found).
Proof.
  intros Hrep Hget.
  unfold UpdateTs.update, UpdateTs.getAndUpdate, UpdateTs.getEntity, UpdateTs.saveEntity,
    UpdateTs.onEntityUpdated, UpdateTs.onUpdateError, entity_save, save_onSuccess,
    onTransactionSuccess, clear_dataloader, catch, then_, then2, call, resolve, reject.
  rewrite Hrep, Hget. split.
  - repeat (case_match; simplify_eq/=); repeat constructor.
  - intros Hrun [response Hroll] Htx. rewrite Hrun, Hroll.
    destruct transaction as [t|]; simpl; [by rewrite Htx | done].
Qed.
End UpdateNotFound.

(** C1: in lib/model.js, update commits a transaction the caller supplied
    once the merged entity is saved on it, and rolls it back when the save
    is rejected: [onEntityUpdated] and [onUpdateError] test [transaction],
    not whether update opened it. *)
Theorem js_update_terminates_supplied_transaction :
  UpdateJs.update UpdateSamples.store_with_record "User/42" UpdateSamples.email
      (Some UpdateSamples.user_tx) UpdateSamples.no_options []
  = (Return (Updated (Some "User/42")
               (<["email" := VString "a@b.com"]> UpdateSamples.john) None),
     [EvGet UpdateSamples.user_tx "User/42";
      EvTxSave UpdateSamples.user_tx (Some "User/42")
        (<["email" := VString "a@b.com"]> UpdateSamples.john);
      EvCommit UpdateSamples.user_tx]) ∧
  UpdateJs.update UpdateSamples.store_with_record_invalid "User/42" UpdateSamples.email
      (Some UpdateSamples.user_tx) UpdateSamples.no_options []
  = (Throw (ApiResponse 0),
     [EvGet UpdateSamples.user_tx "User/42"; EvRollback UpdateSamples.user_tx]).
Proof. split; vm_compute; reflexivity. Qed.

(** The TypeScript Model on the same calls: no commit, no rollback. *)
Lemma ts_update_leaves_supplied_transaction :
  (UpdateTs.update UpdateSamples.store_with_record "User/42" UpdateSamples.email
      (Some UpdateSamples.user_tx) UpdateSamples.no_options []).2
  = [EvGet UpdateSamples.user_tx "User/42";
     EvTxSave UpdateSamples.user_tx (Some "User/42")
       (<["email" := VString "a@b.com"]> UpdateSamples.john)] ∧
  UpdateTs.update UpdateSamples.store_with_record_invalid "User/42" UpdateSamples.email
      (Some UpdateSamples.user_tx) UpdateSamples.no_options []
  = (Throw (ValidationError "email"), [EvGet UpdateSamples.user_tx "User/42"]).
Proof. split; vm_compute; reflexivity. Qed.

(** C2: in lib/model.js, [getEntity] catches the not-found error and
    answers it as a value, so [saveEntity] runs on it: an entity without key
    and data is saved on the transaction and committed, and the update
    resolves instead of rejecting. *)
Theorem js_update_not_found_saves_blank_entity :
  UpdateJs.update UpdateSamples.empty_store "User/42" UpdateSamples.email
      None UpdateSamples.no_options []
  = (Return (Updated None ∅ None),
     [EvTransaction UpdateSamples.internal_tx;
      EvRun UpdateSamples.internal_tx;
      EvGet UpdateSamples.internal_tx "User/42";
      EvTxSave UpdateSamples.internal_tx None ∅;
      EvCommit UpdateSamples.internal_tx]).
Proof. vm_compute. reflexivity. Qed.

(** The TypeScript Model on the same call. *)
Lemma ts_update_not_found_sample :
  UpdateTs.update UpdateSamples.empty_store "User/42" UpdateSamples.email
      None UpdateSamples.no_options []
  = (Throw not_found,
     [EvTransaction UpdateSamples.internal_tx;
      EvRun UpdateSamples.internal_tx;
      EvGet UpdateSamples.internal_tx "User/42";
      EvRollback UpdateSamples.internal_tx]).
Proof. vm_compute. reflexivity. Qed.

Section UpdateJsNotFound.
Context {Key : Type}.
Abbreviation value := (value Key).

(** In lib/model.js the not-found error never reaches the caller of an
    update that opened its own transaction: with collaborators that
    otherwise succeed, the update resolves, or rejects with the rollback's
    response. *)
Lemma js_update_not_found_never_reported (E : env Key) (key : Key) (data : value)
    (o : updateOptions) :
  opt_replace o = false →
  tx_run E = Return () →
  tx_get E key = Return None →
  tx_commit E = Return () →
  cache_clear E = Return () →
  (∃ response, tx_rollback E = Return response) →
  (UpdateJs.update E key data None o []).1 ≠ Throw not_found.
Proof.
  intros Hrep Hrun Hget Hcommit Hcache [response Hroll].
  unfold UpdateJs.update, UpdateJs.getAndUpdate, UpdateJs.getEntity, UpdateJs.saveEntity,
    UpdateJs.onEntityUpdated, UpdateJs.onUpdateError, UpdateJs.onTransactionError,
    entity_save, save_onSuccess, onTransactionSuccess, clear_dataloader,
    catch, then_, then2, call, resolve, reject.
  rewrite Hrep, Hrun, Hget. simpl.
  destruct (ds_transaction E) as [n c] eqn:Ht.
  repeat (case_match; simplify_eq/=); try done.
Qed.
End UpdateJsNotFound.

(** ** Model.deleteAll *)

Section DeleteAllFacts.
Context {Key : Type} `{EqDecision Key}.
Variable M : deleteModel.

Lemma deleteEntities_unfold (todo : nat) (entities : list Key) (totalBatches currentBatch : nat)
    (w : world Key) :
  deleteEntities M todo entities totalBatches currentBatch w
  = let entitiesToDelete :=
      take maxEntitiesPerBatch (drop (currentBatch * maxEntitiesPerBatch) entities) in
    let w1 :=
      if dm_hasPreDelete M
      then foldl (λ w entity, Model_delete M [entity] true w) w entitiesToDelete
      else Model_delete M entitiesToDelete (Nat.eqb currentBatch 0) w in
    if Nat.ltb (currentBatch + 1) totalBatches then
      match todo with
      | S todo => deleteEntities M todo entities totalBatches (currentBatch + 1)
                    (log_event (DTimeout timeoutBetweenBatches) w1)
      | O => w1
      end
    else w1.
Proof. by destruct todo. Qed.

Lemma onEntities_unfold (fuel : nat) (entityKind : string) (entities : list Key) (w : world Key) :
  entities ≠ [] →
  onEntities M (S fuel) entityKind entities w
  = let totalBatches := ceil_div (length entities) maxEntitiesPerBatch in
    let w1 := deleteEntities M totalBatches entities totalBatches 0 w in
    onEntities M fuel entityKind (run_query None w1).1 (run_query None w1).2.
Proof. by destruct entities. Qed.

Lemma onEntities_nil (fuel : nat) (entityKind : string) (w : world Key) :
  onEntities M fuel entityKind [] w
  = Some (Success ("All " +:+ entityKind +:+ " deleted successfully."), w).
Proof. by destruct fuel. Qed.

(** Deleting, batch after batch, every key of a list leaves none of them. *)
Lemma filter_out_all (l : list Key) (batches : list (list Key)) :
  (∀ k, k ∈ l → ∃ b, b ∈ batches ∧ k ∈ b) →
  foldl (λ store b, filter (λ k, k ∉ b) store) l batches = [].
Proof.
  revert l. induction batches as [|b batches IH]; intros l Hcover; simpl.
  - destruct l as [|k l]; [done|]. destruct (Hcover k) as (b & Hb & _); [left|].
    by apply elem_of_nil in Hb.
  - apply IH. intros k [Hnot Hk]%list_elem_of_filter.
    destruct (Hcover k Hk) as (b' & [->|Hb']%elem_of_cons & Hkb); [done|]. by exists b'.
Qed.
End DeleteAllFacts.


Section DeleteAll1200.
Context {Key : Type} `{EqDecision Key}.

Lemma Model_delete_eq (M : deleteModel) (keys : list Key) (clearQueries : bool) (w : world Key) :
  Model_delete M keys clearQueries w
  = World (filter (λ k, k ∉ keys) (w_store w))
          (w_log w ++ DsDelete keys ::
             if dm_hasCache M then [DClearCache keys clearQueries] else []).
Proof.
  unfold Model_delete, log_event. destruct (dm_hasCache M); simpl; by rewrite <- ?app_assoc.
Qed.

(** C3: deleteAll on a kind that holds exactly 1200 entities, with no pre
    hooks on delete, runs the capped query, deletes three batches of 500,
    500 and 200 keys one after the other, waiting the inter-batch delay
    between them, runs the capped query again and stops on its empty answer.
    The log is the whole sequence of calls; [fuel] is the number of further
    queries allowed, one being enough. *)
Theorem deleteAll_1200_entities (M : deleteModel) (entityKind : string) (store : list Key)
    (fuel : nat) :
  dm_hasPreDelete M = false →
  length store = 1200 →
  let batch1 := take 500 store in
  let batch2 := take 500 (drop 500 store) in
  let batch3 := drop 1000 store in
  let cleared keys clearQueries :=
    if dm_hasCache M then [DClearCache keys clearQueries] else [] in
  let log :=
    [DQuery limitDataPerQuery (Some false); DsDelete batch1] ++ cleared batch1 true ++
    [DTimeout 500; DsDelete batch2] ++ cleared batch2 false ++
    [DTimeout 500; DsDelete batch3] ++ cleared batch3 false ++
    [DQuery limitDataPerQuery None] in
  deleteAll M (S fuel) entityKind (World store [])
    = Some (Success ("All " +:+ entityKind +:+ " deleted successfully."), World [] log) ∧
  delete_batch_sizes log = [500; 500; 200].
Proof.
  intros Hpre Hlen batch1 batch2 batch3 cleared log.
  assert (Hlimit : (1200 ≤ limitDataPerQuery)%nat) by (apply Nat.leb_le; vm_compute; reflexivity).
  assert (Hne : store ≠ []) by (intros ->; discriminate Hlen).
  assert (Hb3 : take maxEntitiesPerBatch (drop 1000 store) = drop 1000 store).
  { apply take_ge. rewrite length_drop, Hlen. apply Nat.leb_le. vm_compute. reflexivity. }
  assert (Hstore : filter (λ k, k ∉ batch3) (filter (λ k, k ∉ batch2)
                      (filter (λ k, k ∉ batch1) store)) = []).
  { apply (filter_out_all store [batch1; batch2; batch3]).
    intros k Hk.
    rewrite <- (take_drop 500 store) in Hk. apply elem_of_app in Hk as [Hk|Hk].
    { exists batch1. split; [left | done]. }
    rewrite <- (take_drop 500 (drop 500 store)), drop_drop in Hk.
    apply elem_of_app in Hk as [Hk|Hk].
    { exists batch2. split; [right; left | done]. }
    exists batch3. split; [right; right; left | done]. }
  split.
  - unfold deleteAll, run_query. cbn [w_store].
    rewrite take_ge by (rewrite Hlen; exact Hlimit).
    rewrite onEntities_unfold by done. cbv zeta.
    rewrite Hlen. change (ceil_div 1200 maxEntitiesPerBatch) with 3.
    rewrite deleteEntities_unfold. cbv zeta. rewrite Hpre.
    change (Nat.ltb (0 + 1) 3) with true. cbv iota.
    rewrite deleteEntities_unfold. cbv zeta. rewrite Hpre.
    change (Nat.ltb (0 + 1 + 1) 3) with true. cbv iota.
    rewrite deleteEntities_unfold. cbv zeta. rewrite Hpre.
    change (Nat.ltb (0 + 1 + 1 + 1) 3) with false. cbv iota.
    change ((0 + 1 + 1) * maxEntitiesPerBatch) with 1000.
    change ((0 + 1) * maxEntitiesPerBatch) with 500.
    change (0 * maxEntitiesPerBatch) with 0.
    rewrite Hb3. change maxEntitiesPerBatch with 500.
    change timeoutBetweenBatches with 500.
    change (Nat.eqb (0 + 1 + 1) 0) with false. change (Nat.eqb (0 + 1) 0) with false.
    change (Nat.eqb 0 0) with true. rewrite drop_0.
    fold batch1 batch2 batch3.
    rewrite !Model_delete_eq. unfold run_query, log_event. cbn [fst snd w_store w_log].
    rewrite Hstore, take_nil, onEntities_nil.
    do 3 f_equal. unfold log, cleared. rewrite <- !app_assoc. reflexivity.
  - assert (Hsizes : length batch1 = 500 ∧ length batch2 = 500 ∧ length batch3 = 200).
    { unfold batch1, batch2, batch3.
      rewrite !length_take, !length_drop, Hlen. by vm_compute. }
    destruct Hsizes as (H1 & H2 & H3).
    unfold log, cleared, delete_batch_sizes.
    destruct (dm_hasCache M); cbn [omap list_omap app]; by rewrite H1, H2, H3.
Qed.
End DeleteAll1200.

Lemma deleteAll_1200_entities_witness :
  dm_hasPreDelete (DeleteModel false false) = false ∧
  length (seq 0 1200) = 1200 ∧
  delete_batch_sizes
    ([DQuery limitDataPerQuery (Some false); DsDelete (take 500 (seq 0 1200))] ++ [] ++
     [DTimeout 500; DsDelete (take 500 (drop 500 (seq 0 1200)))] ++ [] ++
     [DTimeout 500; DsDelete (drop 1000 (seq 0 1200))] ++ [] ++
     [DQuery limitDataPerQuery None]) = [500; 500; 200].
Proof.
  split; [reflexivity|]. split; [reflexivity|].
  apply (deleteAll_1200_entities (DeleteModel false false) "User" (seq 0 1200) 0);
    reflexivity.
Defined.

Section DeleteAllTotal.
Context {Key : Type} `{EqDecision Key}.
Variable M : deleteModel.

Lemma Model_delete_store (keys : list Key) (clearQueries : bool) (w : world Key) :
  w_store (Model_delete M keys clearQueries w) = filter (λ k, k ∉ keys) (w_store w).
Proof. by rewrite Model_delete_eq. Qed.

(** Deleting one batch, in one call or key by key, removes its keys and
    nothing else is added. *)
Lemma delete_batch_store (batch : list Key) (clearQueries : bool) (w : world Key) :
  let w1 := if dm_hasPreDelete M
            then foldl (λ w entity, Model_delete M [entity] true w) w batch
            else Model_delete M batch clearQueries w in
  w_store w1 `sublist_of` w_store w ∧ ∀ k, k ∈ w_store w1 → k ∉ batch.
Proof.
  destruct (dm_hasPreDelete M); simpl.
  - revert w. induction batch as [|e batch IH]; intros w; simpl.
    + split; [done|]. intros k _. apply not_elem_of_nil.
    + destruct (IH (Model_delete M [e] true w)) as [Hsub Hnot].
      rewrite Model_delete_store in Hsub. split.
      * etrans; [exact Hsub | apply sublist_filter].
      * intros k Hk. apply not_elem_of_cons. split; [|by apply Hnot].
        apply (elem_of_sublist _ _ _ Hk) in Hsub.
        apply list_elem_of_filter in Hsub as [Hne _]. intros ->. apply Hne. left.
  - rewrite Model_delete_store. split; [apply sublist_filter|].
    by intros k [Hk _]%list_elem_of_filter.
Qed.

Lemma deleteEntities_store (todo : nat) (entities : list Key) (totalBatches currentBatch : nat)
    (w : world Key) :
  let w' := deleteEntities M todo entities totalBatches currentBatch w in
  w_store w' `sublist_of` w_store w ∧
  ∀ k i, k ∈ w_store w' → (currentBatch ≤ i)%nat → (i ≤ currentBatch + todo)%nat →
         (i < totalBatches)%nat ∨ i = currentBatch → k ∉ batch_at entities i.
Proof.
  revert currentBatch w. induction todo as [|todo IH]; intros currentBatch w;
    cbv zeta; rewrite deleteEntities_unfold; cbv zeta;
    pose proof (delete_batch_store (batch_at entities currentBatch)
                  (Nat.eqb currentBatch 0) w) as [Hsub Hnot]; cbv zeta in Hsub, Hnot;
    unfold batch_at in Hsub, Hnot at 1;
    destruct (Nat.ltb_spec (currentBatch + 1) totalBatches) as [Hlt|Hge].
  - split; [done|]. intros k i Hk Hlo Hhi _.
    assert (i = currentBatch) as -> by lia. by apply Hnot.
  - split; [done|]. intros k i Hk Hlo Hhi _.
    assert (i = currentBatch) as -> by lia. by apply Hnot.
  - set (w1 := if dm_hasPreDelete M then _ else _) in *.
    destruct (IH (currentBatch + 1)%nat (log_event (DTimeout timeoutBetweenBatches) w1))
      as [Hsub' Hnot'].
    split; [by etrans|]. intros k i Hk Hlo Hhi Hi.
    destruct (decide (i = currentBatch)) as [->|Hne].
    + apply Hnot. by eapply elem_of_sublist.
    + apply Hnot'; [done|lia|lia|left; lia].
  - split; [done|]. intros k i Hk Hlo Hhi Hi.
    assert (i = currentBatch) as -> by lia. by apply Hnot.
Qed.

Lemma div_lt_ceil_div (j n d : nat) : (0 < d)%nat → (j < n)%nat → (j / d < ceil_div n d)%nat.
Proof.
  intros Hd Hj. unfold ceil_div.
  pose proof (Nat.div_mod_eq n d) as Hn.
  destruct (Nat.eqb_spec (n mod d) 0) as [Hz|Hnz].
  - rewrite Nat.add_0_r. apply Nat.Div0.div_lt_upper_bound. lia.
  - pose proof (Nat.Div0.div_le_mono j n d ltac:(lia)). lia.
Qed.

(** Every entity falls into one of the [totalBatches] batches. *)
Lemma batches_cover (entities : list Key) (k : Key) :
  k ∈ entities →
  ∃ i, (i < ceil_div (length entities) maxEntitiesPerBatch)%nat ∧ k ∈ batch_at entities i.
Proof.
  intros [j Hj]%list_elem_of_lookup.
  assert (Hpos : (0 < maxEntitiesPerBatch)%nat) by (unfold maxEntitiesPerBatch; lia).
  exists (j / maxEntitiesPerBatch)%nat. split.
  - apply div_lt_ceil_div; [done|]. by eapply lookup_lt_Some.
  - apply list_elem_of_lookup. exists (j mod maxEntitiesPerBatch)%nat.
    unfold batch_at. rewrite lookup_take_lt by (by apply Nat.mod_upper_bound; lia).
    rewrite lookup_drop. rewrite <- Hj. f_equal.
    pose proof (Nat.div_mod_eq j maxEntitiesPerBatch). lia.
Qed.

Lemma sublist_missing_shorter (l1 l2 : list Key) (x : Key) :
  l1 `sublist_of` l2 → x ∈ l2 → x ∉ l1 → (length l1 < length l2)%nat.
Proof.
  induction 1 as [|y l1 l2 Hsub IH|y l1 l2 Hsub IH]; intros Hin Hnot.
  - by apply elem_of_nil in Hin.
  - apply not_elem_of_cons in Hnot as [Hne Hnot].
    apply elem_of_cons in Hin as [?|Hin]; [done|]. simpl. specialize (IH Hin Hnot). lia.
  - apply sublist_length in Hsub. simpl. lia.
Qed.

(** One round of batches leaves fewer keys in the store than it found. *)
Lemma round_shrinks_store (w : world Key) :
  w_store w ≠ [] →
  let entities := take limitDataPerQuery (w_store w) in
  let totalBatches := ceil_div (length entities) maxEntitiesPerBatch in
  (length (w_store (deleteEntities M totalBatches entities totalBatches 0 w))
   < length (w_store w))%nat.
Proof.
  intros Hne entities totalBatches.
  destruct (deleteEntities_store totalBatches entities totalBatches 0 w) as [Hsub Hnot].
  cbv zeta in Hsub, Hnot.
  destruct (w_store w) as [|h rest] eqn:Hstore; [done|].
  assert (Hh : h ∈ entities).
  { unfold entities. change limitDataPerQuery with (S (pred limitDataPerQuery)). left. }
  destruct (batches_cover entities h Hh) as (i & Hi & Hbatch). fold totalBatches in Hi.
  apply (sublist_missing_shorter _ _ h Hsub); [left|].
  intros Hin. apply (Hnot h i); [done | lia | lia | by left | done].
Qed.

Lemma onEntities_total (entityKind : string) (fuel : nat) (w : world Key) (log : list (deleteEvent Key)) :
  (length (w_store w) ≤ fuel)%nat →
  ∃ w', onEntities M fuel entityKind (take limitDataPerQuery (w_store w))
          (World (w_store w) log)
        = Some (Success ("All " +:+ entityKind +:+ " deleted successfully."), w') ∧
        w_store w' = [].
Proof.
  revert w log. induction fuel as [|fuel IH]; intros w log Hlen.
  - destruct (w_store w) as [|h rest] eqn:Hstore; [|simpl in Hlen; lia].
    rewrite take_nil, onEntities_nil. by eexists.
  - destruct (decide (w_store w = [])) as [Hnil|Hne].
    + rewrite Hnil, take_nil, onEntities_nil. by eexists.
    + assert (Hentities : take limitDataPerQuery (w_store w) ≠ []).
      { destruct (w_store w) as [|h rest]; [done|].
        by change limitDataPerQuery with (S (pred limitDataPerQuery)). }
      rewrite onEntities_unfold by done. cbv zeta. unfold run_query, log_event.
      cbn [fst snd]. 
      pose proof (round_shrinks_store (World (w_store w) log) Hne) as Hshrink.
      cbv zeta in Hshrink. cbn [w_store] in Hshrink.
      set (w1 := deleteEntities M _ _ _ 0 _) in *.
      apply (IH w1). lia.
Qed.

(** X1: deleteAll terminates: as many further queries as the store holds
    keys are always enough; it then answers with its success message, and
    the store ends empty. *)
Theorem deleteAll_total (entityKind : string) (store : list Key) (fuel : nat) :
  (length store ≤ fuel)%nat →
  ∃ w', deleteAll M fuel entityKind (World store [])
        = Some (Success ("All " +:+ entityKind +:+ " deleted successfully."), w') ∧
        w_store w' = [].
Proof.
  intros Hlen. unfold deleteAll, run_query, log_event. cbn [w_store w_log].
  by apply (onEntities_total entityKind fuel (World store [])).
Qed.
End DeleteAllTotal.

(** ** Model.populate *)

Section PopulateMissing.
Context {Key : Type} `{EqDecision Key}.
Abbreviation value := (value Key).
Variable keyToString : Key → string.
Variable key_ident : Key → value.
Variable embedded_plain : Key → gmap string value → result (gmap string value).
Variable store : Key → option (gmap string value).
Variable inherited_member : string → value.

Lemma level_single_missing (o : populateOptions) (ref : populateRef) (root : value)
    (cache : gmap string (option (gmap string value))) (log : list (fetchEvent Key)) :
  truthy (get_path root (split_path (ref_path ref))) = false →
  fetchRefsEntitiesRefsAtLevel keyToString key_ident embedded_plain store inherited_member o [ref]
    (PopulateWorld [root] cache log)
  = (Return (), PopulateWorld [set_path root (split_path (ref_path ref)) VNull] cache log).
Proof.
  intros Hfalsy. unfold fetchRefsEntitiesRefsAtLevel.
  cbn [roots collect_meta getPopulateMetaForEntity]. rewrite Hfalsy.
  cbn [negb fmap list_fmap keysToFetch loader_cache fetch_log].
  destruct (p_transaction o) as [t|].
  - destruct (not_a_Transaction t); cbn; by rewrite ?app_nil_r.
  - cbn. reflexivity.
Qed.

(** C5 (as amended): populating [address] and then [address.addressBook]
    on a root entity whose [address] holds no key resolves, makes no fetch,
    and writes null at [address.addressBook]: [address] becomes an object
    whose only field, [addressBook], is null.  Asking for the nested path
    alone does the same when [address] is absent. *)
Theorem populate_missing_reference_sets_null (o : populateOptions)
    (cls : option Key) (props : gmap string value) (dsKEY : option Key)
    (select0 select1 : list string)
    (cache : gmap string (option (gmap string value))) (log : list (fetchEvent Key)) :
  no_key (props !! "address") →
  let populated :=
    VObject cls (<["address" := plain {[ "addressBook" := VNull ]}]> props) dsKEY in
  populate keyToString key_ident embedded_plain store inherited_member o
    [[PopulateRef "address" select0]; [PopulateRef "address.addressBook" select1]]
    (PopulateWorld [VObject cls props dsKEY] cache log)
  = (Return (), PopulateWorld [populated] cache log) ∧
  (props !! "address" = None →
   populate keyToString key_ident embedded_plain store inherited_member o
     [[PopulateRef "address.addressBook" select1]]
     (PopulateWorld [VObject cls props dsKEY] cache log)
   = (Return (), PopulateWorld [populated] cache log)) ∧
  get_path populated ["address"; "addressBook"] = VNull ∧
  path_present populated ["address"; "addressBook"] = true.
Proof.
  intros Hno populated.
  assert (Hp0 : split_path "address" = ["address"]) by reflexivity.
  assert (Hp1 : split_path "address.addressBook" = ["address"; "addressBook"]) by reflexivity.
  split_and!.
  - cbn [populate]. unfold then_, then2, resolve.
    rewrite level_single_missing; cbn [ref_path]; rewrite Hp0.
    2: { cbn. by destruct Hno as [->|[->| ->]]. }
    rewrite level_single_missing; cbn [ref_path]; rewrite Hp1.
    2: { cbn. by rewrite lookup_insert_eq. }
    cbn. rewrite lookup_insert_eq. cbn. by rewrite insert_insert_eq.
  - intros Hnone. cbn [populate]. unfold then_, then2, resolve.
    rewrite level_single_missing; cbn [ref_path]; rewrite Hp1.
    2: { cbn. by rewrite Hnone. }
    cbn. by rewrite Hnone.
  - cbn. by rewrite lookup_insert_eq.
  - cbn. by rewrite lookup_insert_eq.
Qed.
End PopulateMissing.

Lemma populate_missing_reference_sets_null_witness :
  no_key ((∅ : gmap string (value string)) !! "address") ∧
  PopulateSamples.run PopulateSamples.with_loader
    [[PopulateSamples.address_ref]; [PopulateSamples.addressBook_ref]] [plain ∅]
  = (Return (),
     PopulateWorld [plain (<["address" := plain {[ "addressBook" := VNull ]}]> ∅)] ∅ []).
Proof.
  split; [by left|].
  apply (populate_missing_reference_sets_null (λ k, k) VString PopulateSamples.as_is
           PopulateSamples.one_address PopulateSamples.a_method PopulateSamples.with_loader None ∅ None ["*"] ["*"] ∅ []).
  by left.
Defined.

(** C5 as stated fails: the nested path is absent from the record before
    the call and present after it. *)
Lemma populate_writes_the_missing_nested_path :
  path_present (plain ∅ : value string) ["address"; "addressBook"] = false ∧
  ∃ populated,
    PopulateSamples.run PopulateSamples.with_loader
      [[PopulateSamples.address_ref]; [PopulateSamples.addressBook_ref]] [plain ∅]
    = (Return (), PopulateWorld [populated] ∅ []) ∧
    path_present populated ["address"; "addressBook"] = true.
Proof.
  split; [reflexivity|]. eexists. split; [vm_compute; reflexivity | reflexivity].
Qed.

Section PopulateDedup.
Context {Key : Type} `{EqDecision Key}.
Abbreviation value := (value Key).
Variable keyToString : Key → string.
Variable key_ident : Key → value.
Variable embedded_plain : Key → gmap string value → result (gmap string value).
Variable store : Key → option (gmap string value).
Variable inherited_member : string → value.















































End PopulateDedup.


(** Why the paths of a level are taken to part ways: a path that leads
    through another reads a property of the key held there, and its record
    (here none, so null) is then written into the record spliced in for
    that key. *)
Lemma populate_path_through_a_key :
  let home := VObject (Some PopulateSamples.paris)
                      {[ "owner" := PopulateSamples.key_object "User/9" ]} None in
  (PopulateSamples.run PopulateSamples.with_loader
     [[PopulateRef "home" ["*"]; PopulateRef "home.owner" ["*"]]]
     [plain {[ "home" := home ]}]).1 = Return () ∧
  roots (PopulateSamples.run PopulateSamples.with_loader
           [[PopulateRef "home" ["*"]; PopulateRef "home.owner" ["*"]]]
           [plain {[ "home" := home ]}]).2
  = [plain {[ "home" := plain (<["owner" := VNull]>
                                 (<["id" := VString PopulateSamples.paris]>
                                    {[ "city" := VString "Paris" ]})) ]}].
Proof. split; vm_compute; reflexivity. Qed.


(** Two paths of one entity that hold the same key: the map from
    stringified key to path keeps the later path only, so the record is
    spliced in twice there and the earlier path keeps its raw key. *)
Lemma populate_same_key_on_two_paths :
  PopulateSamples.run PopulateSamples.with_loader
    [[PopulateRef "home" ["*"]; PopulateRef "work" ["*"]]]
    [plain (<["home" := PopulateSamples.key_object PopulateSamples.paris]>
              {[ "work" := PopulateSamples.key_object PopulateSamples.paris ]})]
  = (Return (),
     PopulateWorld
       [plain (<["home" := PopulateSamples.key_object PopulateSamples.paris]>
                 {[ "work" := plain (<["id" := VString PopulateSamples.paris]>
                                       {[ "city" := VString "Paris" ]}) ]})]
       {[ PopulateSamples.paris := Some {[ "city" := VString "Paris" ]} ]}
       [LoaderGet [PopulateSamples.paris]]).
Proof. vm_compute. reflexivity. Qed.

(** * Further properties

    Properties of the embedded code beyond the numbered claims. *)

(** ** Model.deleteAll, any store *)

Section DeleteAllBatches.
Context {Key : Type} `{EqDecision Key}.
Variable M : deleteModel.

Lemma delete_batch_sizes_app (l1 l2 : list (deleteEvent Key)) :
  delete_batch_sizes (l1 ++ l2) = delete_batch_sizes l1 ++ delete_batch_sizes l2.
Proof. unfold delete_batch_sizes. apply omap_app. Qed.

Lemma Model_delete_bounded (keys : list Key) (clearQueries : bool) (w : world Key) :
  (length keys ≤ maxEntitiesPerBatch)%nat →
  batches_bounded w → batches_bounded (Model_delete M keys clearQueries w).
Proof.
  intros Hlen Hw. unfold batches_bounded in *. rewrite Model_delete_eq.
  cbn [w_log]. rewrite delete_batch_sizes_app. apply Forall_app. split; [done|].
  destruct (dm_hasCache M); cbn [delete_batch_sizes omap list_omap]; (apply Forall_cons; split; [done|by apply Forall_nil]).
Qed.

Lemma log_event_bounded (ev : deleteEvent Key) (w : world Key) :
  (∀ keys, ev ≠ DsDelete keys) → batches_bounded w → batches_bounded (log_event ev w).
Proof.
  intros Hev Hw. unfold batches_bounded, log_event in *. cbn [w_log].
  rewrite delete_batch_sizes_app. apply Forall_app. split; [done|].
  destruct ev; cbn; try (by apply Forall_nil). by destruct (Hev keys).
Qed.

Lemma delete_batch_bounded (batch : list Key) (clearQueries : bool) (w : world Key) :
  (length batch ≤ maxEntitiesPerBatch)%nat →
  batches_bounded w →
  batches_bounded (if dm_hasPreDelete M
                   then foldl (λ w entity, Model_delete M [entity] true w) w batch
                   else Model_delete M batch clearQueries w).
Proof.
  intros Hlen Hw. destruct (dm_hasPreDelete M).
  - clear Hlen. revert w Hw. induction batch as [|e batch IH]; intros w Hw; simpl; [done|].
    apply IH. apply Model_delete_bounded; [|done]. unfold maxEntitiesPerBatch. simpl. lia.
  - by apply Model_delete_bounded.
Qed.

Lemma deleteEntities_bounded (todo : nat) (entities : list Key) (totalBatches currentBatch : nat)
    (w : world Key) :
  batches_bounded w →
  batches_bounded (deleteEntities M todo entities totalBatches currentBatch w).
Proof.
  revert currentBatch w. induction todo as [|todo IH]; intros currentBatch w Hw;
    rewrite deleteEntities_unfold; cbv zeta;
    assert (Hb := delete_batch_bounded
                  (take maxEntitiesPerBatch (drop (currentBatch * maxEntitiesPerBatch) entities))
                  (Nat.eqb currentBatch 0) w
                  ltac:(rewrite length_take; lia) Hw);
    destruct (Nat.ltb (currentBatch + 1) totalBatches); try done.
  apply IH. by apply log_event_bounded.
Qed.

Lemma onEntities_bounded (fuel : nat) (entityKind : string) (entities : list Key)
    (w : world Key) (r : deleteAllResult) (w' : world Key) :
  batches_bounded w →
  onEntities M fuel entityKind entities w = Some (r, w') → batches_bounded w'.
Proof.
  revert entities w. induction fuel as [|fuel IH]; intros entities w Hw Hrun.
  - destruct entities; simpl in Hrun; [|done]. by injection Hrun as _ <-.
  - destruct (decide (entities = [])) as [->|Hne].
    + rewrite onEntities_nil in Hrun. by injection Hrun as _ <-.
    + rewrite onEntities_unfold in Hrun by done. cbv zeta in Hrun.
      apply IH in Hrun; [done|]. unfold run_query. cbn [snd].
      apply log_event_bounded; [done|]. by apply deleteEntities_bounded.
Qed.

(** X2: whatever the store holds, deleteAll ends, and none of its calls
    to ds.delete carries more than 500 keys (the most the Datastore accepts
    in one call), with or without hooks on delete. *)
Theorem deleteAll_batches_within_limit (fuel : nat) (entityKind : string) (store : list Key) :
  (length store ≤ fuel)%nat →
  ∃ r w', deleteAll M fuel entityKind (World store []) = Some (r, w') ∧
          Forall (λ n, (n ≤ 500)%nat) (delete_batch_sizes (w_log w')).
Proof.
  intros Hlen. unfold deleteAll, run_query, log_event. cbn [w_store w_log].
  destruct (onEntities_total M entityKind fuel (World store [])
              ([] ++ [DQuery limitDataPerQuery (Some false)]) Hlen) as (w' & Hrun & _).
  cbn [w_store] in Hrun. eexists _, w'. split; [exact Hrun|].
  refine (onEntities_bounded _ _ _ _ _ _ _ Hrun).
  unfold batches_bounded. cbn. by apply Forall_nil.
Qed.
End DeleteAllBatches.

Lemma deleteAll_batches_within_limit_witness :
  ∃ r w', deleteAll (DeleteModel true false) 3 "User" (World [4; 5; 6]%nat []) = Some (r, w') ∧
          Forall (λ n, (n ≤ 500)%nat) (delete_batch_sizes (w_log w')).
Proof.
  apply (deleteAll_batches_within_limit (DeleteModel true false) 3 "User" [4; 5; 6]%nat).
  simpl. lia.
Defined.

Lemma deleteAll_total_witness :
  ∃ w', deleteAll (DeleteModel false true) 2 "User" (World [7; 8]%nat [])
        = Some (Success ("All " +:+ "User" +:+ " deleted successfully."), w')
        ∧ w_store w' = [].
Proof. apply (deleteAll_total (DeleteModel false true) "User" [7; 8]%nat 2). simpl. lia. Defined.

(** ** Model.populate: projection and errors *)

Section PopulateProjection.
Context {Key : Type} `{EqDecision Key}.
Abbreviation value := (value Key).
Variable inherited_member : string → value.

Lemma foldl_insert_select (data : gmap string value) (select : list string)
    (acc : gmap string value) (field : string) :
  foldl (λ acc field, <[field := field_or_null inherited_member data field]> acc) acc select
    !! field
  = if decide (field ∈ select)
    then Some (field_or_null inherited_member data field)
    else acc !! field.
Proof.
  revert acc. induction select as [|f select IH]; intros acc; simpl; [done|].
  rewrite IH. destruct (decide (field ∈ select)) as [Hin|Hin].
  - by rewrite decide_True by (by right).
  - destruct (decide (field = f)) as [->|Hne].
    + rewrite decide_True by left. by rewrite lookup_insert_eq.
    + rewrite decide_False by (intros [?|?]%elem_of_cons; done).
      by rewrite lookup_insert_ne.
Qed.

(** X3: when populate is given fields to select for a reference (and '*'
    is not among them), the object it projects from the fetched record holds
    exactly those fields.  A selected field the record holds with a truthy
    value keeps it, and one it holds with a falsy value (0, the empty
    string, false, null, undefined) is null.  A selected field the record
    does not hold is null, unless its name is one every object inherits
    (toString, constructor, ...): it then comes out as the inherited
    member.  No field that is not selected comes through. *)
Theorem project_selected_fields (select : list string) (data plain_json : gmap string value) :
  select ≠ [] → "*" ∉ select →
  (∀ field, field ∈ select →
     project inherited_member select data plain_json !! field
     = Some (match data !! field with
             | Some v => if truthy v then v else VNull
             | None => if inherits field then inherited_member field else VNull
             end)) ∧
  (∀ field, field ∉ select → project inherited_member select data plain_json !! field = None).
Proof.
  intros Hne Hstar. unfold project.
  rewrite bool_decide_eq_false_2 by done. rewrite bool_decide_eq_false_2 by done.
  cbn [negb andb]. split; intros field Hfield; rewrite foldl_insert_select.
  - by rewrite decide_True by done.
  - by rewrite decide_False by done.
Qed.
End PopulateProjection.

Lemma project_selected_fields_witness :
  let record : gmap string (value nat) :=
    {[ "city" := VString "Paris"; "zip" := VNumber 0; "street" := VString "x" ]} in
  let inherited_member := λ _ : string, VObject (Key := nat) None ∅ None in
  let select := ["city"; "zip"; "toString"] in
  (∀ field, field ∈ select →
     project inherited_member select record ∅ !! field
     = Some (match record !! field with
             | Some v => if truthy v then v else VNull
             | None => if inherits field then inherited_member field else VNull
             end)) ∧
  (∀ field, field ∉ select → project inherited_member select record ∅ !! field = None).
Proof.
  intros record inherited_member select.
  apply (project_selected_fields inherited_member select record ∅); [done|].
  intros Hin. by repeat (apply elem_of_cons in Hin as [?|Hin]; [done|]); apply elem_of_nil in Hin.
Defined.

Section PopulateNotAKey.
Context {Key : Type} `{EqDecision Key}.
Abbreviation value := (value Key).
Variable keyToString : Key → string.
Variable key_ident : Key → value.
Variable embedded_plain : Key → gmap string value → result (gmap string value).
Variable store : Key → option (gmap string value).
Variable inherited_member : string → value.

(** X4: a reference path that holds something other than a key (a truthy
    value that is not a Key instance) makes populate reject with the error
    that names the path, before the store is asked for anything and with
    the entities as they were: here for the first path of the first level
    on the first entity, with a transaction or without. *)
Theorem populate_rejects_what_is_not_a_key (o : populateOptions) (ref : populateRef)
    (level : list populateRef) (levels : list (list populateRef))
    (r : value) (rest : list value)
    (cache : gmap string (option (gmap string value))) (log : list (fetchEvent Key)) :
  truthy (get_path r (split_path (ref_path ref))) = true →
  held_key (get_path r (split_path (ref_path ref))) = None →
  populate keyToString key_ident embedded_plain store inherited_member o ((ref :: level) :: levels)
    (PopulateWorld (r :: rest) cache log)
  = (Throw (Error ("[gstore] " +:+ ref_path ref +:+
                   " is not a Datastore Key. Reference entity can't be fetched.")),
     PopulateWorld (r :: rest) cache log).
Proof.
  intros Htruthy Hkey.
  cbn [populate]. unfold then_, then2, fetchRefsEntitiesRefsAtLevel.
  cbn [roots collect_meta getPopulateMetaForEntity]. rewrite Htruthy. cbn [negb].
  destruct (get_path r (split_path (ref_path ref))) as [| | | | | |[k|] props sym]; try done.
Qed.
End PopulateNotAKey.

Lemma populate_rejects_what_is_not_a_key_witness :
  PopulateSamples.run PopulateSamples.with_loader [[PopulateSamples.address_ref]]
    [plain {[ "address" := VString "12 rue de la Paix" ]}; PopulateSamples.user1]
  = (Throw (Error ("[gstore] " +:+ "address" +:+
                   " is not a Datastore Key. Reference entity can't be fetched.")),
     PopulateWorld [plain {[ "address" := VString "12 rue de la Paix" ]}; PopulateSamples.user1]
                   ∅ []).
Proof.
  apply (populate_rejects_what_is_not_a_key (λ k, k) VString PopulateSamples.as_is
           PopulateSamples.one_address PopulateSamples.a_method PopulateSamples.with_loader
           PopulateSamples.address_ref [] []); reflexivity.
Defined.

(** ** Model.update: replace, merge, and the transaction it opens *)

Ltac run_update :=
  repeat first
    [ progress cbn [fst snd app up_key up_data]
    | progress unfold then_, then2, catch, resolve, reject, call, clear_dataloader,
        onTransactionSuccess, save_onSuccess, entity_save
    | match goal with
      | |- context [match ?x with _ => _ end] =>
          match x with
          | context [match _ with _ => _ end] => fail 1
          | _ => destruct x eqn:?
          end
      | |- context [if ?x then _ else _] =>
          match x with
          | context [if _ then _ else _] => fail 1
          | _ => destruct x eqn:?
          end
      end ].

Ltac step_update :=
  cbv beta iota zeta delta [then2 then_ catch call resolve reject clear_dataloader
    onTransactionSuccess save_onSuccess entity_save opt_replace opt_dataloader opt_cache
    fst snd app up_key up_data].

Section UpdateReplace.
Context {Key : Type}.
Abbreviation value := (value Key).
Variable E : env Key.

(** X5: with [replace: true], update, in either Model, opens no
    transaction and reads nothing, and whatever it writes is the entity
    built from exactly the data passed, under the key of the update: the
    stored record is never merged in.  Outside a transaction, and when the
    validation accepts the entity, that write to the store is the first
    call made. *)
Theorem update_replace_writes_without_reading (key : Key)
    (cls : option Key) (props : gmap string value) (dsKEY : option Key)
    (transaction : option txObject) (dataloader : bool) (cache : option bool) :
  let data := VObject cls props dsKEY in
  let o := UpdateOptions true dataloader cache in
  let written ev :=
    reads_or_opens ev = false ∧
    saved ev = (λ _, (Some key, buildEntityData E props)) <$> saved ev in
  (Forall written (UpdateJs.update E key data transaction o []).2 ∧
   Forall written (UpdateTs.update E key data transaction o []).2) ∧
  (entity_validate E (buildEntityData E props) = None →
   head (UpdateJs.update E key data None o []).2
     = Some (EvDsSave (Some key) (buildEntityData E props)) ∧
   head (UpdateTs.update E key data None o []).2
     = Some (EvDsSave (Some key) (buildEntityData E props))).
Proof.
  intros data o written. subst data o. split; [split|].
  - unfold UpdateJs.update. cbn [opt_replace].
    unfold UpdateJs.saveEntity, UpdateJs.onEntityUpdated, UpdateJs.onUpdateError,
      UpdateJs.onTransactionError.
    run_update; repeat (apply Forall_cons; split; [by split|]); try (by apply Forall_nil).
  - unfold UpdateTs.update. cbn [opt_replace].
    unfold UpdateTs.saveEntity, UpdateTs.onEntityUpdated, UpdateTs.onUpdateError.
    run_update; repeat (apply Forall_cons; split; [by split|]); try (by apply Forall_nil).
  - intros Hvalid. split.
    + unfold UpdateJs.update. cbn [opt_replace].
      unfold UpdateJs.saveEntity, UpdateJs.onEntityUpdated, UpdateJs.onUpdateError,
        UpdateJs.onTransactionError.
      step_update. rewrite Hvalid. run_update; reflexivity.
    + unfold UpdateTs.update. cbn [opt_replace].
      unfold UpdateTs.saveEntity, UpdateTs.onEntityUpdated, UpdateTs.onUpdateError.
      step_update. rewrite Hvalid. run_update; reflexivity.
Qed.

(** X6: when the TypeScript update opens the transaction itself (none is
    passed, no replace), it ends that transaction exactly once on every
    path.  Fulfilled: one commit and no rollback.  Rejected, whatever
    failed (run, the read, a missing entity, validation, the commit, the
    cache): the rollback of that transaction is the last call made; a
    commit comes before it only when the failure came with or after the
    commit. *)
Theorem ts_update_settles_its_own_transaction (key : Key) (data : value)
    (dataloader : bool) (cache : option bool) :
  let t := ds_transaction E in
  match UpdateTs.update E key data None (UpdateOptions false dataloader cache) [] with
  | (Return _, log) => omap transaction_ending log = [Committed t]
  | (Throw _, log) =>
      last log = Some (EvRollback t) ∧
      (omap transaction_ending log = [RolledBack t] ∨
       omap transaction_ending log = [Committed t; RolledBack t])
  end.
Proof.
  intros t. unfold UpdateTs.update. cbn [opt_replace].
  unfold UpdateTs.getAndUpdate, UpdateTs.getEntity, UpdateTs.saveEntity,
    UpdateTs.onEntityUpdated, UpdateTs.onUpdateError.
  cbn [not_a_Transaction]. fold t.
  run_update; cbn; try done; try (split; [done|]; by (left + right)).
Qed.
End UpdateReplace.

Section UpdateMerge.
Context {Key : Type}.
Abbreviation value := (value Key).
Variable E : env Key.

Lemma extend_shallow_lookup (entity : gmap string value)
    (cls : option Key) (props : gmap string value) (dsKEY : option Key) (k : string) :
  extend_shallow entity (VObject cls props dsKEY) !! k
  = match props !! k with
    | Some v => if is_defined v then Some v else entity !! k
    | None => entity !! k
    end.
Proof.
  cbn [extend_shallow]. rewrite lookup_union. rewrite map_lookup_filter.
  destruct (props !! k) as [v|] eqn:Hk; cbn.
  - destruct (is_defined v) eqn:Hv.
    + rewrite option_guard_True by done. cbn. by destruct (entity !! k).
    + rewrite option_guard_False by (cbn; congruence). cbn. by destruct (entity !! k).
  - by destruct (entity !! k).
Qed.

(** X7: update without a transaction, on a key whose record exists, when
    every call succeeds and validation passes: the entity saved, and
    answered, is the stored record with the properties of [data] laid over
    it (a property passed as undefined leaves the stored value alone), under
    the key the record came with; the calls are, in this order, the opening
    and run of a transaction, one read, one save on the transaction, the
    commit (and, in the TypeScript Model, the transaction's post hooks). *)
Theorem update_saves_the_merge (key : Key)
    (cls : option Key) (new : gmap string value) (sym : option Key)
    (stored : gmap string value) (dsKEY : option Key) (cache : option bool) :
  let t := ds_transaction E in
  let data := VObject cls new sym in
  let merged := extend_shallow stored data in
  tx_constructor t = "Transaction" →
  tx_run E = Return () →
  tx_get E key = Return (Some (stored, dsKEY)) →
  entity_validate E (buildEntityData E merged) = None →
  tx_commit E = Return () →
  tx_execPostHooks E = Return () →
  hasCache E cache = false →
  (∀ k, merged !! k = match new !! k with
                      | Some v => if is_defined v then Some v else stored !! k
                      | None => stored !! k
                      end) ∧
  UpdateJs.update E key data None (UpdateOptions false false cache) []
  = (Return (Updated dsKEY (buildEntityData E merged) None),
     [EvTransaction t; EvRun t; EvGet t key; EvTxSave t dsKEY (buildEntityData E merged);
      EvCommit t]) ∧
  UpdateTs.update E key data None (UpdateOptions false false cache) []
  = (Return (Updated dsKEY (buildEntityData E merged) None),
     [EvTransaction t; EvRun t; EvGet t key; EvTxSave t dsKEY (buildEntityData E merged);
      EvCommit t; EvExecPostHooks t]).
Proof.
  intros t data merged Htx Hrun Hget Hvalid Hcommit Hhooks Hcache.
  split; [intros k; apply extend_shallow_lookup|].
  assert (Hnot : not_a_Transaction t = false).
  { unfold not_a_Transaction. rewrite Htx. reflexivity. }
  split.
  - unfold UpdateJs.update. cbn [opt_replace]. fold t.
    unfold UpdateJs.getAndUpdate, UpdateJs.getEntity, UpdateJs.saveEntity,
      UpdateJs.onEntityUpdated, UpdateJs.onUpdateError.
    step_update. rewrite Hrun. step_update. rewrite Hget. step_update. fold merged.
    rewrite Hvalid, Hnot. step_update. rewrite Hcommit. step_update. rewrite Hcache.
    reflexivity.
  - unfold UpdateTs.update. cbn [opt_replace]. fold t.
    unfold UpdateTs.getAndUpdate, UpdateTs.getEntity, UpdateTs.saveEntity,
      UpdateTs.onEntityUpdated, UpdateTs.onUpdateError.
    step_update. rewrite Hrun. step_update. rewrite Hget. step_update. fold merged.
    rewrite Hvalid, Hnot. step_update. rewrite Hcommit. step_update. rewrite Hhooks.
    step_update. rewrite Hcache. reflexivity.
Qed.
End UpdateMerge.

Lemma update_saves_the_merge_witness :
  let E := UpdateSamples.store_with_record in
  let merged := extend_shallow UpdateSamples.john UpdateSamples.email in
  (∀ k, merged !! k
        = match ({[ "email" := VString "a@b.com" ]} : gmap string (value string)) !! k with
          | Some v => if is_defined v then Some v else UpdateSamples.john !! k
          | None => UpdateSamples.john !! k
          end) ∧
  UpdateJs.update E "User/42" UpdateSamples.email None (UpdateOptions false false None) []
  = (Return (Updated (Some "User/42") (buildEntityData E merged) None),
     [EvTransaction (ds_transaction E); EvRun (ds_transaction E);
      EvGet (ds_transaction E) "User/42";
      EvTxSave (ds_transaction E) (Some "User/42") (buildEntityData E merged);
      EvCommit (ds_transaction E)]) ∧
  UpdateTs.update E "User/42" UpdateSamples.email None (UpdateOptions false false None) []
  = (Return (Updated (Some "User/42") (buildEntityData E merged) None),
     [EvTransaction (ds_transaction E); EvRun (ds_transaction E);
      EvGet (ds_transaction E) "User/42";
      EvTxSave (ds_transaction E) (Some "User/42") (buildEntityData E merged);
      EvCommit (ds_transaction E); EvExecPostHooks (ds_transaction E)]).
Proof.
  intros E merged.
  apply (update_saves_the_merge E "User/42" None {[ "email" := VString "a@b.com" ]} None
           UpdateSamples.john (Some "User/42") None); reflexivity.
Defined.

(** ** sanitize: write protection and references *)

Section SanitizeFurther.
Context {Key : Type}.
Abbreviation value := (value Key).
Abbreviation schema := (schema Key).
Variable key_props : Key → gmap string value.

(** X8: a property whose schema path says [write: false] never comes out
    of [Model.sanitize(data)], in either Model; the same call with
    [{ disabled: ['write'] }], the form entity.save uses on its own data,
    lets it through (with the string 'null' turned into null).  Stated for
    schemas that are not Joi schemas. *)
Theorem sanitize_write_protection (s : schema) (k : string) (pc : pathConfig)
    (cls : option Key) (props : gmap string value) (dsKEY : option Key) :
  let data := VObject cls props dsKEY in
  let kept := (λ v, if is_null_string v then VNull else v) <$> props !! k in
  _joi s = None →
  paths s !! k = Some pc →
  pc_write pc = Some false →
  (own_properties (ModelJs.sanitize data s (SanitizeOptions [])) !! k = None ∧
   own_properties (ModelJs.sanitize data s (SanitizeOptions ["write"])) !! k = kept) ∧
  ((own_properties <$> returned (ModelTs.sanitize key_props s data (SanitizeOptions [])))
     ≫= (.!! k) = None ∧
   (ModelTs.isRefProp s k = false →
    (own_properties <$> returned (ModelTs.sanitize key_props s data (SanitizeOptions ["write"])))
      ≫= (.!! k) = kept)).
Proof.
  intros data kept Hjoi Hpath Hwrite.
  assert (Hhas : schemaHasProperty s k = true).
  { unfold schemaHasProperty. apply bool_decide_eq_true_2. by rewrite Hpath. }
  assert (Hw : isPropWritable s k = false).
  { unfold isPropWritable. by rewrite Hpath, Hwrite. }
  split; [split|split].
  - unfold data, ModelJs.sanitize. rewrite Hjoi. cbn [own_properties].
    rewrite js_sanitize_lookup. unfold ModelJs.sanitize_prop.
    rewrite Hhas, Hw. cbn. by rewrite orb_true_r.
  - unfold data, ModelJs.sanitize. rewrite Hjoi. cbn [own_properties].
    rewrite js_sanitize_lookup. unfold ModelJs.sanitize_prop.
    rewrite Hhas, Hw. cbn. by rewrite andb_false_r.
  - unfold data, ModelTs.sanitize, ModelTs.sanitize_init. rewrite Hjoi.
    cbn [returned fmap option_fmap option_map own_properties mbind option_bind].
    rewrite ts_sanitize_lookup. unfold ModelTs.sanitize_prop.
    rewrite Hhas, Hw. cbn. by rewrite orb_true_r.
  - intros Href. unfold data, ModelTs.sanitize, ModelTs.sanitize_init. rewrite Hjoi.
    cbn [returned fmap option_fmap option_map own_properties mbind option_bind].
    rewrite ts_sanitize_lookup. unfold ModelTs.sanitize_prop.
    rewrite Hhas, Hw, Href. cbn. by rewrite andb_false_r.
Qed.

(** X9: the TypeScript sanitize turns a populated reference back into its
    key: under a schema path of type entityKey that is kept, a value that is
    an object carrying a datastore key (and not itself a Key) is replaced by
    that key, and a value that is a Key already stays as it is.  Stated for
    schemas that are not Joi schemas. *)
Theorem ts_sanitize_unpopulates_references (s : schema) (o : sanitizeOptions) (k : string)
    (cls : option Key) (props : gmap string value) (dsKEY : option Key) :
  let data := VObject cls props dsKEY in
  let out := (own_properties <$> returned (ModelTs.sanitize key_props s data o)) ≫= (.!! k) in
  _joi s = None →
  ModelTs.isRefProp s k = true →
  schemaHasProperty s k = true →
  isPropWritable s k = true →
  (∀ entity key, props !! k = Some (VObject None entity (Some key)) →
     out = Some (ModelTs.key_value key_props key)) ∧
  (∀ v, props !! k = Some v → isKey v = true → out = Some v).
Proof.
  intros data out Hjoi Href Hhas Hw.
  assert (Hout : out = ModelTs.sanitize_prop key_props s o k (props !! k)).
  { unfold out, data, ModelTs.sanitize, ModelTs.sanitize_init. rewrite Hjoi.
    cbn [returned fmap option_fmap option_map own_properties mbind option_bind].
    by rewrite ts_sanitize_lookup. }
  rewrite Hout. unfold ModelTs.sanitize_prop. rewrite Hhas, Hw, Href. cbn [negb].
  rewrite andb_false_r. cbn [orb andb].
  split.
  - intros entity key ->. reflexivity.
  - intros v -> Hkey. cbn. rewrite Hkey. cbn.
    destruct v as [| | | | | |[c|] p sy]; done.
Qed.
End SanitizeFurther.

Lemma sanitize_write_protection_witness :
  let props : gmap string (value string) :=
    <["name" := VString "null"]> (<["state" := VString "x"]> (<["admin" := VBool true]> ∅)) in
  let data := VObject None props None in
  let kept := (λ v : value string, if is_null_string v then VNull else v) <$> props !! "state" in
  (own_properties (ModelJs.sanitize data Samples.user_schema (SanitizeOptions [])) !! "state"
     = None ∧
   own_properties (ModelJs.sanitize data Samples.user_schema (SanitizeOptions ["write"]))
     !! "state" = kept) ∧
  ((own_properties <$> returned (ModelTs.sanitize Samples.no_props Samples.user_schema data
                                   (SanitizeOptions []))) ≫= (.!! "state") = None ∧
   (ModelTs.isRefProp Samples.user_schema "state" = false →
    (own_properties <$> returned (ModelTs.sanitize Samples.no_props Samples.user_schema data
                                    (SanitizeOptions ["write"]))) ≫= (.!! "state") = kept)).
Proof.
  intros props data kept.
  apply (sanitize_write_protection Samples.no_props Samples.user_schema "state" Samples.readonly
           None props None); reflexivity.
Defined.

Lemma ts_sanitize_unpopulates_references_witness :
  let s : schema string :=
    Schema {[ "address" := PathConfig (Some "entityKey") None None ]}
           (SchemaOptions (Some true) true None) None (Some {[ "address" := true ]}) in
  let props : gmap string (value string) :=
    {[ "address" := VObject None {[ "city" := VString "Paris" ]} (Some "Address/1") ]} in
  let out := (own_properties <$> returned (ModelTs.sanitize Samples.no_props s
                                             (VObject None props None) (SanitizeOptions [])))
             ≫= (.!! "address") in
  (∀ entity key, props !! "address" = Some (VObject None entity (Some key)) →
     out = Some (ModelTs.key_value Samples.no_props key)) ∧
  (∀ v, props !! "address" = Some v → isKey v = true → out = Some v).
Proof.
  intros s props out.
  apply (ts_sanitize_unpopulates_references Samples.no_props s (SanitizeOptions []) "address"
           None props None); reflexivity.
Defined.

(** ** Entity keys: what fails, and what counts as no id *)

Section CreateKeyFurther.
Variable isFinite : string → bool.

(** X10: with a schema that has options, the key derivation of the entity
    constructor fails for one kind of id only: a truthy value that is
    neither a string nor a number, and then with the error 'id must be a
    string or a number'.  Every string and every number, and no id at all,
    yield a key. *)
Theorem createKey_fails_only_on_other_ids (entityKind : string) (o : schemaOptions)
    (id : EntityKey.idArg) (ancestors : option (list EntityKey.pathElement)) (namespace : option string)
    (e : error) :
  EntityKey.createKey isFinite entityKind (Some o) id ancestors namespace = Throw e
  ↔ id = EntityKey.IdOther ∧ e = Error "id must be a string or a number".
Proof.
  unfold EntityKey.createKey, EntityKey.parseId. split.
  - destruct id as [|s|z|]; cbn [EntityKey.id_truthy]; repeat case_match; try done.
    by intros [= <-].
  - intros [-> ->]. reflexivity.
Qed.

(** X11: an id that is falsy (the number 0, the empty string) is no id at
    all for the entity constructor: the key derived is the incomplete key
    of the kind under the ancestors, the same as when no id is passed, so
    that the Datastore will allocate an id on save. *)
Theorem createKey_falsy_id_is_no_id (entityKind : string) (options : option schemaOptions)
    (id : EntityKey.idArg) (ancestors : option (list EntityKey.pathElement)) (namespace : option string) :
  EntityKey.id_truthy id = false →
  EntityKey.createKey isFinite entityKind options id ancestors namespace
  = EntityKey.createKey isFinite entityKind options EntityKey.IdAbsent ancestors namespace ∧
  (EntityKey.key_path <$> returned (EntityKey.createKey isFinite entityKind options id ancestors namespace))
  = Some (default [] ancestors ++ [EntityKey.PString entityKind]).
Proof.
  intros Hid. unfold EntityKey.createKey. rewrite Hid. cbn [EntityKey.id_truthy returned fmap option_fmap option_map EntityKey.key_path].
  split; [done|]. by destruct ancestors.
Qed.
End CreateKeyFurther.

Lemma createKey_falsy_id_is_no_id_witness :
  EntityKey.createKey (λ _, true) "User" None (EntityKey.IdNumber 0)
    (Some [EntityKey.PString "Company"; EntityKey.PNumber 5]) (Some "dev")
  = EntityKey.createKey (λ _, true) "User" None EntityKey.IdAbsent
      (Some [EntityKey.PString "Company"; EntityKey.PNumber 5]) (Some "dev") ∧
  (EntityKey.key_path <$> returned
     (EntityKey.createKey (λ _, true) "User" None (EntityKey.IdNumber 0)
        (Some [EntityKey.PString "Company"; EntityKey.PNumber 5]) (Some "dev")))
  = Some (default [] (Some [EntityKey.PString "Company"; EntityKey.PNumber 5])
          ++ [EntityKey.PString "User"]).
Proof.
  apply (createKey_falsy_id_is_no_id (λ _, true) "User" None (EntityKey.IdNumber 0)
           (Some [EntityKey.PString "Company"; EntityKey.PNumber 5]) (Some "dev")).
  reflexivity.
Defined.

(** ** Model.key, Model.delete, Model.get *)

Section KeyFacts.
Variable entityKind : string.
Variable ancestors : option (list EntityKey.pathElement).
Variable namespace : option string.

Lemma getKey_eq (i : option EntityKey.pathElement) :
  KeyTs.getKey entityKind ancestors namespace i
  = EntityKey.DsKey namespace
      (default [] ancestors ++ EntityKey.PString entityKind :: option_list i).
Proof. unfold KeyTs.getKey, KeyTs.getPath. by destruct ancestors, i. Qed.

(** X12: Model.key answers by the number of ids, not by the shape of the
    argument: an array of two or more ids gives the array of the keys its
    elements get one by one, in the same order (a null element giving the
    incomplete key of the kind); an array of one id gives the single key
    that the bare id gives, never an array; the empty array gives
    undefined.  Every key carries the namespace and has as its path the
    ancestors, then the kind, then the id. *)
Theorem key_by_number_of_ids (id : EntityKey.pathElement)
    (ids : list (option EntityKey.pathElement)) :
  let key := KeyTs.key entityKind ancestors namespace in
  let key_of id := EntityKey.DsKey namespace
                     (default [] ancestors ++ EntityKey.PString entityKind :: option_list id) in
  (1 < length ids)%nat →
  key (KeyTs.IdsArray ids) = KeyTs.ManyKeys (key_of <$> ids) ∧
  key (KeyTs.IdsArray [Some id]) = KeyTs.OneKey (key_of (Some id)) ∧
  key (KeyTs.IdsOne id) = KeyTs.OneKey (key_of (Some id)) ∧
  key KeyTs.IdsAbsent = KeyTs.OneKey (key_of None) ∧
  key (KeyTs.IdsArray []) = KeyTs.NoKey.
Proof.
  intros key key_of Hlen. unfold key, KeyTs.key.
  split_and!; cbn [KeyTs.arrify_ids]; rewrite ?getKey_eq; try done.
  - apply Nat.ltb_lt in Hlen. rewrite Hlen. f_equal.
    apply list_fmap_ext. intros _ i _. apply getKey_eq.
  - cbn. by rewrite getKey_eq.
  - cbn. by rewrite getKey_eq.
Qed.
End KeyFacts.

Lemma key_by_number_of_ids_witness :
  let key := KeyTs.key "User" (Some [EntityKey.PString "Company"; EntityKey.PNumber 5])
               (Some "dev") in
  let key_of id := EntityKey.DsKey (Some "dev")
                     (default [] (Some [EntityKey.PString "Company"; EntityKey.PNumber 5])
                      ++ EntityKey.PString "User" :: option_list id) in
  key (KeyTs.IdsArray [Some (EntityKey.PNumber 1); None; Some (EntityKey.PString "ann")])
    = KeyTs.ManyKeys (key_of <$> [Some (EntityKey.PNumber 1); None;
                                  Some (EntityKey.PString "ann")]) ∧
  key (KeyTs.IdsArray [Some (EntityKey.PNumber 7)])
    = KeyTs.OneKey (key_of (Some (EntityKey.PNumber 7))) ∧
  key (KeyTs.IdsOne (EntityKey.PNumber 7)) = KeyTs.OneKey (key_of (Some (EntityKey.PNumber 7))) ∧
  key KeyTs.IdsAbsent = KeyTs.OneKey (key_of None) ∧
  key (KeyTs.IdsArray []) = KeyTs.NoKey.
Proof.
  intros key key_of.
  apply (key_by_number_of_ids "User" (Some [EntityKey.PString "Company"; EntityKey.PNumber 5])
           (Some "dev") (EntityKey.PNumber 7)
           [Some (EntityKey.PNumber 1); None; Some (EntityKey.PString "ann")]).
  simpl. lia.
Defined.

Section DeleteFacts.
Context {Key : Type}.
Variable E : DeleteTs.deleteEnv.

(** X13: Model.delete inside a transaction only queues the deletion: it
    registers the post hooks on the transaction, calls transaction.delete
    and resolves at once with nothing; the store is not called, and neither
    the dataloader nor the cache is cleared, whatever the options.  Outside
    a transaction the first call is ds.delete; when it fails, delete rejects
    with its error and nothing else is called; when it answers, the
    dataloader (if one was passed) and then the cache (if it is on) are
    cleared for the key, and delete resolves with the response, the key
    attached and [success] telling whether indexUpdates is positive: the
    deletion of an entity that does not exist is not an error.  It rejects
    after a successful ds.delete only when clearing the cache failed. *)
Theorem delete_calls (key : Key) (o : DeleteTs.deleteOptions) :
  (∀ t, tx_constructor t = "Transaction" →
        DeleteTs.delete E key (Some t) o []
        = (Return None, [DeleteTs.CallHooksTransaction t; DeleteTs.CallTxDelete t key])) ∧
  let run := DeleteTs.delete E key None o [] in
  head run.2 = Some (DeleteTs.CallDsDelete key) ∧
  (∀ e, DeleteTs.ds_delete E = Throw e → run = (Throw e, [DeleteTs.CallDsDelete key])) ∧
  (∀ updates rest,
     DeleteTs.ds_delete E = Return (Some (DeleteTs.CommitResponse updates :: rest)) →
     let response := DeleteTs.DeleteResponse key updates ((λ n, Z.ltb 0 n) <$> updates) in
     let cleared :=
       (if DeleteTs.del_dataloader o then [DeleteTs.CallLoaderClear key] else []) ++
       (if DeleteTs.hasCache E (DeleteTs.del_cache o)
        then [DeleteTs.CallClearCache key (DeleteTs.del_clearQueries o)] else []) in
     run.2 = DeleteTs.CallDsDelete key :: cleared ∧
     (run.1 = Return (Some response) ∨
      ∃ err, DeleteTs.hasCache E (DeleteTs.del_cache o) = true ∧
             DeleteTs.del_cache_clear E = Throw err ∧ run.1 = Throw (CacheError err))).
Proof.
  split.
  { intros t Ht. unfold DeleteTs.delete, not_a_Transaction. rewrite Ht. reflexivity. }
  intros run. unfold run, DeleteTs.delete, DeleteTs.onDelete, DeleteTs.dcall,
    then_, then2, resolve, reject.
  split_and!.
  - destruct (DeleteTs.ds_delete E) as [[[|[u] l]|]|]; cbn [app fst snd]; try done;
      destruct (DeleteTs.del_dataloader o), (DeleteTs.hasCache E (DeleteTs.del_cache o)),
        (DeleteTs.del_cache_clear E); done.
  - by intros e ->.
  - intros updates rest ->. cbn [DeleteTs.indexUpdates app fst snd].
    destruct (DeleteTs.del_dataloader o), (DeleteTs.hasCache E (DeleteTs.del_cache o)) eqn:Hc;
      cbn [app fst snd]; try (split; [done|by left]).
    + destruct (DeleteTs.del_cache_clear E) as [[]|err] eqn:Hclear;
        (split; [done|]); [by left | right; by exists err].
    + destruct (DeleteTs.del_cache_clear E) as [[]|err] eqn:Hclear;
        (split; [done|]); [by left | right; by exists err].
Qed.
End DeleteFacts.

Section GetFacts.
Variable E : GetTs.getEnv.
Variable entityKind : string.
Variable schema_options : option schemaOptions.
Variable isFinite : string → bool.
Variable buildEntityData : gmap string (value EntityKey.dsKey) → gmap string (value EntityKey.dsKey).
Variable position : GetTs.fetchedEntity → Z.

Abbreviation get := (GetTs.get E entityKind schema_options isFinite buildEntityData position).
Abbreviation to_entities := (GetTs.to_entities entityKind schema_options isFinite buildEntityData).
Abbreviation model_of := (GetTs.model_of entityKind schema_options isFinite buildEntityData).

Lemma model_of_returns (data : GetTs.record) :
  model_of data = Return (entity_of entityKind buildEntityData data).
Proof. unfold GetTs.model_of. by destruct data as [props [k|]]. Qed.

Lemma to_entities_returns (fetched : list (option GetTs.record)) :
  to_entities fetched
  = Return (fmap (M := option) (entity_of entityKind buildEntityData) <$> fetched).
Proof.
  induction fetched as [|[data|] fetched IH]; cbn [GetTs.to_entities]; [done| |].
  - fold model_of. rewrite model_of_returns. fold to_entities. by rewrite IH.
  - fold to_entities. by rewrite IH.
Qed.

Lemma insert_sorted_Permutation (x : GetTs.fetchedEntity) (l : list GetTs.fetchedEntity) :
  GetTs.insert_sorted position x l ≡ₚ x :: l.
Proof.
  induction l as [|y l IH]; cbn [GetTs.insert_sorted]; [done|].
  case_match; [|done]. rewrite IH. apply Permutation_swap.
Qed.

Lemma sort_by_position_Permutation (l : list GetTs.fetchedEntity) :
  GetTs.sort_by_position position l ≡ₚ l.
Proof.
  induction l as [|x l IH]; cbn; [done|].
  fold (GetTs.sort_by_position position l).
  by rewrite insert_sorted_Permutation, IH.
Qed.

Lemma insert_sorted_Sorted (x : GetTs.fetchedEntity) (l : list GetTs.fetchedEntity) :
  Sorted (λ a b, (position a ≤ position b)%Z) l →
  Sorted (λ a b, (position a ≤ position b)%Z) (GetTs.insert_sorted position x l).
Proof.
  induction 1 as [|y l Hl IH Hhd]; cbn [GetTs.insert_sorted].
  - by repeat constructor.
  - destruct (Z.ltb_spec (position y) (position x)) as [Hlt|Hge].
    + constructor; [done|].
      destruct Hhd as [|z l Hyz]; cbn [GetTs.insert_sorted].
      * constructor. lia.
      * destruct (Z.ltb_spec (position z) (position x)); constructor; lia.
    + constructor; [by constructor|]. by constructor.
Qed.

Lemma sort_by_position_Sorted (l : list GetTs.fetchedEntity) :
  Sorted (λ a b, (position a ≤ position b)%Z) (GetTs.sort_by_position position l).
Proof.
  induction l as [|x l IH]; cbn; [constructor|].
  by apply insert_sorted_Sorted.
Qed.

(** X14: what Model.get makes of a fetch that resolved.  With exactly one
    id, bare or in an array, and nothing found for it, get rejects with
    ERR_ENTITY_NOT_FOUND when gstore is configured with errorOnEntityNotFound
    and resolves with null otherwise.  With any other number of ids in an
    array a missing entity is never an error: get resolves with an array as
    long as what the fetch gave, holding null exactly where the fetch held
    nothing.  No call is made besides those of the fetch. *)
Theorem get_missing_entities (ancestors : option (list EntityKey.pathElement))
    (namespace : option string) (transaction : option txObject) (o : GetTs.getOptions)
    (ids : list (option EntityKey.pathElement))
    (fetched : list (option GetTs.record)) (log : list GetTs.getCall) :
  GetTs.fetchEntityByKey E (KeyTs.key entityKind ancestors namespace (KeyTs.IdsArray ids))
    transaction (GetTs.get_dataloader o) (GetTs.get_cache o) [] = (Return fetched, log) →
  (∀ id, ids = [Some id] → head fetched = None ∨ head fetched = Some None →
         let answer := if GetTs.errorOnEntityNotFound E
                       then Throw (GstoreError "ERR_ENTITY_NOT_FOUND")
                       else Return GetTs.GotNull in
         get (KeyTs.IdsOne id) ancestors namespace transaction o [] = (answer, log) ∧
         get (KeyTs.IdsArray ids) ancestors namespace transaction o [] = (answer, log)) ∧
  (length ids ≠ 1%nat →
   ∃ entities,
     get (KeyTs.IdsArray ids) ancestors namespace transaction o [] =
       (Return (GetTs.GotMany entities), log) ∧
     length entities = length fetched ∧
     ∀ i, entities !! i = Some None ↔ fetched !! i = Some None).
Proof.
  intros Hfetch. split.
  - intros id -> Hnone answer. unfold GetTs.get. cbn [KeyTs.arrify_ids].
    unfold then_, then2. rewrite Hfetch. unfold GetTs.onEntity. cbn [length Nat.eqb andb].
    assert (match fetched with [] | None :: _ => true | Some _ :: _ => false end = true) as ->.
    { destruct Hnone as [H|H]; destruct fetched as [|[d|] f]; by try discriminate H. }
    unfold answer. by destruct (GetTs.errorOnEntityNotFound E).
  - intros Hlen. unfold GetTs.get. cbn [KeyTs.arrify_ids].
    unfold then_, then2. rewrite Hfetch. unfold GetTs.onEntity.
    replace (Nat.eqb (length ids) 1) with false by (symmetry; by apply Nat.eqb_neq).
    cbn [andb]. fold to_entities. rewrite to_entities_returns.
    set (entity := fmap (M := option) (entity_of entityKind buildEntityData) <$> fetched).
    assert (Hentity : ∀ i, entity !! i = Some None ↔ fetched !! i = Some None).
    { intros i. unfold entity. rewrite list_lookup_fmap.
      destruct (fetched !! i) as [[d|]|]; cbn; split; congruence. }
    cbn [andb].
    destruct (GetTs.preserveOrder o &&
              forallb (λ e, bool_decide (is_Some e)) entity) eqn:Hsort; cbn [andb].
    + apply andb_prop in Hsort as [_ Hall].
      assert (Hsome : ∀ i, entity !! i ≠ Some None).
      { intros i Hi. rewrite forallb_forall in Hall.
        apply list_elem_of_lookup_2, list_elem_of_In, Hall in Hi.
        apply bool_decide_eq_true in Hi. by destruct Hi. }
      eexists. split; [reflexivity|]. split.
      * rewrite length_fmap, sort_by_position_Permutation.
        transitivity (length entity); [|unfold entity; by rewrite length_fmap].
        clear -Hsome.
        induction entity as [|[e|] l IH]; cbn; [done| |].
        -- f_equal. apply IH. intros i. apply (Hsome (S i)).
        -- by destruct (Hsome 0%nat).
      * intros i. rewrite <- Hentity. split; [|by intros ?%Hsome].
        rewrite list_lookup_fmap. by destruct (_ !! i).
    + eexists. split; [reflexivity|]. split; [|done].
      unfold entity. by rewrite length_fmap.
Qed.

(** X15: with [preserveOrder], an array of ids and every entity found,
    Model.get resolves with the fetched entities reordered by the position
    their key's id has in the array of ids: the answer holds the same
    entities, each once, sorted by that position. *)
Theorem get_preserves_order (ancestors : option (list EntityKey.pathElement))
    (namespace : option string) (transaction : option txObject) (o : GetTs.getOptions)
    (ids : list (option EntityKey.pathElement))
    (fetched : list GetTs.record) (log : list GetTs.getCall) :
  GetTs.fetchEntityByKey E (KeyTs.key entityKind ancestors namespace (KeyTs.IdsArray ids))
    transaction (GetTs.get_dataloader o) (GetTs.get_cache o) [] = (Return (Some <$> fetched), log) →
  GetTs.preserveOrder o = true →
  fetched ≠ [] →
  ∃ sorted,
    get (KeyTs.IdsArray ids) ancestors namespace transaction o []
      = (Return (GetTs.GotMany (Some <$> sorted)), log) ∧
    sorted ≡ₚ entity_of entityKind buildEntityData <$> fetched ∧
    Sorted (λ a b, (position a ≤ position b)%Z) sorted.
Proof.
  intros Hfetch Horder Hne. unfold GetTs.get. cbn [KeyTs.arrify_ids].
  unfold then_, then2. rewrite Hfetch. unfold GetTs.onEntity.
  destruct fetched as [|d fetched]; [done|]. rewrite fmap_cons, andb_false_r.
  fold to_entities. rewrite to_entities_returns, Horder. cbn [andb].
  rewrite <- fmap_cons, <- list_fmap_compose.
  change (fmap (M := option) (entity_of entityKind buildEntityData) ∘ Some)
    with (Some ∘ entity_of entityKind buildEntityData).
  rewrite list_fmap_compose.
  set (entities := entity_of entityKind buildEntityData <$> d :: fetched).
  assert (forallb (λ e, bool_decide (is_Some e)) (Some <$> entities) = true) as ->.
  { apply forallb_forall. intros e [x [-> _]]%list_elem_of_In%list_elem_of_fmap.
    apply bool_decide_eq_true. by eexists. }
  assert (omap id (Some <$> entities) = entities) as ->.
  { clear. induction entities as [|e l IH]; cbn; [done|]. by rewrite IH. }
  eexists. split; [reflexivity|]. split.
  - apply sort_by_position_Permutation.
  - apply sort_by_position_Sorted.
Qed.
End GetFacts.
Lemma get_missing_entities_witness :
  let get := GetTs.get GetSamples.empty_store "User" None (λ _, true) id (λ _, 0%Z) in
  let ids := [Some (EntityKey.PNumber 1)] in
  let log := [GetTs.CallDsGet [GetSamples.user_key 1]] in
  (∀ id, ids = [Some id] → head ([] : list (option GetTs.record)) = None ∨
                            head ([] : list (option GetTs.record)) = Some None →
         let answer := if GetTs.errorOnEntityNotFound GetSamples.empty_store
                       then Throw (GstoreError "ERR_ENTITY_NOT_FOUND")
                       else Return GetTs.GotNull in
         get (KeyTs.IdsOne id) None None None (GetSamples.options false) [] = (answer, log) ∧
         get (KeyTs.IdsArray ids) None None None (GetSamples.options false) [] = (answer, log)) ∧
  (length ids ≠ 1%nat →
   ∃ entities,
     get (KeyTs.IdsArray ids) None None None (GetSamples.options false) [] =
       (Return (GetTs.GotMany entities), log) ∧
     length entities = length ([] : list (option GetTs.record)) ∧
     ∀ i, entities !! i = Some None ↔ ([] : list (option GetTs.record)) !! i = Some None).
Proof.
  intros get ids log.
  apply (get_missing_entities GetSamples.empty_store "User" None (λ _, true) id (λ _, 0%Z)
           None None None (GetSamples.options false) ids [] log).
  reflexivity.
Defined.

Lemma get_preserves_order_witness :
  ∃ sorted,
    GetTs.get GetSamples.store_of_two "User" None (λ _, true) id GetSamples.position_in_1_2
      (KeyTs.IdsArray [Some (EntityKey.PNumber 1); Some (EntityKey.PNumber 2)])
      None None None (GetSamples.options true) []
      = (Return (GetTs.GotMany (Some <$> sorted)),
         [GetTs.CallDsGet [GetSamples.user_key 1; GetSamples.user_key 2]]) ∧
    sorted ≡ₚ entity_of "User" id <$> GetSamples.two_users ∧
    Sorted (λ a b, (GetSamples.position_in_1_2 a ≤ GetSamples.position_in_1_2 b)%Z) sorted.
Proof.
  apply (get_preserves_order GetSamples.store_of_two "User" None (λ _, true) id
           GetSamples.position_in_1_2 None None None (GetSamples.options true)
           [Some (EntityKey.PNumber 1); Some (EntityKey.PNumber 2)] GetSamples.two_users
           [GetTs.CallDsGet [GetSamples.user_key 1; GetSamples.user_key 2]]);
    [reflexivity | reflexivity | discriminate].
Defined.

(** ** Query helpers: buildQueryFromOptions *)

Section QueryHelpersFacts.
Context {Key : Type}.
Abbreviation value := (value Key).
Abbreviation queryCall := (QueryHelpers.queryCall Key).
Abbreviation calls_of := (promise (W := list queryCall) unit).

Lemma ranked_resolve (lo hi : nat) : ranked (Key := Key) lo hi (resolve ()).
Proof.
  intros w. exists []. rewrite app_nil_r. split; [done|]. split; [apply Forall_nil_2|constructor].
Qed.

Lemma ranked_reject (lo hi : nat) (e : error) : ranked (Key := Key) lo hi (reject e).
Proof.
  intros w. exists []. rewrite app_nil_r. split; [done|]. split; [apply Forall_nil_2|constructor].
Qed.

Lemma ranked_qcall (lo hi : nat) (c : queryCall) :
  (lo ≤ QueryHelpers.rank c ≤ hi)%nat → ranked lo hi (QueryHelpers.qcall c).
Proof.
  intros Hc w. exists [c]. split; [done|].
  split; [apply Forall_cons_2; [done|apply Forall_nil_2]|].
  cbn. constructor; [constructor|apply Forall_nil_2].
Qed.

Lemma ranked_when (lo hi : nat) (b : bool) (p : calls_of) :
  ranked lo hi p → ranked lo hi (QueryHelpers.when b p).
Proof. destruct b; [done|]. intros _. apply ranked_resolve. Qed.

Lemma ranked_weaken (lo hi lo' hi' : nat) (p : calls_of) :
  (lo' ≤ lo)%nat → (hi ≤ hi')%nat → ranked lo hi p → ranked lo' hi' p.
Proof.
  intros Hlo Hhi Hp w. destruct (Hp w) as (added & Heq & Hall & Hsorted).
  exists added. split_and!; try done. eapply Forall_impl; [exact Hall|].
  intros c ?. cbn in *. lia.
Qed.

Lemma ranked_then (lo mid hi : nat) (p : calls_of) (f : unit → calls_of) :
  ranked lo mid p → (∀ a, ranked mid hi (f a)) → (lo ≤ mid ≤ hi)%nat →
  ranked lo hi (then_ p f).
Proof.
  intros Hp Hf Hle w. unfold then_, then2.
  destruct (Hp w) as (added & Heq & Hall & Hsorted).
  destruct (p w) as [[a|e] w'] eqn:Hpw; cbn [snd] in Heq; subst w'.
  - destruct (Hf a (w ++ added)) as (added' & Heq' & Hall' & Hsorted').
    exists (added ++ added'). rewrite Heq', app_assoc. split; [done|]. split.
    + apply Forall_app. split; (eapply Forall_impl; [eassumption|]); intros c ?; cbn in *; lia.
    + rewrite fmap_app. apply StronglySorted_app_2; [|done|done].
      intros x y [c [-> Hc]]%list_elem_of_fmap [c' [-> Hc']]%list_elem_of_fmap.
      rewrite Forall_forall in Hall, Hall'.
      specialize (Hall c Hc). specialize (Hall' c' Hc'). cbn in *. lia.
  - exists added. split; [done|]. split; [|done].
    eapply Forall_impl; [eassumption|]. intros c ?; cbn in *; lia.
Qed.

Lemma ranked_for_each {A} (n : nat) (f : A → calls_of) (l : list A) :
  (∀ x, ranked n n (f x)) → ranked n n (QueryHelpers.for_each f l).
Proof.
  intros Hf. induction l as [|x l IH]; cbn [QueryHelpers.for_each].
  - apply ranked_resolve.
  - apply (ranked_then n n n); [apply Hf | by intros _ | lia].
Qed.

Lemma ranked_apply_options (o : QueryHelpers.queryListOptions Key) (ds : option string) :
  ranked 0 6 (QueryHelpers.apply_options o ds).
Proof.
  unfold QueryHelpers.apply_options.
  apply (ranked_then 0 0 6); [ | intros _ | lia].
  { apply ranked_when, ranked_qcall. cbn. lia. }
  apply (ranked_then 0 1 6); [ | intros _ | lia].
  { apply ranked_when, ranked_qcall. cbn. lia. }
  apply (ranked_then 1 2 6); [ | intros _ | lia].
  { apply (ranked_weaken 2 2); [lia|lia|].
    destruct (QueryHelpers.qo_order o); [apply ranked_resolve| |];
      apply ranked_for_each; intros x; apply ranked_qcall; cbn; lia. }
  apply (ranked_then 2 3 6); [ | intros _ | lia].
  { apply ranked_when, ranked_qcall. cbn. lia. }
  apply (ranked_then 3 4 6); [ | intros _ | lia].
  { destruct (QueryHelpers.qo_ancestors o); [|apply ranked_resolve].
    destruct (QueryHelpers.no_Datastore ds); [apply ranked_reject|].
    apply ranked_qcall. cbn. lia. }
  apply (ranked_then 4 5 6); [ | intros _ | lia].
  { apply (ranked_weaken 5 5); [lia|lia|].
    destruct (QueryHelpers.qo_filters o); [apply ranked_resolve | apply ranked_reject | |];
      apply ranked_when, ranked_for_each; intros x; apply ranked_qcall; cbn; lia. }
  apply (ranked_weaken 6 6); [lia|lia|].
  apply ranked_when, ranked_qcall. cbn. lia.
Qed.

(** X16: buildQueryFromOptions applies the options to the query in one
    fixed order, whatever the options are: limit, offset, the order
    settings, select, the ancestor, the filters, the start cursor.  The
    calls it adds to a query come in that order, also when it throws half
    way. *)
Theorem buildQuery_applies_options_in_order (before : list queryCall)
    (o : QueryHelpers.queryListOptions Key) (ds : option string) :
  ∃ added,
    (QueryHelpers.buildQueryFromOptions
       (Some (QueryHelpers.QueryObject "Query" before)) (Some o) ds).2
      = Some (QueryHelpers.QueryObject "Query" (before ++ added)) ∧
    StronglySorted le (QueryHelpers.rank <$> added).
Proof.
  unfold QueryHelpers.buildQueryFromOptions. cbn [QueryHelpers.q_constructor QueryHelpers.q_calls].
  change (negb (String.eqb "Query" "Query")) with false. cbv iota.
  destruct (ranked_apply_options o ds before) as (added & Heq & _ & Hsorted).
  destruct (QueryHelpers.apply_options o ds before) as [r calls]. cbn [snd] in *. subst calls.
  by exists added.
Qed.

Lemma for_each_qcall {A} (g : A → queryCall) (l : list A) (w : list queryCall) :
  QueryHelpers.for_each (λ x, QueryHelpers.qcall (g x)) l w = (Return (), w ++ (g <$> l)).
Proof.
  revert w. induction l as [|x l IH]; intros w; cbn [QueryHelpers.for_each].
  - unfold resolve. by rewrite app_nil_r.
  - unfold then_, then2, QueryHelpers.qcall at 1. rewrite IH. by rewrite <- app_assoc.
Qed.

Lemma first_four_return (o : QueryHelpers.queryListOptions Key) (w : list queryCall) :
  ∃ added,
    (∀ (next : calls_of),
       then_ (QueryHelpers.when (truthy (QueryHelpers.qo_limit o))
                (QueryHelpers.qcall (QueryHelpers.QLimit (QueryHelpers.qo_limit o)))) (λ _,
       then_ (QueryHelpers.when (truthy (QueryHelpers.qo_offset o))
                (QueryHelpers.qcall (QueryHelpers.QOffset (QueryHelpers.qo_offset o)))) (λ _,
       then_ (match QueryHelpers.qo_order o with
              | QueryHelpers.OrderAbsent => resolve ()
              | order => QueryHelpers.for_each
                           (λ order, QueryHelpers.qcall
                                       (QueryHelpers.QOrder (QueryHelpers.property order)
                                          (default false (QueryHelpers.descending order))))
                           (QueryHelpers.arrify_order order)
              end) (λ _,
       then_ (QueryHelpers.when (truthy (QueryHelpers.qo_select o))
                (QueryHelpers.qcall (QueryHelpers.QSelect (QueryHelpers.qo_select o))))
             (λ _, next)))) w
       = next (w ++ added)) ∧
    filter_calls added = [].
Proof.
  set (orders := (λ order, QueryHelpers.QOrder (Key := Key) (QueryHelpers.property order)
                             (default false (QueryHelpers.descending order)))
                 <$> QueryHelpers.arrify_order (QueryHelpers.qo_order o)).
  exists ((if truthy (QueryHelpers.qo_limit o)
           then [QueryHelpers.QLimit (QueryHelpers.qo_limit o)] else []) ++
          (if truthy (QueryHelpers.qo_offset o)
           then [QueryHelpers.QOffset (QueryHelpers.qo_offset o)] else []) ++
          orders ++
          (if truthy (QueryHelpers.qo_select o)
           then [QueryHelpers.QSelect (QueryHelpers.qo_select o)] else [])).
  split.
  - intros next. unfold then_, then2, QueryHelpers.when, resolve.
    assert (Horder : ∀ w', match QueryHelpers.qo_order o with
              | QueryHelpers.OrderAbsent => λ w0, (Return (), w0)
              | order => QueryHelpers.for_each
                           (λ order, QueryHelpers.qcall
                                       (QueryHelpers.QOrder (QueryHelpers.property order)
                                          (default false (QueryHelpers.descending order))))
                           (QueryHelpers.arrify_order order)
              end w' = (Return (), w' ++ orders)).
    { intros w'. unfold orders. destruct (QueryHelpers.qo_order o); rewrite ?for_each_qcall;
        cbn; by rewrite ?app_nil_r. }
    destruct (truthy (QueryHelpers.qo_limit o)), (truthy (QueryHelpers.qo_offset o)),
      (truthy (QueryHelpers.qo_select o)); unfold QueryHelpers.qcall; rewrite Horder;
      cbn [app]; by rewrite <- ?app_assoc, ?app_nil_r.
  - unfold filter_calls. rewrite !omap_app.
    assert (omap (λ c : queryCall, match c with
                                   | QueryHelpers.QFilter args => Some args
                                   | _ => None
                                   end) orders = []) as ->.
    { unfold orders. by induction (QueryHelpers.arrify_order _). }
    by destruct (truthy (QueryHelpers.qo_limit o)), (truthy (QueryHelpers.qo_offset o)),
      (truthy (QueryHelpers.qo_select o)).
Qed.

Lemma apply_options_split (o : QueryHelpers.queryListOptions Key) (ds : option string)
    (w : list queryCall) :
  ∃ added,
    QueryHelpers.apply_options o ds w
    = then_ (match QueryHelpers.qo_ancestors o with
             | None => resolve ()
             | Some ancestors =>
                 if QueryHelpers.no_Datastore ds
                 then reject (Error "Datastore instance not passed")
                 else QueryHelpers.qcall
                        (QueryHelpers.QHasAncestor
                           (EntityKey.DsKey
                              (EntityKey.namespace_given (QueryHelpers.qo_namespace o))
                              ancestors))
             end) (λ _,
      then_ (match QueryHelpers.qo_filters o with
             | QueryHelpers.FiltersAbsent => resolve ()
             | QueryHelpers.FiltersNotArray => reject (Error "Wrong format for filters option")
             | filters =>
                 let filters :=
                   match filters with
                   | QueryHelpers.FiltersFlat property rest =>
                       [QueryHelpers.FValue (VString property) :: rest]
                   | QueryHelpers.FiltersNested [] => [[]]
                   | QueryHelpers.FiltersNested l => l
                   | _ => []
                   end in
                 QueryHelpers.when (Nat.ltb 1 (length (default [] (head filters))))
                   (QueryHelpers.for_each QueryHelpers.apply_filter filters)
             end) (λ _,
      QueryHelpers.when (truthy (QueryHelpers.qo_start o))
        (QueryHelpers.qcall (QueryHelpers.QStart (QueryHelpers.qo_start o))))) (w ++ added) ∧
    filter_calls added = [] ∧
    (QueryHelpers.apply_options (up_to_select o) ds w) = (Return (), w ++ added).
Proof.
  destruct (first_four_return o w) as (added & Hrun & Hnone).
  exists added. split; [apply Hrun|]. split; [done|].
  unfold QueryHelpers.apply_options.
  cbn [up_to_select QueryHelpers.qo_limit QueryHelpers.qo_offset QueryHelpers.qo_order
       QueryHelpers.qo_select QueryHelpers.qo_ancestors QueryHelpers.qo_filters
       QueryHelpers.qo_start].
  rewrite Hrun. reflexivity.
Qed.

(** X17: when ancestors are asked for and no Datastore instance is passed,
    buildQueryFromOptions throws 'Datastore instance not passed', but not
    before it has applied limit, offset, order and select: the query keeps
    exactly the calls it would have received from those options alone, and
    receives neither filters nor a start cursor. *)
Theorem buildQuery_without_datastore (before : list queryCall)
    (o : QueryHelpers.queryListOptions Key) (ds : option string)
    (ancestors : list EntityKey.pathElement) :
  let query := Some (QueryHelpers.QueryObject "Query" before) in
  QueryHelpers.qo_ancestors o = Some ancestors →
  QueryHelpers.no_Datastore ds = true →
  QueryHelpers.buildQueryFromOptions query (Some (up_to_select o)) ds
    = (Return (), (QueryHelpers.buildQueryFromOptions query (Some (up_to_select o)) ds).2) ∧
  QueryHelpers.buildQueryFromOptions query (Some o) ds
    = (Throw (Error "Datastore instance not passed"),
       (QueryHelpers.buildQueryFromOptions query (Some (up_to_select o)) ds).2).
Proof.
  intros query Hanc Hds. unfold query, QueryHelpers.buildQueryFromOptions.
  cbn [QueryHelpers.q_constructor QueryHelpers.q_calls].
  change (negb (String.eqb "Query" "Query")) with false. cbv iota.
  destruct (apply_options_split o ds before) as (added & Hrun & _ & Hfirst).
  rewrite Hfirst, Hrun, Hanc, Hds. done.
Qed.

(** X18: which filters reach the query.  A filter given flat is applied as
    the one filter it is.  In an array of filters the first one decides for
    all: when it has fewer than two elements no filter at all is applied,
    however many follow.  Each filter applied has a value as its last
    element: where a function was given, it is called and its answer
    passed.  (When ancestors are asked for without a Datastore instance the
    call throws before it reads the filters.) *)
Theorem buildQuery_filters (o : QueryHelpers.queryListOptions Key) (ds : option string) :
  filter_calls (calls_on_fresh_query o ds)
  = if bool_decide (is_Some (QueryHelpers.qo_ancestors o)) && QueryHelpers.no_Datastore ds
    then []
    else match QueryHelpers.qo_filters o with
         | QueryHelpers.FiltersAbsent | QueryHelpers.FiltersNotArray => []
         | QueryHelpers.FiltersFlat property rest =>
             match rest with
             | [] => []
             | _ => [evaluated (QueryHelpers.FValue (VString property) :: rest)]
             end
         | QueryHelpers.FiltersNested filters =>
             if Nat.ltb 1 (length (default [] (head filters)))
             then evaluated <$> filters
             else []
         end.
Proof.
  unfold calls_on_fresh_query, QueryHelpers.buildQueryFromOptions.
  cbn [QueryHelpers.q_constructor QueryHelpers.q_calls].
  change (negb (String.eqb "Query" "Query")) with false. cbv iota.
  destruct (apply_options_split o ds []) as (added & Hrun & Hnone & _).
  assert (Hout : ∀ x : result unit * list queryCall,
            match (let '(r, calls) := x in
                   (r, Some (QueryHelpers.QueryObject "Query" calls))).2 with
            | Some q => QueryHelpers.q_calls q
            | None => []
            end = x.2) by (by intros [??]).
  rewrite Hout, Hrun. cbn [app].
  assert (Hstart : ∀ w, filter_calls
            (QueryHelpers.when (truthy (QueryHelpers.qo_start o))
               (QueryHelpers.qcall (QueryHelpers.QStart (QueryHelpers.qo_start o))) w).2
            = filter_calls w).
  { intros w. unfold QueryHelpers.when, QueryHelpers.qcall, resolve.
    destruct (truthy _); cbn [snd]; [|done].
    unfold filter_calls. rewrite omap_app. cbn. by rewrite app_nil_r. }
  assert (Heach : ∀ (fs : list (list (QueryHelpers.filterArg Key))) w,
            QueryHelpers.for_each QueryHelpers.apply_filter fs w
            = (Return (), w ++ (QueryHelpers.QFilter <$> (evaluated <$> fs)))).
  { intros fs w. rewrite <- list_fmap_compose.
    apply (for_each_qcall (λ f, QueryHelpers.QFilter (evaluated f))). }
  assert (Hcalls : ∀ (fs : list (list (QueryHelpers.filterArg Key))) w,
            filter_calls (w ++ (QueryHelpers.QFilter <$> fs)) = filter_calls w ++ fs).
  { intros fs w. unfold filter_calls. rewrite omap_app. f_equal.
    induction fs as [|f fs IH]; cbn; [done|]. by rewrite IH. }
  unfold then_, then2.
  destruct (QueryHelpers.qo_ancestors o) as [anc|]; cbn [bool_decide andb].
  - rewrite bool_decide_eq_true_2 by (by eexists). cbn [andb].
    destruct (QueryHelpers.no_Datastore ds); [done|].
    unfold QueryHelpers.qcall at 1.
    assert (Hw : filter_calls (added ++ [QueryHelpers.QHasAncestor
               (EntityKey.DsKey (EntityKey.namespace_given (QueryHelpers.qo_namespace o)) anc)])
             = []).
    { unfold filter_calls in *. rewrite omap_app, Hnone. done. }
    revert Hw. generalize (added ++ [QueryHelpers.QHasAncestor
               (EntityKey.DsKey (EntityKey.namespace_given (QueryHelpers.qo_namespace o)) anc)]).
    intros w Hw.
    destruct (QueryHelpers.qo_filters o) as [| |p [|a rest]|[|f fs]];
      cbn [head default from_option id];
      try destruct (Nat.ltb 1 (length f)); cbn [length Nat.ltb Nat.leb];
      unfold QueryHelpers.when, resolve, reject; cbn [fst snd];
      rewrite ?Heach; cbn [fst snd]; rewrite ?Hstart, ?Hcalls, ?Hw; done.
  - rewrite bool_decide_eq_false_2 by (by intros [? ?]). cbn [andb]. unfold resolve at 1.
    revert Hnone. generalize added. intros w Hw.
    destruct (QueryHelpers.qo_filters o) as [| |p [|a rest]|[|f fs]];
      cbn [head default from_option id];
      try destruct (Nat.ltb 1 (length f)); cbn [length Nat.ltb Nat.leb];
      unfold QueryHelpers.when, resolve, reject; cbn [fst snd];
      rewrite ?Heach; cbn [fst snd]; rewrite ?Hstart, ?Hcalls, ?Hw; done.
Qed.
End QueryHelpersFacts.
Lemma buildQuery_without_datastore_witness :
  let query := Some (QueryHelpers.QueryObject "Query" []) in
  QueryHelpers.buildQueryFromOptions query (Some (up_to_select QuerySamples.adults)) None
    = (Return (),
       (QueryHelpers.buildQueryFromOptions query (Some (up_to_select QuerySamples.adults))
          None).2) ∧
  QueryHelpers.buildQueryFromOptions query (Some QuerySamples.adults) None
    = (Throw (Error "Datastore instance not passed"),
       (QueryHelpers.buildQueryFromOptions query (Some (up_to_select QuerySamples.adults))
          None).2).
Proof.
  intros query.
  apply (buildQuery_without_datastore [] QuerySamples.adults None
           [EntityKey.PString "Company"; EntityKey.PNumber 5]); reflexivity.
Defined.

(** ** Schema *)

Section SchemaHooks.
Context {H : Type}.
Abbreviation hooks := (SchemaTs.hooks H).
Abbreviation queue := (SchemaTs.queue H).

Lemma queue_lookup_alter (f : hooks → hooks) (q : queue) (method m : string) :
  SchemaTs.queue_lookup (SchemaTs.queue_alter f q method) m
  = if String.eqb method m
    then Some (f (default empty_hooks (SchemaTs.queue_lookup q method)))
    else SchemaTs.queue_lookup q m.
Proof.
  induction q as [|[m' h] q IH]; cbn [SchemaTs.queue_alter SchemaTs.queue_lookup].
  - done.
  - destruct (String.eqb m' method) eqn:E1; cbn [SchemaTs.queue_lookup].
    + apply String.eqb_eq in E1 as ->. by destruct (String.eqb method m).
    + rewrite IH. destruct (String.eqb m' m) eqn:E2; [|done].
      apply String.eqb_eq in E2 as ->. rewrite String.eqb_sym in E1. by rewrite E1.
Qed.

Lemma queue_alter_elem (f : hooks → hooks) (q : queue) (method m : string) :
  m ∈ (SchemaTs.queue_alter f q method).*1 → m = method ∨ m ∈ q.*1.
Proof.
  induction q as [|[m' h] q IH]; cbn [SchemaTs.queue_alter].
  - cbn. intros [->|[]%elem_of_nil]%elem_of_cons. by left.
  - destruct (String.eqb m' method); cbn [fmap list_fmap fst].
    + intros ?. by right.
    + intros [->|Hm]%elem_of_cons; [right; left|].
      destruct (IH Hm) as [->|?]; [by left|right; by right].
Qed.

Lemma queue_alter_keys (f : hooks → hooks) (q : queue) (method : string) :
  NoDup q.*1 → NoDup (SchemaTs.queue_alter f q method).*1.
Proof.
  induction q as [|[m' h] q IH]; cbn [SchemaTs.queue_alter]; intros Hnd.
  - cbn. apply NoDup_singleton.
  - cbn [fmap list_fmap fst] in Hnd. apply NoDup_cons in Hnd as [Hm' Hnd].
    destruct (String.eqb m' method) eqn:E; cbn [fmap list_fmap fst].
    + by apply NoDup_cons.
    + apply NoDup_cons. split; [|by apply IH].
      intros [->|?]%queue_alter_elem; [|done]. by rewrite String.eqb_refl in E.
Qed.

Lemma queue_lookup_None (q : queue) (m : string) :
  m ∉ q.*1 → SchemaTs.queue_lookup q m = None.
Proof.
  induction q as [|[m' h] q IH]; cbn [SchemaTs.queue_lookup fmap list_fmap fst]; [done|].
  intros [Hne Hm]%not_elem_of_cons. apply not_eq_sym, String.eqb_neq in Hne as ->. by apply IH.
Qed.

Lemma registered_of_entry (m' m : string) (h : hooks) :
  registered_pre m ((SchemaTs.RegisterPre m' <$> SchemaTs.pres h) ++
                    (SchemaTs.RegisterPost m' <$> SchemaTs.post h))
    = (if String.eqb m' m then SchemaTs.pres h else []) ∧
  registered_post m ((SchemaTs.RegisterPre m' <$> SchemaTs.pres h) ++
                     (SchemaTs.RegisterPost m' <$> SchemaTs.post h))
    = (if String.eqb m' m then SchemaTs.post h else []).
Proof.
  unfold registered_pre, registered_post. rewrite !omap_app.
  destruct h as [pres post]. cbn [SchemaTs.pres SchemaTs.post].
  split.
  - assert (omap (λ r : SchemaTs.registration H,
                    match r with
                    | SchemaTs.RegisterPre m0 fn => if String.eqb m0 m then Some fn else None
                    | SchemaTs.RegisterPost _ _ => None
                    end) (SchemaTs.RegisterPost m' <$> post) = []) as ->.
    { by induction post. }
    rewrite app_nil_r. induction pres as [|p pres IH]; cbn; [by destruct (String.eqb m' m)|].
    cbn in IH. rewrite IH. by destruct (String.eqb m' m).
  - assert (omap (λ r : SchemaTs.registration H,
                    match r with
                    | SchemaTs.RegisterPost m0 fn => if String.eqb m0 m then Some fn else None
                    | SchemaTs.RegisterPre _ _ => None
                    end) (SchemaTs.RegisterPre m' <$> pres) = []) as ->.
    { by induction pres. }
    cbn [app]. induction post as [|p post IH]; cbn; [by destruct (String.eqb m' m)|].
    cbn in IH. rewrite IH. by destruct (String.eqb m' m).
Qed.

Lemma registered_of_queue (q e : queue) (m : string) :
  NoDup q.*1 →
  registered_pre m (SchemaTs.registerHooksFromSchema (SchemaTs.CallQueue q e))
    = SchemaTs.pres (default empty_hooks (SchemaTs.queue_lookup q m)) ∧
  registered_post m (SchemaTs.registerHooksFromSchema (SchemaTs.CallQueue q e))
    = SchemaTs.post (default empty_hooks (SchemaTs.queue_lookup q m)).
Proof.
  unfold SchemaTs.registerHooksFromSchema. cbn [SchemaTs.cq_model].
  induction q as [|[m' h] q IH]; cbn [fmap list_fmap fst concat SchemaTs.queue_lookup];
    intros Hnd; [done|].
  apply NoDup_cons in Hnd as [Hm' Hnd]. destruct (IH Hnd) as [IHpre IHpost].
  destruct (registered_of_entry m' m h) as [Hpre Hpost].
  unfold registered_pre, registered_post in *.
  split; rewrite omap_app; [rewrite Hpre, IHpre | rewrite Hpost, IHpost];
    (destruct (String.eqb m' m) eqn:E; [|done]);
    apply String.eqb_eq in E as ->; rewrite queue_lookup_None by done;
    cbn; by rewrite !app_nil_r.
Qed.

Lemma declared_snoc (m : string) (ds : list (declaration H)) (d : declaration H) :
  declared_pre m (ds ++ [d])
    = declared_pre m ds ++ match d with
                           | DeclarePre m' fn => if String.eqb m' m then [fn] else []
                           | DeclarePost _ _ => []
                           end ∧
  declared_post m (ds ++ [d])
    = declared_post m ds ++ match d with
                            | DeclarePost m' fn => if String.eqb m' m then [fn] else []
                            | DeclarePre _ _ => []
                            end.
Proof.
  unfold declared_pre, declared_post. rewrite !omap_app.
  destruct d as [m' fn|m' fn]; cbn; by destruct (String.eqb m' m).
Qed.

(** What the model queue holds for a method once the declarations are
    made: the hooks declared for it when it is a query method, and none
    otherwise. *)
Lemma declare_all_model (ds : list (declaration H)) :
  NoDup (SchemaTs.cq_model (declare_all ds)).*1 ∧
  ∀ m, m ≠ "__proto__" →
    default empty_hooks (SchemaTs.queue_lookup (SchemaTs.cq_model (declare_all ds)) m)
    = SchemaTs.Hooks (if SchemaTs.is_query_method m then declared_pre m ds else [])
                     (if SchemaTs.is_query_method m then declared_post m ds else []).
Proof.
  unfold declare_all. induction ds as [|d ds IH] using rev_ind.
  - split; [constructor|]. intros m _. cbn. by destruct (SchemaTs.is_query_method m).
  - rewrite foldl_snoc. destruct IH as [Hnd IH].
    set (q := foldl declare _ ds) in *.
    assert (Hsame : SchemaTs.cq_model (declare q d) = SchemaTs.cq_model q →
              (∀ m, m ≠ "__proto__" → SchemaTs.is_query_method m = true →
                    match d with
                    | DeclarePre m' _ | DeclarePost m' _ => String.eqb m' m = false
                    end) →
              NoDup (SchemaTs.cq_model (declare q d)).*1 ∧
              ∀ m, m ≠ "__proto__" →
                default empty_hooks (SchemaTs.queue_lookup (SchemaTs.cq_model (declare q d)) m)
                = SchemaTs.Hooks
                    (if SchemaTs.is_query_method m then declared_pre m (ds ++ [d]) else [])
                    (if SchemaTs.is_query_method m then declared_post m (ds ++ [d]) else [])).
    { intros -> Hother. split; [done|]. intros m Hm. rewrite (IH m Hm).
      destruct (declared_snoc m ds d) as [-> ->].
      destruct (SchemaTs.is_query_method m) eqn:Hq; [|done].
      specialize (Hother m Hm Hq). destruct d; rewrite Hother; by rewrite !app_nil_r. }
    destruct d as [method fn|method fn].
    + destruct (SchemaTs.is_query_method method) eqn:Hq.
      * destruct (String.eqb method "__proto__") eqn:Hproto.
        -- apply Hsame.
           ++ cbn [declare]. unfold SchemaTs.pre, SchemaTs.on_queue, SchemaTs.push.
              by rewrite Hq, Hproto.
           ++ intros m Hm _. apply String.eqb_eq in Hproto as ->.
              by apply String.eqb_neq.
        -- cbn [declare]. unfold SchemaTs.pre, SchemaTs.on_queue, SchemaTs.push.
           rewrite Hq, Hproto. cbn [snd SchemaTs.cq_model].
           split; [by apply queue_alter_keys|]. intros m Hm.
           rewrite queue_lookup_alter. destruct (declared_snoc m ds (DeclarePre method fn)) as [-> ->].
           destruct (String.eqb method m) eqn:E.
           ++ apply String.eqb_eq in E as ->. cbn [default from_option id].
              rewrite (IH m Hm), Hq. cbn [SchemaTs.pres SchemaTs.post]. by rewrite app_nil_r.
           ++ rewrite (IH m Hm). by rewrite !app_nil_r.
      * apply Hsame.
        -- cbn [declare]. unfold SchemaTs.pre, SchemaTs.on_queue. rewrite Hq.
           by destruct (SchemaTs.push _ _ _ _ _).
        -- intros m Hm Hqm. destruct (String.eqb method m) eqn:E; [|done].
           apply String.eqb_eq in E as ->. congruence.
    + destruct (SchemaTs.is_query_method method) eqn:Hq.
      * destruct (String.eqb method "__proto__") eqn:Hproto.
        -- apply Hsame.
           ++ cbn [declare]. unfold SchemaTs.post_, SchemaTs.on_queue, SchemaTs.push.
              by rewrite Hq, Hproto.
           ++ intros m Hm _. apply String.eqb_eq in Hproto as ->.
              by apply String.eqb_neq.
        -- cbn [declare]. unfold SchemaTs.post_, SchemaTs.on_queue, SchemaTs.push.
           rewrite Hq, Hproto. cbn [snd SchemaTs.cq_model].
           split; [by apply queue_alter_keys|]. intros m Hm.
           rewrite queue_lookup_alter. destruct (declared_snoc m ds (DeclarePost method fn)) as [-> ->].
           destruct (String.eqb method m) eqn:E.
           ++ apply String.eqb_eq in E as ->. cbn [default from_option id].
              rewrite (IH m Hm), Hq. cbn [SchemaTs.pres SchemaTs.post]. by rewrite app_nil_r.
           ++ rewrite (IH m Hm). by rewrite !app_nil_r.
      * apply Hsame.
        -- cbn [declare]. unfold SchemaTs.post_, SchemaTs.on_queue. rewrite Hq.
           by destruct (SchemaTs.push _ _ _ _ _).
        -- intros m Hm Hqm. destruct (String.eqb method m) eqn:E; [|done].
           apply String.eqb_eq in E as ->. congruence.
Qed.

Lemma is_query_method_names (method : string) :
  SchemaTs.is_query_method method
  = bool_decide (method ∈ ["update"; "delete"; "findOne"] ++ inherited_names).
Proof.
  unfold SchemaTs.is_query_method, SchemaTs.IS_QUERY_METHOD, SchemaTs.object_prototype_names.
  repeat case_bool_decide; try done; rewrite elem_of_app in *; naive_solver.
Qed.

(** X19: hooks declared on a schema reach the Model in the order of their
    declaration.  After any sequence of [schema.pre] and [schema.post]
    calls, the hooks that registerHooksFromSchema registers on the Model
    for a method are, when [IS_QUERY_METHOD[method]] holds something,
    exactly the hooks declared for that method, pre hooks as pre hooks and
    post hooks as post hooks, each list in declaration order; for any other
    method the Model gets none (they are queued for the entity instead).
    [IS_QUERY_METHOD[method]] holds something for update, delete and
    findOne, and also for the names every object inherits (toString,
    valueOf, constructor, ...), whose hooks reach the Model too.  The name
    __proto__ is left out. *)
Theorem hooks_registered_in_declaration_order (ds : list (declaration H)) (method : string) :
  method ≠ "__proto__" →
  let registered := SchemaTs.registerHooksFromSchema (declare_all ds) in
  let reaches_the_model :=
    bool_decide (method ∈ ["update"; "delete"; "findOne"] ++ inherited_names) in
  registered_pre method registered
    = (if reaches_the_model then declared_pre method ds else []) ∧
  registered_post method registered
    = (if reaches_the_model then declared_post method ds else []).
Proof.
  intros Hm registered reaches_the_model. unfold registered, reaches_the_model.
  rewrite <- is_query_method_names.
  destruct (declare_all_model ds) as [Hnd Hq].
  destruct (declare_all ds) as [model entity]. cbn [SchemaTs.cq_model] in *.
  destruct (registered_of_queue model entity method Hnd) as [-> ->].
  by rewrite (Hq method Hm).
Qed.
End SchemaHooks.

Lemma hooks_registered_in_declaration_order_witness :
  let ds := [DeclarePre "delete" 1%nat; DeclarePost "save" 2%nat; DeclarePre "toString" 3%nat;
             DeclarePost "delete" 4%nat; DeclarePre "delete" 5%nat;
             DeclarePost "toString" 6%nat; DeclarePre "toString" 7%nat] in
  let registered := SchemaTs.registerHooksFromSchema (declare_all ds) in
  (registered_pre "toString" registered = [3; 7]%nat ∧
   registered_post "toString" registered = [6]%nat) ∧
  (registered_pre "delete" registered = [1; 5]%nat ∧
   registered_post "delete" registered = [4]%nat) ∧
  (registered_pre "save" registered = [] ∧ registered_post "save" registered = []).
Proof.
  intros ds registered. split_and!.
  - apply (hooks_registered_in_declaration_order ds "toString"). discriminate.
  - apply (hooks_registered_in_declaration_order ds "toString"). discriminate.
  - apply (hooks_registered_in_declaration_order ds "delete"). discriminate.
  - apply (hooks_registered_in_declaration_order ds "delete"). discriminate.
  - apply (hooks_registered_in_declaration_order ds "save"). discriminate.
  - apply (hooks_registered_in_declaration_order ds "save"). discriminate.
Defined.

Section SchemaConstructor.
Context {Key : Type}.
Variable joi_validate_of :
  list (string * pathConfig) → value Key → bool * gmap string (value Key).

Lemma add_paths_spec (properties : list (string * pathConfig)) (paths : gmap string pathConfig) :
  match SchemaTs.add_paths properties paths with
  | Throw e =>
      ∃ before key definition after,
        properties = before ++ (key, definition) :: after ∧
        Forall (λ kd, SchemaTs.is_reserved kd.1 = false) before ∧
        SchemaTs.is_reserved key = true ∧
        e = Error (key +:+ " is reserved and can not be used as a schema pathname")
  | Return paths' =>
      Forall (λ kd, SchemaTs.is_reserved kd.1 = false) properties ∧
      paths' = foldl (λ acc kd, <[kd.1 := kd.2]> acc) paths properties
  end.
Proof.
  revert paths. induction properties as [|[key definition] rest IH]; intros paths;
    cbn [SchemaTs.add_paths].
  - split; [apply Forall_nil_2|done].
  - destruct (SchemaTs.is_reserved key) eqn:Hkey.
    + exists [], key, definition, rest. split_and!; try done; try apply Forall_nil_2.
    + specialize (IH (<[key := definition]> paths)).
      destruct (SchemaTs.add_paths rest _) as [paths'|e].
      * destruct IH as [Hall ->]. split; [|done]. by apply Forall_cons_2.
      * destruct IH as (before & k & d & after & -> & Hall & Hk & ->).
        exists ((key, definition) :: before), k, d, after. split_and!; try done.
        by apply Forall_cons_2.
Qed.

(** X20: the constructor of Schema accepts the properties exactly when
    none of their names is reserved (the reserved names listed, and those
    every object inherits, such as toString); otherwise it throws, naming
    the first reserved name in the order of the properties.  When it
    accepts, the paths of the schema are the properties, each under its
    name. *)
Theorem new_Schema_reserved_names (properties : list (string * pathConfig))
    (provided : option SchemaTs.providedOptions) :
  match SchemaTs.new_Schema joi_validate_of properties provided with
  | Throw e =>
      ∃ before key definition after,
        properties = before ++ (key, definition) :: after ∧
        Forall (λ kd, SchemaTs.is_reserved kd.1 = false) before ∧
        SchemaTs.is_reserved key = true ∧
        e = Error (key +:+ " is reserved and can not be used as a schema pathname")
  | Return s =>
      Forall (λ kd, SchemaTs.is_reserved kd.1 = false) properties ∧
      paths s = foldl (λ acc kd, <[kd.1 := kd.2]> acc) ∅ properties
  end.
Proof.
  unfold SchemaTs.new_Schema. destruct (SchemaTs.initSchemaOptions provided) as [options joi].
  pose proof (add_paths_spec properties ∅) as Hspec.
  by destruct (SchemaTs.add_paths properties ∅).
Qed.

(** X21: a schema is explicit-only unless it is told otherwise.  For a
    schema built by the constructor, with Joi or without, the TypeScript
    sanitize runs in explicit-only mode exactly when the [explicitOnly]
    option was left out or passed as true (as long as the Joi options
    allowUnknown and stripUnknown are not set by hand); validation before
    save is likewise on unless [validateBeforeSave: false] is passed. *)
Theorem schema_explicit_only_by_default (properties : list (string * pathConfig))
    (provided : option SchemaTs.providedOptions) (s : schema Key) :
  SchemaTs.new_Schema joi_validate_of properties provided = Return s →
  match provided with
  | Some p =>
      match SchemaTs.given_joi p with
      | SchemaTs.JoiConfig (Some o) =>
          SchemaTs.given_allowUnknown o = None ∧ SchemaTs.given_stripUnknown o = None
      | _ => True
      end
  | None => True
  end →
  ModelTs.isSchemaExplicitOnly s = default true (provided ≫= SchemaTs.given_explicitOnly) ∧
  explicitOnly (options s) = Some (default true (provided ≫= SchemaTs.given_explicitOnly)) ∧
  validateBeforeSave (options s)
    = default true (provided ≫= SchemaTs.given_validateBeforeSave).
Proof.
  unfold SchemaTs.new_Schema, SchemaTs.initSchemaOptions.
  destruct (SchemaTs.add_paths properties ∅) as [paths|e]; [|done].
  intros [= <-] Hjoi. unfold ModelTs.isSchemaExplicitOnly. cbn [_joi options explicitOnly
    validateBeforeSave].
  split; [|done].
  destruct provided as [[v e k joi]|]; cbn [mbind option_bind SchemaTs.given_explicitOnly
    SchemaTs.given_joi fmap option_fmap option_map] in *; [|done].
  destruct joi as [| |[[allow strip]|]]; cbn [fmap option_fmap option_map default from_option id
    joi_stripUnknown SchemaTs.given_allowUnknown SchemaTs.given_stripUnknown] in *.
  - by destruct e as [[]|].
  - destruct e as [[]|]; done.
  - destruct Hjoi as [-> ->]. destruct e as [[]|]; done.
  - destruct e as [[]|]; done.
Qed.
End SchemaConstructor.

Section SchemaPath.
Context {D : Type}.

(** X22: [schema.path(name, definition)] followed by [schema.path(name)]
    gives the definition back, and changes what [path] answers for no other
    name; for a reserved name it throws and leaves the paths as they were. *)
Theorem path_set_then_get (paths : gmap string D) (name : string) (d : D) :
  let set := SchemaTs.path paths name (Some d) in
  if SchemaTs.is_reserved name
  then set = (Throw (Error (name +:+ " is reserved and can not be used as a schema pathname")),
              paths)
  else set.1 = Return SchemaTs.PathSchema ∧
       SchemaTs.path set.2 name None = (Return (SchemaTs.PathDefinition d), set.2) ∧
       ∀ other, other ≠ name →
                (SchemaTs.path set.2 other None).1 = (SchemaTs.path paths other None).1.
Proof.
  intros set. unfold set, SchemaTs.path. destruct (SchemaTs.is_reserved name); [done|].
  cbn [fst snd]. rewrite lookup_insert_eq. split_and!; try done.
  intros other Hother. by rewrite lookup_insert_ne.
Qed.
End SchemaPath.

Lemma schema_explicit_only_by_default_witness :
  let validate : list (string * pathConfig) → value string → bool * gmap string (value string) :=
    λ _ data, (false, own_properties data) in
  let properties := [("name", Samples.writable)] in
  let provided := Some (SchemaTs.ProvidedOptions None None None SchemaTs.JoiOn) in
  let s := Schema (<["name" := Samples.writable]> ∅) (SchemaOptions (Some true) true None)
                  (Some (JoiSchema (validate properties) false true)) None in
  ModelTs.isSchemaExplicitOnly s = default true (provided ≫= SchemaTs.given_explicitOnly) ∧
  explicitOnly (options s) = Some (default true (provided ≫= SchemaTs.given_explicitOnly)) ∧
  validateBeforeSave (options s)
    = default true (provided ≫= SchemaTs.given_validateBeforeSave).
Proof.
  intros validate properties provided s.
  apply (schema_explicit_only_by_default validate properties provided s); [reflexivity|exact I].
Defined.

(** ** The registry of models *)

Section RegistryFacts.
Context {P : Type}.
Variable Schema_constructor : Gstore.schemaArg P → result bool.
Variable compile_error : Gstore.schemaRef → option error.
Abbreviation model := (Gstore.model Schema_constructor compile_error).

Lemma convert_models (g g' : Gstore.registry) (schema : Gstore.schemaArg P)
    (s : option Gstore.schemaRef) :
  Gstore.convert Schema_constructor g schema = Return (s, g') →
  Gstore.models g' = Gstore.models g ∧ Gstore.modelSchemas g' = Gstore.modelSchemas g.
Proof.
  unfold Gstore.convert.
  destruct schema as [|p|[id flag]]; cbn [Gstore.instanceOfSchema];
    try destruct flag; try destruct (Schema_constructor _); intros [= <- <-]; done.
Qed.

Lemma remember_models (g g' : Gstore.registry) (entityKind : string)
    (s : option Gstore.schemaRef) :
  Gstore.remember g entityKind s = Return g' → Gstore.models g' = Gstore.models g.
Proof.
  unfold Gstore.remember.
  destruct (Gstore.find _ _), s; intros [= <-]; done.
Qed.

Lemma find_Own {A} (table : gmap string A) (name : string) (a : A) :
  Gstore.find table name = Gstore.Own _ a ↔ table !! name = Some a.
Proof.
  unfold Gstore.find. destruct (table !! name); [|case_bool_decide]; split; congruence.
Qed.

Lemma find_NotFound {A} (table : gmap string A) (name : string) :
  Gstore.find table name = Gstore.NotFound _ → table !! name = None.
Proof. unfold Gstore.find. by destruct (table !! name). Qed.

(** What a call does to the registered models: nothing, or it adds the
    model it answers, under the kind, where there was none. *)
Lemma model_effect (g : Gstore.registry) (entityKind : string)
    (schema : Gstore.schemaArg P) (cache : option bool) :
  let call := model g entityKind schema cache in
  Gstore.models call.2 = Gstore.models g ∨
  ∃ m, cache ≠ Some false ∧ Gstore.models g !! entityKind = None ∧
       call.1 = Return (Gstore.AModel m) ∧
       Gstore.models call.2 = <[entityKind := m]> (Gstore.models g).
Proof.
  intros call. unfold call, Gstore.model.
  destruct (Gstore.convert _ g schema) as [[s g1]|e] eqn:Hc; [|by left].
  apply convert_models in Hc as [Hm1 _].
  destruct (Gstore.remember g1 entityKind s) as [g2|e] eqn:Hr; [|by left].
  apply remember_models in Hr as Hm2.
  destruct (Gstore.registered g2 entityKind s cache) as [answer|] eqn:Hreg.
  { left. cbn. congruence. }
  unfold Gstore.compiled. destruct (Gstore.compile _ _ _ _) as [m|e]; [|left; cbn; congruence].
  cbn [fst snd Gstore.models].
  unfold Gstore.registered in Hreg.
  case_bool_decide as Hcache; [left; congruence|].
  right. exists m. split_and!; try done; [|congruence].
  destruct (Gstore.find (Gstore.models g2) entityKind) eqn:Hfind; try done.
  apply find_NotFound in Hfind. congruence.
Qed.

(** X23: gstore.model never replaces or removes a registered model.
    Whatever the arguments, every model registered before the call is
    registered after it, under the same kind; the only model a call can add
    is the one it answers, under the kind it was asked for, and only when
    the cache is not bypassed; and for a kind that is registered, a call
    that does not bypass the cache answers the registered model or throws. *)
Theorem registered_models_are_kept (g : Gstore.registry) (entityKind : string)
    (schema : Gstore.schemaArg P) (cache : option bool) :
  let call := model g entityKind schema cache in
  (∀ k m, Gstore.models g !! k = Some m → Gstore.models call.2 !! k = Some m) ∧
  (∀ k m, Gstore.models g !! k = None → Gstore.models call.2 !! k = Some m →
          k = entityKind ∧ call.1 = Return (Gstore.AModel m) ∧ cache ≠ Some false) ∧
  (∀ m, Gstore.models g !! entityKind = Some m → cache ≠ Some false →
        call.1 = Return (Gstore.AModel m) ∨ ∃ e, call.1 = Throw e).
Proof.
  intros call. pose proof (model_effect g entityKind schema cache) as Heffect.
  cbv zeta in Heffect. fold call in Heffect. split_and!.
  - intros k m Hk. destruct Heffect as [->|(m' & _ & Hnone & _ & ->)]; [done|].
    rewrite lookup_insert_ne; [done|]. intros ->. congruence.
  - intros k m Hnone Hk. destruct Heffect as [Heq|(m' & Hcache & _ & Hr & Heq)];
      rewrite Heq in Hk; [congruence|].
    destruct (decide (k = entityKind)) as [->|Hne].
    + rewrite lookup_insert_eq in Hk. by injection Hk as ->.
    + rewrite lookup_insert_ne in Hk by done. congruence.
  - intros m Hm Hcache. unfold call, Gstore.model.
    destruct (Gstore.convert _ g schema) as [[s g1]|e] eqn:Hc; [|right; by eexists].
    apply convert_models in Hc as [Hm1 _].
    destruct (Gstore.remember g1 entityKind s) as [g2|e] eqn:Hr; [|right; by eexists].
    apply remember_models in Hr as Hm2.
    assert (Hfind : Gstore.find (Gstore.models g2) entityKind = Gstore.Own _ m).
    { apply find_Own. congruence. }
    unfold Gstore.registered. rewrite Hfind, bool_decide_eq_false_2 by done.
    cbn [fst]. destruct s as [s|]; [|by left].
    destruct (_ && _); [right; by eexists | by left].
Qed.

(** X24: a model registered under a kind is what later calls answer.
    After a call that passed a Schema instance and answered a model without
    bypassing the cache, a call for the same kind, with no schema or with
    the same Schema instance, answers that same model and changes nothing;
    a call that passes another Schema instance throws 'Trying to override
    ... Model Schema' and changes nothing. *)
Theorem model_round_trip (g g' : Gstore.registry) (entityKind : string)
    (s : Gstore.schemaRef) (cache cache' : option bool) (m : Gstore.modelClass) :
  Gstore.instanceOfSchema s = true →
  cache ≠ Some false →
  cache' ≠ Some false →
  model g entityKind (Gstore.SchemaInstance s) cache = (Return (Gstore.AModel m), g') →
  model g' entityKind Gstore.SchemaAbsent cache' = (Return (Gstore.AModel m), g') ∧
  model g' entityKind (Gstore.SchemaInstance s) cache' = (Return (Gstore.AModel m), g') ∧
  ∀ s', Gstore.instanceOfSchema s' = true →
        Gstore.schema_id s' ≠ Gstore.schema_id s →
        model g' entityKind (Gstore.SchemaInstance s') cache'
        = (Throw (Error ("Trying to override " +:+ entityKind +:+ " Model Schema")), g').
Proof.
  intros Hs Hcache Hcache' Hcall.
  assert (Hg' : Gstore.models g' !! entityKind = Some m ∧
                Gstore.schema_id (Gstore.model_schema m) = Gstore.schema_id s ∧
                Gstore.find (Gstore.modelSchemas g') entityKind ≠ Gstore.NotFound _).
  { revert Hcall. unfold Gstore.model, Gstore.convert. rewrite Hs.
    destruct (Gstore.remember g entityKind (Some s)) as [g2|e] eqn:Hr; [|done].
    assert (Hfound : Gstore.find (Gstore.modelSchemas g2) entityKind ≠ Gstore.NotFound _).
    { revert Hr. unfold Gstore.remember.
      destruct (Gstore.find (Gstore.modelSchemas g) entityKind) eqn:Hf; intros [= <-];
        rewrite ?Hf; try done.
      cbn [Gstore.modelSchemas]. unfold Gstore.find. by rewrite lookup_insert_eq. }
    unfold Gstore.registered. rewrite bool_decide_eq_false_2 by done.
    destruct (Gstore.find (Gstore.models g2) entityKind) as [m0| |] eqn:Hfind.
    - rewrite Hs. cbn [andb].
      destruct (Nat.eqb_spec (Gstore.schema_id s) (Gstore.schema_id (Gstore.model_schema m0)))
        as [Heq|Hne]; cbn [negb]; intros [= <- <-]. by apply find_Own in Hfind.
    - by rewrite Hs.
    - unfold Gstore.compiled, Gstore.compile. destruct (compile_error s); [done|].
      rewrite bool_decide_eq_false_2 by done. intros [= <- <-].
      cbn [Gstore.models Gstore.modelSchemas Gstore.model_schema].
      by rewrite lookup_insert_eq. }
  destruct Hg' as (Hm & Hid & Hfound).
  assert (Hremember : ∀ s0, Gstore.remember g' entityKind s0 = Return g').
  { intros s0. unfold Gstore.remember. by destruct (Gstore.find _ _). }
  apply find_Own in Hm.
  assert (Hanswer : ∀ s0 : option Gstore.schemaRef,
            match Gstore.remember g' entityKind s0 with
            | Return g0 =>
                match Gstore.registered g0 entityKind s0 cache' with
                | Some answer => (answer, g0)
                | None => Gstore.compiled compile_error g0 entityKind s0 cache'
                end
            | Throw e => (Throw e, g')
            end
            = (match s0 with
               | Some s0 =>
                   if Gstore.instanceOfSchema s0 &&
                      negb (Nat.eqb (Gstore.schema_id s0) (Gstore.schema_id s))
                   then Throw (Error ("Trying to override " +:+ entityKind +:+ " Model Schema"))
                   else Return (Gstore.AModel m)
               | None => Return (Gstore.AModel m)
               end, g')).
  { intros s0. rewrite Hremember. unfold Gstore.registered.
    rewrite bool_decide_eq_false_2 by done. rewrite Hm, Hid. done. }
  unfold Gstore.model, Gstore.convert. split_and!.
  - apply (Hanswer None).
  - rewrite Hs. rewrite (Hanswer (Some s)), Hs, Nat.eqb_refl. done.
  - intros s' Hs' Hne. rewrite Hs'. rewrite (Hanswer (Some s')), Hs'.
    apply Nat.eqb_neq in Hne as ->. done.
Qed.

(** X25: a model compiled with [cache: false] is not registered, but its
    schema is remembered.  On a gstore that does not know the kind, the call
    answers a new model and leaves the registered models as they were; a
    later call for the kind with no schema then finds the kind known, has no
    schema to compile, and fails with a TypeError, not with 'Schema ...
    missing'. *)
Theorem model_bypassing_the_cache (g : Gstore.registry) (entityKind : string)
    (s : Gstore.schemaRef) :
  Gstore.models g !! entityKind = None →
  Gstore.modelSchemas g !! entityKind = None →
  entityKind ∉ SchemaTs.object_prototype_names →
  Gstore.instanceOfSchema s = true →
  compile_error s = None →
  ∃ m g', model g entityKind (Gstore.SchemaInstance s) (Some false)
            = (Return (Gstore.AModel m), g') ∧
          Gstore.models g' = Gstore.models g ∧
          Gstore.modelSchemas g' !! entityKind = Some s ∧
          model g' entityKind Gstore.SchemaAbsent None = (Throw TypeError, g').
Proof.
  intros Hmodels Hschemas Hname Hs Hcompile.
  assert (Hfind : ∀ A (table : gmap string A),
            table !! entityKind = None → Gstore.find table entityKind = Gstore.NotFound _).
  { intros A table Hnone. unfold Gstore.find. rewrite Hnone.
    by rewrite bool_decide_eq_false_2. }
  unfold Gstore.model at 1. unfold Gstore.convert, Gstore.remember. rewrite Hs.
  rewrite (Hfind _ _ Hschemas). unfold Gstore.registered, Gstore.compiled, Gstore.compile.
  cbn [bool_decide]. rewrite bool_decide_eq_true_2 by done. rewrite Hcompile.
  cbn [Gstore.models Gstore.modelSchemas Gstore.next_id].
  eexists _, _. split; [reflexivity|]. cbn [Gstore.models Gstore.modelSchemas].
  split; [done|]. split; [by rewrite lookup_insert_eq|].
  unfold Gstore.model, Gstore.convert, Gstore.remember, Gstore.find at 1.
  cbn [Gstore.models Gstore.modelSchemas Gstore.next_id]. rewrite lookup_insert_eq.
  unfold Gstore.registered. rewrite bool_decide_eq_false_2 by done.
  cbn [Gstore.models]. rewrite (Hfind _ _ Hmodels). done.
Qed.
End RegistryFacts.

Lemma model_round_trip_witness :
  let model := Gstore.model (P := unit) (λ _, Return true) (λ _, None) in
  let s := Gstore.SchemaRef 7 true in
  let m := Gstore.ModelClass 0 "User" s in
  let g := Gstore.Registry ∅ ∅ 0 in
  let g' := Gstore.Registry (<["User" := m]> ∅) (<["User" := s]> ∅) 1 in
  model g "User" (Gstore.SchemaInstance s) None = (Return (Gstore.AModel m), g') ∧
  model g' "User" Gstore.SchemaAbsent None = (Return (Gstore.AModel m), g') ∧
  model g' "User" (Gstore.SchemaInstance s) None = (Return (Gstore.AModel m), g') ∧
  ∀ s', Gstore.instanceOfSchema s' = true →
        Gstore.schema_id s' ≠ Gstore.schema_id s →
        model g' "User" (Gstore.SchemaInstance s') None
        = (Throw (Error ("Trying to override " +:+ "User" +:+ " Model Schema")), g').
Proof.
  intros model s m g g'.
  assert (Hcall : model g "User" (Gstore.SchemaInstance s) None
                  = (Return (Gstore.AModel m), g')) by reflexivity.
  split; [exact Hcall|].
  apply (model_round_trip (λ _, Return true) (λ _, None) g g' "User" s None None m);
    [reflexivity | discriminate | discriminate | exact Hcall].
Defined.

Lemma model_bypassing_the_cache_witness :
  let model := Gstore.model (P := unit) (λ _, Return true) (λ _, None) in
  let s := Gstore.SchemaRef 7 true in
  let g := Gstore.Registry ∅ ∅ 0 in
  ("User" ∉ SchemaTs.object_prototype_names) ∧
  ∃ m g', model g "User" (Gstore.SchemaInstance s) (Some false)
            = (Return (Gstore.AModel m), g') ∧
          Gstore.models g' = Gstore.models g ∧
          Gstore.modelSchemas g' !! "User" = Some s ∧
          model g' "User" Gstore.SchemaAbsent None = (Throw TypeError, g').
Proof.
  intros model s g.
  assert (Hname : "User" ∉ SchemaTs.object_prototype_names).
  { apply (bool_decide_unpack _). vm_compute. exact I. }
  split; [exact Hname|].
  apply (model_bypassing_the_cache (λ _, Return true) (λ _, None) g "User" s);
    [reflexivity | reflexivity | exact Hname | reflexivity | reflexivity].
Defined.

(** ** One gstore instance per namespace *)

Section InstanceFacts.
Context {C : Type}.

(** X26: the package keeps one gstore instance per namespace.  After a call
    with a config object, the instance it answered is the one kept under the
    namespace (the default one when the config names none, or an empty
    one); a later call for the same namespace answers that same instance
    and changes nothing, whatever cache or errorOnEntityNotFound it asks
    for; so does a call without config, when the namespace is the default
    one; and the instances of the other namespaces are still kept.  The
    namespace '__proto__' is left out: no instance is kept under it. *)
Theorem one_instance_per_namespace (st : GstoreInstances.instances C)
    (namespace : option string) (cache cache' : option C) (e e' : option bool) :
  let name := default GstoreInstances.gstoreDefaultNamespace
                      (EntityKey.namespace_given namespace) in
  let first := GstoreInstances.instanceManager st
                 (GstoreInstances.ConfigObject namespace cache e) in
  name ≠ "__proto__" →
  ∃ g, first.1 = Return g ∧
       GstoreInstances.by_namespace first.2 !! name = Some g ∧
       GstoreInstances.instanceManager first.2
         (GstoreInstances.ConfigObject namespace cache' e') = (Return g, first.2) ∧
       (name = GstoreInstances.gstoreDefaultNamespace →
        GstoreInstances.instanceManager first.2 GstoreInstances.ConfigAbsent
        = (Return g, first.2)) ∧
       (∀ other g', other ≠ name →
          GstoreInstances.by_namespace st !! other = Some g' →
          GstoreInstances.by_namespace first.2 !! other = Some g').
Proof.
  intros name first Hname. unfold first, GstoreInstances.instanceManager. fold name.
  destruct (GstoreInstances.by_namespace st !! name) as [g|] eqn:Hg; cbn [fst snd].
  - exists g. rewrite Hg. split_and!; try done.
    intros Hdefault. cbn [EntityKey.namespace_given default from_option id].
    by rewrite <- Hdefault, Hg.
  - apply String.eqb_neq in Hname as Hneq. rewrite Hneq.
    cbn [GstoreInstances.by_namespace]. rewrite lookup_insert_eq.
    eexists. split_and!; try done.
    + intros Hdefault. cbn [EntityKey.namespace_given default from_option id].
      by rewrite <- Hdefault, lookup_insert_eq.
    + intros other g' Hother Hg'. by rewrite lookup_insert_ne.
Qed.
End InstanceFacts.

Lemma one_instance_per_namespace_witness :
  let st := GstoreInstances.Instances (C := unit) ∅ 0 in
  let first := GstoreInstances.instanceManager st
                 (GstoreInstances.ConfigObject (Some "blog") None None) in
  "blog" ≠ "__proto__" ∧
  ∃ g, first.1 = Return g ∧
       GstoreInstances.by_namespace first.2 !! "blog" = Some g ∧
       GstoreInstances.instanceManager first.2
         (GstoreInstances.ConfigObject (Some "blog") (Some tt) (Some false))
       = (Return g, first.2) ∧
       ("blog" = GstoreInstances.gstoreDefaultNamespace →
        GstoreInstances.instanceManager first.2 GstoreInstances.ConfigAbsent
        = (Return g, first.2)) ∧
       (∀ other g', other ≠ "blog" →
          GstoreInstances.by_namespace st !! other = Some g' →
          GstoreInstances.by_namespace first.2 !! other = Some g').
Proof.
  intros st first.
  assert (Hname : "blog" ≠ "__proto__") by discriminate.
  split; [exact Hname|].
  exact (one_instance_per_namespace st (Some "blog") None (Some tt) None (Some false) Hname).
Defined.

(** ** Reading records: fromDatastore and entity.plain *)

Section FromDatastoreFacts.
Context {Key E : Type}.
Variable key_props : Key → gmap string (value Key).
Variable idFromKey : Key → value Key.
Variable new_Date : Z → value Key.
Variable getEntityDataWithVirtuals : value Key → result (value Key).
Variable __model : value Key → option Key → result E.
Variable paths : gmap string FromDatastore.pathDefinition.
Abbreviation convert_property := (FromDatastore.convert_property new_Date).
Abbreviation each_property := (FromDatastore.each_property new_Date paths).
Abbreviation convertToJson := (FromDatastore.convertToJson key_props idFromKey new_Date paths).
Abbreviation plain :=
  (FromDatastore.plain key_props idFromKey new_Date __model getEntityDataWithVirtuals paths).

Lemma split_path_not_nil (path : string) : split_path path ≠ [].
Proof.
  induction path as [|c rest IH]; cbn [split_path]; [done|].
  destruct (Ascii.eqb c "."); [done|]. by destruct (split_path rest).
Qed.

(** What the loop over the properties leaves, when it gets to its end. *)
Lemma each_property_Return (readAll : bool) (entries : list (string * value Key))
    (data0 record0 data record : gmap string (value Key)) :
  NoDup entries.*1 →
  each_property readAll entries data0 record0 = Some (Return (data, record)) →
  (∀ k, k ∉ entries.*1 → data !! k = data0 !! k ∧ record !! k = record0 !! k) ∧
  (∀ k v, (k, v) ∈ entries →
     ∃ shown kept, convert_property readAll (paths !! k) v = Some (Return (shown, kept)) ∧
                   record !! k = Some kept ∧
                   data !! k = match shown with
                               | Some x => if String.eqb k "__proto__" then data0 !! k else Some x
                               | None => data0 !! k
                               end).
Proof.
  revert data0 record0.
  induction entries as [|[k0 v0] rest IH]; intros data0 record0 Hnodup Hrun.
  { injection Hrun as <- <-. split; [done|]. intros k v Hin. by apply elem_of_nil in Hin. }
  cbn [fmap list_fmap fst] in Hnodup. apply NoDup_cons in Hnodup as [Hk0 Hnodup].
  cbn [FromDatastore.each_property] in Hrun.
  destruct (convert_property readAll (paths !! k0) v0) as [[[shown kept]|e]|] eqn:Hconv;
    [|done|done].
  destruct (IH _ _ Hnodup Hrun) as [Hout Hin].
  assert (Hstart : ∀ k, k ≠ k0 →
            match shown with
            | Some x => FromDatastore.assign k0 x data0
            | None => data0
            end !! k = data0 !! k).
  { intros k Hne. destruct shown as [x|]; [|done]. unfold FromDatastore.assign.
    destruct (String.eqb k0 "__proto__"); [done|]. by rewrite lookup_insert_ne. }
  split.
  - intros k Hk. cbn [fmap list_fmap fst] in Hk. apply not_elem_of_cons in Hk as [Hne Hk].
    destruct (Hout k Hk) as [-> ->]. rewrite Hstart by done. by rewrite lookup_insert_ne.
  - intros k v Hkv. apply elem_of_cons in Hkv as [[= -> ->]|Hkv].
    + exists shown, kept. destruct (Hout k0 Hk0) as [-> ->].
      rewrite lookup_insert_eq. split_and!; try done.
      destruct shown as [x|]; [|done]. unfold FromDatastore.assign.
      destruct (String.eqb k0 "__proto__"); [done|]. by rewrite lookup_insert_eq.
    + assert (Hne : k ≠ k0).
      { intros ->. apply Hk0. apply list_elem_of_fmap. by exists (k0, v). }
      destruct (Hin k v Hkv) as (shown' & kept' & Hc & Hr & Hd).
      exists shown', kept'. split_and!; try done. rewrite Hd, Hstart by done. done.
Qed.

(** X27: fromDatastore hides what the schema says is not read.  When the
    conversion to JSON returns, with readAll off: the answer carries the key
    of the record; a property whose path has [read: false] is not in it
    (the names id and __key apart, which the conversion sets itself); a
    property that has no path in the schema is in it, as it is in the
    record, so a property id of the record replaces the id of the key; id
    is the last element of the key's path when the record has no property
    of that name; and __key is the key when showKey is on, and is absent
    otherwise. *)
Theorem convertToJson_hides_what_is_not_read (cls : option Key)
    (props : gmap string (value Key)) (key : Key) (showKey : bool)
    (data record : value Key) :
  convertToJson (VObject cls props (Some key)) false showKey = Some (Return (data, record)) →
  get_KEY data = Some key ∧
  (∀ k d, paths !! k = Some d → FromDatastore.pd_read d = Some false →
          k ≠ "id" → k ≠ "__key" → own_properties data !! k = None) ∧
  (∀ k v, props !! k = Some v → paths !! k = None →
          k ≠ "__key" → k ≠ "__proto__" → own_properties data !! k = Some v) ∧
  (props !! "id" = None → own_properties data !! "id" = Some (idFromKey key)) ∧
  own_properties data !! "__key"
  = (if showKey then Some (ModelTs.key_value key_props key) else None).
Proof.
  unfold FromDatastore.convertToJson.
  destruct (each_property false _ _ _) as [[[data' record']|e]|] eqn:Hrun; [|done|done].
  intros [= <- <-]. cbn [get_KEY own_properties].
  apply each_property_Return in Hrun as [Hout Hin]; [|apply NoDup_fst_map_to_list].
  assert (Hfinal : ∀ k, k ≠ "__key" →
            (if showKey then <["__key" := ModelTs.key_value key_props key]> data'
             else delete "__key" data') !! k = data' !! k).
  { intros k Hk. destruct showKey; [by rewrite lookup_insert_ne|by rewrite lookup_delete_ne]. }
  assert (Hmissing : ∀ k, props !! k = None → data' !! k = (<["id" := idFromKey key]> (∅ : gmap string (value Key))) !! k).
  { intros k Hk. apply Hout. intros Hin'. apply list_elem_of_fmap in Hin' as [[k' v] [-> Hkv]].
    apply elem_of_map_to_list in Hkv. cbn in Hk. congruence. }
  split_and!.
  - done.
  - intros k d Hd Hread Hid Hkey. rewrite Hfinal by done.
    destruct (props !! k) as [v|] eqn:Hk.
    + apply elem_of_map_to_list in Hk. destruct (Hin k v Hk) as (shown & kept & Hc & _ & ->).
      rewrite Hd in Hc. unfold FromDatastore.convert_property, FromDatastore.is_read in Hc.
      rewrite Hread in Hc. cbn in Hc. injection Hc as <- _. by rewrite lookup_insert_ne.
    + rewrite Hmissing by done. by rewrite lookup_insert_ne.
  - intros k v Hk Hpath Hkey Hproto. rewrite Hfinal by done.
    apply elem_of_map_to_list in Hk. destruct (Hin k v Hk) as (shown & kept & Hc & _ & ->).
    rewrite Hpath in Hc. injection Hc as <- _.
    by apply String.eqb_neq in Hproto as ->.
  - intros Hid. rewrite Hfinal by done. rewrite Hmissing by done. by rewrite lookup_insert_eq.
  - destruct showKey; [by rewrite lookup_insert_eq|by rewrite lookup_delete_eq].
Qed.

Lemma convert_property_readAll (definition : option FromDatastore.pathDefinition)
    (v : value Key) :
  convert_property true definition v = Some (Return (Some (shown_as new_Date definition v), v)).
Proof.
  unfold FromDatastore.convert_property, FromDatastore.is_read, FromDatastore.to_exclude.
  unfold shown_as. cbn [orb]. destruct definition as [d|]; [|done].
  destruct (FromDatastore.as_date new_Date d v); reflexivity.
Qed.

Lemma each_property_readAll (entries : list (string * value Key))
    (data0 record0 : gmap string (value Key)) :
  (∀ k v, (k, v) ∈ entries → record0 !! k = Some v) →
  ∃ data, each_property true entries data0 record0 = Some (Return (data, record0)).
Proof.
  revert data0. induction entries as [|[k0 v0] rest IH]; intros data0 Hrecord.
  { by eexists. }
  cbn [FromDatastore.each_property]. rewrite convert_property_readAll.
  rewrite insert_id by (apply Hrecord; apply list_elem_of_here).
  apply IH. intros k v Hkv. apply Hrecord. by apply list_elem_of_further.
Qed.

(** X28: with readAll, fromDatastore shows everything and prunes nothing.
    For a record that has a key the conversion to JSON returns, it leaves
    the record as it was, and every property of the record (the names
    __key and __proto__ apart) is in the answer: as a Date for a number
    under a datetime path, as it is otherwise; [read: false] and
    excludeFromRead are not looked at. *)
Theorem convertToJson_readAll (cls : option Key) (props : gmap string (value Key))
    (key : Key) (showKey : bool) :
  ∃ data,
    convertToJson (VObject cls props (Some key)) true showKey
    = Some (Return (VObject None data (Some key), VObject cls props (Some key))) ∧
    ∀ k v, props !! k = Some v → k ≠ "__key" → k ≠ "__proto__" →
           data !! k = Some (shown_as new_Date (paths !! k) v).
Proof.
  unfold FromDatastore.convertToJson.
  destruct (each_property_readAll (map_to_list props)
              (<["id" := idFromKey key]> ∅) props) as [data Hrun].
  { intros k v Hkv. by apply elem_of_map_to_list. }
  rewrite Hrun. eexists. split; [reflexivity|].
  apply each_property_Return in Hrun as [_ Hin]; [|apply NoDup_fst_map_to_list].
  intros k v Hk Hkey Hproto.
  assert (∀ m : gmap string (value Key),
            (if showKey then <["__key" := ModelTs.key_value key_props key]> m
             else delete "__key" m) !! k = m !! k) as ->.
  { intros m. destruct showKey; [by rewrite lookup_insert_ne|by rewrite lookup_delete_ne]. }
  apply elem_of_map_to_list in Hk. destruct (Hin k v Hk) as (shown & kept & Hc & _ & ->).
  rewrite convert_property_readAll in Hc. injection Hc as <- _.
  by apply String.eqb_neq in Hproto as ->.
Qed.

Lemma exclude_null (prop : string) :
  FromDatastore.exclude VNull prop = Some (Throw (A := value Key) TypeError).
Proof.
  unfold FromDatastore.exclude. destruct (split_path prop) as [|segment [|next rest]]; done.
Qed.

Lemma convert_property_nothing_to_exclude (definition : option FromDatastore.pathDefinition)
    (v : value Key) :
  (∀ d, definition = Some d → FromDatastore.pd_excludeFromRead d = None) →
  ∃ shown, convert_property false definition v = Some (Return (shown, v)).
Proof.
  intros Hnone. unfold FromDatastore.convert_property.
  destruct (FromDatastore.is_read false definition); [|by eexists].
  destruct definition as [d|]; [|by eexists].
  unfold FromDatastore.to_exclude. rewrite (Hnone d eq_refl). cbn [default from_option id].
  destruct (FromDatastore.as_date new_Date d v); by eexists.
Qed.

(** X29: a null property under excludeFromRead makes the read fail.  With
    readAll off, when a property of the record is null and its path is
    read and has a non-empty excludeFromRead array, the conversion to JSON
    throws a TypeError (the [in] operator, on null) instead of answering.
    Stated for a schema where no other path has an excludeFromRead. *)
Theorem convertToJson_null_under_excludeFromRead (cls : option Key)
    (props : gmap string (value Key)) (key : Key) (showKey : bool)
    (k : string) (d : FromDatastore.pathDefinition) (prop : string) (rest : list string) :
  props !! k = Some VNull →
  paths !! k = Some d →
  FromDatastore.pd_read d ≠ Some false →
  FromDatastore.pd_excludeFromRead d = Some (prop :: rest) →
  (∀ k' d', paths !! k' = Some d' → k' ≠ k → FromDatastore.pd_excludeFromRead d' = None) →
  convertToJson (VObject cls props (Some key)) false showKey = Some (Throw TypeError).
Proof.
  intros Hk Hd Hread Hexclude Hothers. unfold FromDatastore.convertToJson.
  assert (Hit : convert_property false (paths !! k) VNull = Some (Throw TypeError)).
  { rewrite Hd. unfold FromDatastore.convert_property, FromDatastore.is_read.
    rewrite bool_decide_eq_false_2 by done. cbn [orb negb FromDatastore.as_date].
    unfold FromDatastore.to_exclude. rewrite Hexclude.
    cbn [default from_option id FromDatastore.exclude_all]. by rewrite exclude_null. }
  assert (Hloop : ∀ entries data0 record0,
            NoDup entries.*1 → (k, VNull) ∈ entries →
            each_property false entries data0 record0 = Some (Throw TypeError)).
  { induction entries as [|[k0 v0] entries IH]; intros data0 record0 Hnodup Hin.
    { by apply elem_of_nil in Hin. }
    cbn [fmap list_fmap fst] in Hnodup. apply NoDup_cons in Hnodup as [Hk0 Hnodup].
    cbn [FromDatastore.each_property].
    apply elem_of_cons in Hin as [[= <- <-]|Hin]; [by rewrite Hit|].
    assert (Hne : k0 ≠ k).
    { intros ->. apply Hk0. apply list_elem_of_fmap. by exists (k, VNull). }
    destruct (convert_property_nothing_to_exclude (paths !! k0) v0) as [shown ->].
    { intros d' Hd'. by apply (Hothers k0). }
    by apply IH. }
  rewrite Hloop; [done|apply NoDup_fst_map_to_list|]. by apply elem_of_map_to_list.
Qed.

(** Pruning only takes properties away. *)
Lemma exclude_segments_shrinks (segments : list string) (v v' : value Key) :
  FromDatastore.exclude_segments segments v = Some (Return v') →
  ∀ path, path_present v' path = true → path_present v path = true.
Proof.
  assert (Hlast : ∀ segment (v v' : value Key),
            FromDatastore.exclude_last segment v = Some (Return v') →
            ∀ path, path_present v' path = true → path_present v path = true).
  { intros segment [| | | | | |cls props dsKEY] w; try done; intros [= <-]; try done.
    intros [|k path]; [done|]. cbn [path_present].
    destruct (decide (k = segment)) as [->|Hne];
      [by rewrite lookup_delete_eq | by rewrite lookup_delete_ne]. }
  revert v v'. induction segments as [|segment rest IH]; intros v v'.
  { apply Hlast. }
  cbn [FromDatastore.exclude_segments]. destruct rest as [|next rest]; [apply Hlast|].
  destruct v as [| | | | | |cls props dsKEY]; try done; [by intros [= <-]|].
  destruct (props !! segment) as [child|] eqn:Hchild.
  - destruct (FromDatastore.exclude_segments (next :: rest) child) as [[child'|e]|] eqn:Hrun;
      [|done|done].
    intros [= <-] [|k path]; [done|]. cbn [path_present].
    destruct (decide (k = segment)) as [->|Hne].
    + rewrite lookup_insert_eq, Hchild. by apply IH.
    + by rewrite lookup_insert_ne.
  - destruct cls; [done|]. case_bool_decide; [done|]. by intros [= <-].
Qed.

(** After the pruning, the path is not there. *)
Lemma exclude_segments_absent (segments : list string) (v v' : value Key) :
  segments ≠ [] →
  FromDatastore.exclude_segments segments v = Some (Return v') →
  path_present v' segments = false.
Proof.
  assert (Hlast : ∀ segment (v v' : value Key),
            FromDatastore.exclude_last segment v = Some (Return v') →
            path_present v' [segment] = false).
  { intros segment [| | | | | |cls props dsKEY] w; try done; intros [= <-]; [done|].
    cbn [path_present]. by rewrite lookup_delete_eq. }
  revert v v'. induction segments as [|segment rest IH]; intros v v' Hne; [done|].
  cbn [FromDatastore.exclude_segments]. destruct rest as [|next rest]; [apply Hlast|].
  destruct v as [| | | | | |cls props dsKEY]; try done; [by intros [= <-]|].
  destruct (props !! segment) as [child|] eqn:Hchild.
  - destruct (FromDatastore.exclude_segments (next :: rest) child) as [[child'|e]|] eqn:Hrun;
      [|done|done].
    intros [= <-]. cbn [path_present]. rewrite lookup_insert_eq. by apply (IH child).
  - destruct cls; [done|]. case_bool_decide; [done|]. intros [= <-].
    cbn [path_present]. by rewrite Hchild.
Qed.

Lemma exclude_all_absent (props : list string) (v v' : value Key) (prop : string) :
  FromDatastore.exclude_all props v = Some (Return v') →
  prop ∈ props →
  path_present v' (split_path prop) = false.
Proof.
  assert (Hshrinks : ∀ props (v v' : value Key),
            FromDatastore.exclude_all props v = Some (Return v') →
            ∀ path, path_present v path = false → path_present v' path = false).
  { induction props0 as [|prop0 props0 IH]; intros w w'; cbn [FromDatastore.exclude_all].
    { by intros [= <-]. }
    destruct (FromDatastore.exclude w prop0) as [[w1|e]|] eqn:Hrun; [|done|done].
    intros Hrest path Hpath. apply (IH _ _ Hrest).
    destruct (path_present w1 path) eqn:Hw1; [|done].
    by rewrite (exclude_segments_shrinks (split_path prop0) w w1 Hrun path Hw1) in Hpath. }
  revert v. induction props as [|prop0 props IH]; intros v Hrun Hin.
  { by apply elem_of_nil in Hin. }
  cbn [FromDatastore.exclude_all] in Hrun.
  destruct (FromDatastore.exclude v prop0) as [[v1|e]|] eqn:Hfirst; [|done|done].
  apply elem_of_cons in Hin as [->|Hin]; [|by apply (IH v1)].
  apply (Hshrinks _ _ _ Hrun). apply (exclude_segments_absent (split_path prop0) v); [|done].
  apply split_path_not_nil.
Qed.

(** X30: entity.plain() prunes the entity itself.  Called without options,
    or with readAll and virtuals off, on an entity whose data has a property
    under a read path with an excludeFromRead array: when it returns, the
    property in the answer and the property left in the entity's own
    entityData are the same pruned value, in which none of the excluded
    paths is there any more. *)
Theorem plain_prunes_the_entity (cls : option Key) (props : gmap string (value Key))
    (key : Key) (options : FromDatastore.plainOptions) (k : string)
    (d : FromDatastore.pathDefinition) (v : value Key) (excluded : list string)
    (prop : string) (data entityData' : value Key) :
  (options = FromDatastore.PlainAbsent ∨
   ∃ showKey, options = FromDatastore.PlainOptions false false showKey) →
  props !! k = Some v →
  paths !! k = Some d →
  FromDatastore.pd_read d ≠ Some false →
  FromDatastore.pd_excludeFromRead d = Some excluded →
  prop ∈ excluded →
  k ≠ "__key" → k ≠ "__proto__" →
  plain (VObject cls props (Some key)) options
  = Some (Return (FromDatastore.Json data, entityData')) →
  ∃ pruned, own_properties data !! k = Some pruned ∧
            own_properties entityData' !! k = Some pruned ∧
            path_present pruned (split_path prop) = false.
Proof.
  intros Hoptions Hk Hd Hread Hexcluded Hprop Hkey Hproto.
  assert (∃ showKey,
            plain (VObject cls props (Some key)) options
            = match convertToJson (VObject cls props (Some key)) false showKey with
              | Some (Return (data, entity')) => Some (Return (FromDatastore.Json data, entity'))
              | Some (Throw e) => Some (Throw e)
              | None => None
              end) as [showKey ->].
  { destruct Hoptions as [->|[showKey ->]]; [exists false|exists showKey]; reflexivity. }
  unfold FromDatastore.convertToJson.
  destruct (each_property false _ _ _) as [[[data' record']|e]|] eqn:Hrun; [|done|done].
  intros [= <- <-]. cbn [own_properties].
  apply each_property_Return in Hrun as [_ Hin]; [|apply NoDup_fst_map_to_list].
  apply elem_of_map_to_list in Hk. destruct (Hin k v Hk) as (shown & kept & Hc & Hrecord & Hdata).
  rewrite Hd in Hc. unfold FromDatastore.convert_property, FromDatastore.is_read in Hc.
  rewrite bool_decide_eq_false_2 in Hc by done. cbn [orb negb] in Hc.
  unfold FromDatastore.to_exclude in Hc. rewrite Hexcluded in Hc.
  cbn [default from_option id] in Hc.
  destruct (FromDatastore.as_date new_Date d v) as [date|].
  { destruct excluded; [by apply elem_of_nil in Hprop|done]. }
  destruct (FromDatastore.exclude_all excluded v) as [[pruned|e]|] eqn:Hpruned; [|done|done].
  injection Hc as <- <-. exists pruned.
  apply String.eqb_neq in Hproto. rewrite Hproto in Hdata. split_and!.
  - destruct showKey; [by rewrite lookup_insert_ne|by rewrite lookup_delete_ne].
  - done.
  - by apply (exclude_all_absent excluded v).
Qed.
End FromDatastoreFacts.

Lemma convertToJson_hides_what_is_not_read_witness :
  let key_props := λ _ : string, (∅ : gmap string (value string)) in
  let idFromKey := λ _ : string, VNumber (Key := string) 1 in
  let new_Date := λ _ : Z, VNull (Key := string) in
  let paths : gmap string FromDatastore.pathDefinition :=
    {[ "password" := FromDatastore.PathDefinition None (Some false) None ]} in
  let props : gmap string (value string) :=
    <["name" := VString "Ann"]> {[ "password" := VString "secret" ]} in
  let data := VObject None (<["id" := VNumber 1]> {[ "name" := VString "Ann" ]})
                      (Some "User/1") in
  let record := VObject None props (Some "User/1") in
  FromDatastore.convertToJson key_props idFromKey new_Date paths
    (VObject None props (Some "User/1")) false false = Some (Return (data, record)) ∧
  get_KEY data = Some "User/1" ∧
  (∀ k d, paths !! k = Some d → FromDatastore.pd_read d = Some false →
          k ≠ "id" → k ≠ "__key" → own_properties data !! k = None) ∧
  (∀ k v, props !! k = Some v → paths !! k = None →
          k ≠ "__key" → k ≠ "__proto__" → own_properties data !! k = Some v) ∧
  (props !! "id" = None → own_properties data !! "id" = Some (idFromKey "User/1")) ∧
  own_properties data !! "__key" = None.
Proof.
  intros key_props idFromKey new_Date paths props data record.
  assert (Hrun : FromDatastore.convertToJson key_props idFromKey new_Date paths
                   (VObject None props (Some "User/1")) false false
                 = Some (Return (data, record))) by (vm_compute; reflexivity).
  split; [exact Hrun|].
  exact (convertToJson_hides_what_is_not_read key_props idFromKey new_Date paths
           None props "User/1" false data record Hrun).
Defined.

Lemma convertToJson_null_under_excludeFromRead_witness :
  let key_props := λ _ : string, (∅ : gmap string (value string)) in
  let idFromKey := λ _ : string, VNumber (Key := string) 1 in
  let new_Date := λ _ : Z, VNull (Key := string) in
  let paths : gmap string FromDatastore.pathDefinition :=
    {[ "address" := FromDatastore.PathDefinition None None (Some ["zip"]) ]} in
  let props : gmap string (value string) :=
    <["name" := VString "Ann"]> {[ "address" := VNull ]} in
  FromDatastore.convertToJson key_props idFromKey new_Date paths
    (VObject None props (Some "User/1")) false false = Some (Throw TypeError).
Proof.
  intros key_props idFromKey new_Date paths props.
  apply (convertToJson_null_under_excludeFromRead key_props idFromKey new_Date paths
           None props "User/1" false "address"
           (FromDatastore.PathDefinition None None (Some ["zip"])) "zip" []).
  - vm_compute; reflexivity.
  - vm_compute; reflexivity.
  - discriminate.
  - reflexivity.
  - intros k' d' Hd' Hne. apply lookup_singleton_Some in Hd' as [<- _]. by destruct Hne.
Defined.

Lemma plain_prunes_the_entity_witness :
  let key_props := λ _ : string, (∅ : gmap string (value string)) in
  let idFromKey := λ _ : string, VNumber (Key := string) 1 in
  let new_Date := λ _ : Z, VNull (Key := string) in
  let getEntityDataWithVirtuals := λ v : value string, Return v in
  let __model := λ (_ : value string) (_ : option string), Return tt in
  let paths : gmap string FromDatastore.pathDefinition :=
    {[ "address" := FromDatastore.PathDefinition None None (Some ["zip"]) ]} in
  let address : value string :=
    plain (<["city" := VString "Paris"]> {[ "zip" := VString "75001" ]}) in
  let pruned : value string := plain {[ "city" := VString "Paris" ]} in
  let props : gmap string (value string) := {[ "address" := address ]} in
  let data := VObject None (<["id" := VNumber 1]> {[ "address" := pruned ]})
                      (Some "User/1") in
  let entityData' := VObject None {[ "address" := pruned ]} (Some "User/1") in
  FromDatastore.plain key_props idFromKey new_Date __model getEntityDataWithVirtuals paths
    (VObject None props (Some "User/1")) FromDatastore.PlainAbsent
  = Some (Return (FromDatastore.Json data, entityData')) ∧
  ∃ pruned, own_properties data !! "address" = Some pruned ∧
            own_properties entityData' !! "address" = Some pruned ∧
            path_present pruned (split_path "zip") = false.
Proof.
  intros key_props idFromKey new_Date getEntityDataWithVirtuals __model paths address pruned
         props data entityData'.
  assert (Hrun : FromDatastore.plain key_props idFromKey new_Date __model
                   getEntityDataWithVirtuals paths
                   (VObject None props (Some "User/1")) FromDatastore.PlainAbsent
                 = Some (Return (FromDatastore.Json data, entityData')))
    by (vm_compute; reflexivity).
  split; [exact Hrun|].
  apply (plain_prunes_the_entity key_props idFromKey new_Date getEntityDataWithVirtuals
           __model paths None props "User/1" FromDatastore.PlainAbsent "address"
           (FromDatastore.PathDefinition None None (Some ["zip"])) address ["zip"] "zip"
           data entityData').
  - by left.
  - vm_compute; reflexivity.
  - vm_compute; reflexivity.
  - discriminate.
  - reflexivity.
  - apply list_elem_of_here.
  - discriminate.
  - discriminate.
  - exact Hrun.
Defined.
